(** * SimCLR trainer: a shallow embedding of [trainers/generic.py] and
    [trainers/simclr.py]

    Tensors of floating point numbers are read as lists of real numbers,
    Python integers as [Z], dictionaries as [gmap], keyword arguments as
    association lists in call order.  External collaborators (the
    augmentation function, Keras models, the optimizer, scikit-learn's
    classifier) are the operations of the class [Collaborators]. *)

From stdpp Require Import gmap strings list fin_maps.
From Stdlib Require Import ZArith Reals Lra Lia.

Local Set Warnings "-register-all,-clear-no-such-hyp".

Local Open Scope string_scope.

(** ** Python values, truthiness, exceptions *)

Inductive PyVal : Type :=
| PyNone
| PyBool (b : bool)
| PyInt (z : Z)
| PyFloat (r : R)
| PyStr (s : string)
| PyTuple (vs : list PyVal)
| PyDict (kvs : list (string * PyVal)).

(** [bool(v)] *)
Definition truthy (v : PyVal) : bool :=
  match v with
  | PyNone => false
  | PyBool b => b
  | PyInt z => negb (z =? 0)%Z
  | PyFloat r => if Req_dec_T r 0 then false else true
  | PyStr s => negb (String.eqb s "")
  | PyTuple vs => match vs with [] => false | _ => true end
  | PyDict kvs => match kvs with [] => false | _ => true end
  end.

(** [v is False] : identity with the singleton [False] *)
Definition is_False (v : PyVal) : bool :=
  match v with
  | PyBool false => true
  | _ => false
  end.

Inductive PyError : Type :=
| AssertionError (msg : string)
| InvalidArgumentError (msg : string)
| TypeError (msg : string)
| KeyError (key : string)
| ValueError (msg : string).

Inductive Result (A : Type) : Type :=
| Ok (a : A)
| Raise (e : PyError).
Arguments Ok {A} a.
Arguments Raise {A} e.

#[global] Instance Result_bind : MBind Result :=
  fun A B k m =>
    match m with
    | Ok a => k a
    | Raise e => Raise e
    end.

#[global] Instance Result_ret : MRet Result := fun A a => Ok a.

(** [assert c, msg] *)
Definition assert (c : bool) (msg : string) : Result unit :=
  if c then Ok tt else Raise (AssertionError msg).

(** ** generic.py: configuration buckets *)

Definition INPUT_PARAMS : list string :=
  ["imshape"; "num_channels"; "norm"; "batch_size";
   "shuffle"; "num_parallel_calls"; "sobel"; "single_channel"].

Record Configs : Type := mkConfigs {
  config : gmap string PyVal;
  input_config : gmap string PyVal;
  augment_config : PyVal
}.

(** One iteration of [for k in kwargs] in [_parse_configs]. *)
Definition _parse_configs_step (c : Configs) (kv : string * PyVal) : Configs :=
  let '(k, v) := kv in
  if String.eqb k "augment" then
    mkConfigs (config c) (input_config c) v
  else if bool_decide (k ∈ INPUT_PARAMS) then
    mkConfigs (config c) (<[k := v]> (input_config c)) (augment_config c)
  else
    mkConfigs (<[k := v]> (config c)) (input_config c) (augment_config c).

Definition _parse_configs (kwargs : list (string * PyVal)) : Configs :=
  fold_left _parse_configs_step kwargs (mkConfigs ∅ ∅ (PyBool false)).

(** The dictionary handed to [yaml.dump]. *)
Definition config_dict (c : Configs) : list (string * PyVal) :=
  [("model", PyDict (map_to_list (config c)));
   ("input", PyDict (map_to_list (input_config c)));
   ("augment", augment_config c)].

(** ** simclr.py: the contrastive loss of the training step *)

Local Open Scope R_scope.

Definition BIG_NUMBER : R := 1000.

Definition Mat : Type := list (list R).

(** An image, flattened to its pixel values. *)
Definition Image : Type := list R.

Definition rsum (v : list R) : R := foldr Rplus 0 v.

Definition dot (u v : list R) : R := rsum (zip_with Rmult u v).

(** [tf.nn.l2_normalize(m, axis=1)]: every row is multiplied by
    [rsqrt(max(sum(row^2), epsilon))], with the default [epsilon=1e-12]. *)
Definition l2_epsilon : R := / 1000000000000.

Definition l2_normalize_row (v : list R) : list R :=
  let s := rsum (map (fun a => a * a) v) in
  map (fun a => a * / sqrt (Rmax s l2_epsilon)) v.

Definition l2_normalize (m : Mat) : Mat := map l2_normalize_row m.

(** [tf.matmul(a, b, transpose_b=True)] *)
Definition matmul_transpose_b (a b : Mat) : Mat :=
  map (fun u => map (fun v => dot u v) b) a.

(** [tf.linalg.eye(n)] *)
Definition eye (n : nat) : Mat :=
  map (fun i => map (fun j => if (i =? j)%nat then 1 else 0) (seq 0 n))
      (seq 0 n).

(** [tf.range(0, n)] *)
Definition tf_range (n : nat) : list Z := map Z.of_nat (seq 0 n).

Definition mat_scale (c : R) (m : Mat) : Mat := map (map (Rmult c)) m.
Definition mat_sub (a b : Mat) : Mat := zip_with (zip_with Rminus) a b.
Definition mat_div (m : Mat) (c : R) : Mat := map (map (fun a => a / c)) m.

(** The softmax of a row of logits. *)
Definition softmax (row : list R) : list R :=
  map (fun a => exp a / rsum (map exp row)) row.

(** One row of [tf.nn.sparse_softmax_cross_entropy_with_logits]: the
    negative log of the softmax at the target class.  A target outside
    the row is rejected. *)
Definition row_cross_entropy (label : Z) (row : list R) : Result R :=
  if ((0 <=? label)%Z && (label <? Z.of_nat (length row))%Z)%bool
  then Ok (ln (rsum (map exp row)) - nth (Z.to_nat label) row 0)
  else Raise (InvalidArgumentError "label value outside the valid range").

Fixpoint rows_cross_entropy (labels : list Z) (logits : Mat)
  : Result (list R) :=
  match labels, logits with
  | [], [] => Ok []
  | l :: labels', row :: logits' =>
      c ← row_cross_entropy l row;
      cs ← rows_cross_entropy labels' logits';
      Ok (c :: cs)
  | _, _ => Raise (InvalidArgumentError "labels and logits differ in length")
  end.

Definition sparse_softmax_cross_entropy_with_logits := rows_cross_entropy.

(** [tf.reduce_mean] of a vector *)
Definition reduce_mean (v : list R) : R := rsum v / INR (length v).

(** [(sim - BIG_NUMBER*eye)/temperature]: the large number is subtracted
    from the diagonal, and all is rescaled by the temperature. *)
Definition masked_logits (temperature : R) (n : nat) (sim : Mat) : Mat :=
  let eye_n := eye n in
  mat_div (mat_sub sim (mat_scale BIG_NUMBER eye_n)) temperature.

(** The logits of [training_step], from the embeddings; [n] is
    [x.shape[0]]. *)
Definition simclr_logits (temperature : R) (n : nat) (embeddings : Mat) : Mat :=
  let embeds_norm := l2_normalize embeddings in
  let sim := matmul_transpose_b embeds_norm embeds_norm in
  masked_logits temperature n sim.

(** The body of [training_step] under the gradient tape: the loss as a
    function of the embeddings of the batch.  [n] is [x.shape[0]]. *)
Definition simclr_loss (temperature replicas : R) (n : nat) (y : list Z)
    (embeddings : Mat) : Result R :=
  let index := tf_range n in
  if negb (length index =? length y)%nat
  then Raise (InvalidArgumentError "Incompatible shapes")
  else
    let labels := zip_with Z.add index y in
    let logits := simclr_logits temperature n embeddings in
    ce ← sparse_softmax_cross_entropy_with_logits labels logits;
    Ok (reduce_mean ce / replicas).

(** *** The code's loss, entry by entry

    The matrix program above written out per entry, with the code's own
    [l2_normalize_row], [dot] and [BIG_NUMBER]: an intermediate form for
    the proofs, not a specification. *)

Module Entrywise.

(** Entry [(i, j)] of the cosine similarity matrix. *)
Definition cosine (embeddings : Mat) (i j : nat) : R :=
  dot (l2_normalize_row (nth i embeddings []))
      (l2_normalize_row (nth j embeddings [])).

(** The large constant is subtracted on the diagonal only; every entry
    is then divided by the temperature. *)
Definition logit (temperature : R) (embeddings : Mat) (i j : nat) : R :=
  if (i =? j)%nat
  then (cosine embeddings i j - BIG_NUMBER) / temperature
  else cosine embeddings i j / temperature.

(** Softmax cross-entropy of row [i] against the class [t], over the
    [n] classes of the row. *)
Definition row_loss (temperature : R) (embeddings : Mat) (n i t : nat) : R :=
  ln (rsum (map (fun j => exp (logit temperature embeddings i j)) (seq 0 n)))
  - logit temperature embeddings i t.

(** Target class of row [i]: [i + label[i]]. *)
Definition target (y : list Z) (i : nat) : nat :=
  Z.to_nat (Z.of_nat i + nth i y 0%Z).

(** Mean over all rows, divided by the replica count. *)
Definition loss (temperature replicas : R) (y : list Z) (embeddings : Mat) : R :=
  let n := length embeddings in
  rsum (map (fun i => row_loss temperature embeddings n i (target y i)) (seq 0 n))
  / INR n / replicas.

End Entrywise.

(** *** The loss in the words of the specification

    The normalized temperature-scaled cross entropy as the specification
    describes it, in mathematical terms only: nothing here refers to a
    definition of the code above. *)

Module NTXent.

Fixpoint total (v : list R) : R :=
  match v with
  | [] => 0
  | a :: v' => a + total v'
  end.

(** The inner product of two vectors. *)
Fixpoint inner (u v : list R) : R :=
  match u, v with
  | a :: u', b :: v' => a * b + inner u' v'
  | _, _ => 0
  end.

(** The Euclidean norm. *)
Definition norm (v : list R) : R := sqrt (inner v v).

(** Step 2: L2-normalize each embedding vector. *)
Definition normalize (v : list R) : list R := map (fun a => a / norm v) v.

(** Step 3: the pairwise cosine similarities, dot products of the
    normalized vectors. *)
Definition similarity (embeddings : list (list R)) (i j : nat) : R :=
  inner (normalize (nth i embeddings [])) (normalize (nth j embeddings [])).

(** Step 4: a large constant is subtracted on the diagonal only. *)
Definition large_constant : R := 1000.

Definition masked (embeddings : list (list R)) (i j : nat) : R :=
  if (i =? j)%nat
  then similarity embeddings i j - large_constant
  else similarity embeddings i j.

(** Step 5: the masked matrix is divided by the temperature. *)
Definition logit (τ : R) (embeddings : list (list R)) (i j : nat) : R :=
  masked embeddings i j / τ.

(** Step 6: the softmax of row [i] over its [n] classes, at class [t],
    and the cross entropy against the target class [t]. *)
Definition softmax (τ : R) (embeddings : list (list R)) (n i t : nat) : R :=
  exp (logit τ embeddings i t)
  / total (map (fun j => exp (logit τ embeddings i j)) (seq 0 n)).

Definition cross_entropy (τ : R) (embeddings : list (list R)) (n i t : nat) : R :=
  - ln (softmax τ embeddings n i t).

(** The target class of row [i] is [i + label[i]]. *)
Definition target (y : list Z) (i : nat) : nat :=
  Z.to_nat (Z.of_nat i + nth i y 0%Z).

(** Step 7: the mean over all rows, divided by the replica count. *)
Definition loss (τ replicas : R) (y : list Z) (embeddings : list (list R)) : R :=
  let n := length embeddings in
  total (map (fun i => cross_entropy τ embeddings n i (target y i)) (seq 0 n))
  / INR n / replicas.

End NTXent.

Local Close Scope R_scope.

(** ** simclr.py: the pair-batch dataset

    A [tf.data] pipeline is re-iterable: every pass over it re-runs the
    mapped function, so the stochastic augmentation draws fresh randomness.
    A dataset of [A] is a function from the generator state to the elements
    of one pass and the generator state after it. *)

(** The types of the external collaborators: the state of the random
    generator behind the augmentation, a fully-convolutional Keras network
    handed in by the caller, the values of all trainable variables of the
    embedding model (the encoder's variables are shared with the [fcn]
    object), the optimizer's slots, the datasets of the repository's loader
    and scikit-learn's fitted classifier. *)
Class Types : Type := {
  Rng : Type;
  Fcn : Type;
  Weights : Type;
  OptState : Type;
  LoaderDS : Type;
  Classifier : Type
}.

Section Trainers.

Context `{Ty : Types}.

Definition DS (A : Type) : Type := Rng -> list A * Rng.

Definition Batch : Type := (list Image * list Z)%type.

Inductive Layer : Type :=
| LInput (h w c : PyVal)
| LApply (f : Fcn)
| LFlatten
| LDense (units : Z) (activation : option string).

Definition KerasModel : Type := list Layer.

Inductive LearnRate : Type :=
| ConstantRate (lr : R)
| ExponentialDecay (lr : R) (decay_steps : Z) (decay_rate : R)
                   (staircase : bool).

Definition FeatureMap : Type := list (list (list R)).

(** The operations of the external collaborators. *)
Class Collaborators : Type := {
  (** [augment_function(imshape, augment)] of the [augment] module: the
      stochastic image-to-image function it returns. *)
  augment_function : PyVal -> PyVal -> Image -> Rng -> Image * Rng;
  ResNet50V2 : Fcn;
  (** Initial variables of a freshly built model. *)
  keras_init : KerasModel -> Weights;
  (** [model(x, training=True)] *)
  keras_call : KerasModel -> Weights -> list Image -> Mat;
  Adam : LearnRate -> OptState;
  (** [tape.gradient] followed by [optimizer.apply_gradients]: one update
      of the variables along the gradient of the loss, given as a
      function of the variables. *)
  apply_gradients :
    (Weights -> R) -> OptState * Weights -> OptState * Weights;
  (** [util.dataset], the loader of the repository. *)
  dataset : list Image -> bool -> gmap string PyVal -> LoaderDS * nat;
  (** [fcn.predict(ds, steps=num_steps)] *)
  keras_predict : Fcn -> Weights -> LoaderDS -> nat -> list FeatureMap;
  (** [sklearn.linear_model.LogisticRegression(random_state=0,
      max_iter=2000, solver='lbfgs', C=1.0)] *)
  LogisticRegression_fit : Mat -> list Z -> Classifier;
  LogisticRegression_predict : Classifier -> Mat -> list Z;
  (** [cifar10.load_data()]: raw pixel values and one-column label
      arrays of the train and of the test split. *)
  cifar10_load_data :
    (list (list Z) * list (list Z)) * (list (list Z) * list (list Z))
}.

Context `{Co : Collaborators}.

Definition from_tensor_slices {A} (l : list A) : DS A :=
  fun g => (l, g).

(** [ds.map(f)] threads the generator through the elements in order
    (the element order does not depend on [num_parallel_calls]). *)
Fixpoint map_elems {A B} (f : A -> Rng -> B * Rng) (l : list A) (g : Rng)
  : list B * Rng :=
  match l with
  | [] => ([], g)
  | x :: l' =>
      let '(y, g1) := f x g in
      let '(ys, g2) := map_elems f l' g1 in
      (y :: ys, g2)
  end.

Definition ds_map {A B} (f : A -> Rng -> B * Rng) (ds : DS A) : DS B :=
  fun g => let '(l, g1) := ds g in map_elems f l g1.

(** [ds.unbatch()] on elements that are a pair of tensors: split both
    along the first axis. *)
Definition ds_unbatch {A B} (ds : DS (list A * list B)) : DS (A * B) :=
  fun g => let '(l, g1) := ds g in
           (concat (map (fun e => zip (fst e) (snd e)) l), g1).

(** Consecutive groups of [n] elements; a short last group is dropped
    ([drop_remainder=True]).  [fuel] bounds the number of groups. *)
Fixpoint chunks {A} (fuel n : nat) (l : list A) : list (list A) :=
  match fuel with
  | O => []
  | S fuel' =>
      if (n <=? length l)%nat
      then take n l :: chunks fuel' n (drop n l)
      else []
  end.

(** [ds.batch(n, drop_remainder=True)]: each batch stacks the components
    of its elements. *)
Definition ds_batch {A B} (n : nat) (ds : DS (A * B)) : DS (list A * list B) :=
  fun g => let '(l, g1) := ds g in
           (map (fun c => (map fst c, map snd c)) (chunks (length l) n l), g1).

Definition ds_prefetch {A} (k : nat) (ds : DS A) : DS A := ds.

(** The nested [_augment_and_stack(x)]. *)
Definition _augment_and_stack (_aug : Image -> Rng -> Image * Rng)
    (x : Image) (g : Rng) : (list Image * list Z) * Rng :=
  let y := [1; -1]%Z in
  let '(a, g1) := _aug x g in
  let '(b, g2) := _aug x g1 in
  (([a; b], y), g2).

Definition _build_simclr_dataset (train_data : list Image)
    (imshape : PyVal) (batch_size : Z) (num_parallel_calls : PyVal)
    (norm : PyVal) (num_channels : PyVal) (augment : PyVal)
    (single_channel : PyVal) : Result (DS Batch) :=
  _ ← assert (truthy augment) "don't you need to augment your data?";
  let _aug := augment_function imshape augment in
  let ds := from_tensor_slices train_data in
  let ds := ds_map (_augment_and_stack _aug) ds in
  let ds := ds_unbatch ds in
  (* tf.data rejects a batch size that is not positive *)
  if (2 * batch_size <=? 0)%Z
  then Raise (InvalidArgumentError "Batch size must be greater than zero.")
  else
    let ds := ds_batch (Z.to_nat (2 * batch_size)) ds in
    let ds := ds_prefetch 1 ds in
    Ok ds.


(** ** Keras models, the optimizer and the sinks *)

(** The caller's [fcn] argument. *)
Inductive FcnArg : Type :=
| FcnNone
| FcnStr (s : string)
| FcnModel (f : Fcn).

Inductive Event : Type :=
| EvFileWriter (logdir : string)
| EvPrint (step : Z) (loss : R)
| EvScalar (name : string) (value : R) (step : Z)
| EvImage (name : string) (image : list (list (list (list R)))) (step : Z)
| EvModelSave (path : string) (model : KerasModel) (w : Weights)
| EvYamlDump (path : string) (d : list (string * PyVal))
| EvHParamsConfig (hparams : list string) (metric : string)
| EvHParams (values : list (string * PyVal))
| EvConsole (line : string) (value : R).

(** [os.path.join(a, b)] for a relative [b]. *)
Definition path_join (a b : string) : string :=
  if String.eqb a "" then b
  else if String.eqb (String.substring (String.length a - 1) 1 a) "/"
       then a +:+ b
       else a +:+ "/" +:+ b.

(** What lives outside the trainer object: the variables of the Keras
    models, the optimizer slots, the random generator and everything
    written to the console, the metric sink and the disk, oldest first. *)
Record World : Type := mkWorld {
  weights : Weights;
  opt_state : OptState;
  rng : Rng;
  events : list Event
}.

Definition emit (e : Event) (w : World) : World :=
  mkWorld (weights w) (opt_state w) (rng w) (events w ++ [e])%list.

(** The attributes of a [SimCLRTrainer] object. *)
Record Trainer : Type := mkTrainer {
  logdir : string;
  trainingdata : PyVal;
  train_data : list Image;
  test_data : list Image;
  _downstream_train_labels : list Z;
  _downstream_test_labels : list Z;
  fcn : Fcn;
  _models : list (string * KerasModel);
  _ds : DS Batch;
  (* the closure [_training_step] captures the embedding model, the
     temperature and the replica count *)
  _training_step_model : KerasModel;
  _training_step_temperature : R;
  _training_step_replicas : R;
  _test : PyVal;
  _test_labels : PyVal;
  _old_test_labels : PyVal;
  step : Z;
  configs : Configs;
  _hparams_config : option (list string)
}.

Definition set_step (z : Z) (t : Trainer) : Trainer :=
  mkTrainer (logdir t) (trainingdata t) (train_data t) (test_data t)
    (_downstream_train_labels t) (_downstream_test_labels t) (fcn t)
    (_models t) (_ds t) (_training_step_model t)
    (_training_step_temperature t) (_training_step_replicas t)
    (_test t) (_test_labels t) (_old_test_labels t) z (configs t)
    (_hparams_config t).

Definition set_hparams_config (h : option (list string)) (t : Trainer)
  : Trainer :=
  mkTrainer (logdir t) (trainingdata t) (train_data t) (test_data t)
    (_downstream_train_labels t) (_downstream_test_labels t) (fcn t)
    (_models t) (_ds t) (_training_step_model t)
    (_training_step_temperature t) (_training_step_replicas t)
    (_test t) (_test_labels t) (_old_test_labels t) (step t) (configs t) h.

Definition set_trainingdata (v : PyVal) (t : Trainer) : Trainer :=
  mkTrainer (logdir t) v (train_data t) (test_data t)
    (_downstream_train_labels t) (_downstream_test_labels t) (fcn t)
    (_models t) (_ds t) (_training_step_model t)
    (_training_step_temperature t) (_training_step_replicas t)
    (_test t) (_test_labels t) (_old_test_labels t) (step t) (configs t)
    (_hparams_config t).

(** ** generic.py: the linear classification test *)

Local Open Scope R_scope.

(** [a.mean(axis=0)] of a stack of vectors, and of a stack of matrices. *)
Definition vec_add (u v : list R) : list R := zip_with Rplus u v.
Definition vec_sum (vs : list (list R)) : list R :=
  match vs with
  | [] => []
  | v :: vs' => foldl vec_add v vs'
  end.
Definition vec_mean (vs : list (list R)) : list R :=
  map (fun a => a / INR (length vs)) (vec_sum vs).
Definition mat_sum (ms : list Mat) : Mat :=
  match ms with
  | [] => []
  | m :: ms' => foldl (zip_with vec_add) m ms'
  end.
Definition mat_mean (ms : list Mat) : Mat :=
  map (map (fun a => a / INR (length ms))) (mat_sum ms).

(** [features.mean(axis=1).mean(axis=1)]: spatial average pooling of a
    batch of feature maps of shape (n, h, w, c). *)
Definition average_pool (features : list FeatureMap) : Mat :=
  map vec_mean (map mat_mean features).

(** [sklearn.preprocessing.StandardScaler] with its defaults. *)
Record StandardScaler : Type := mkScaler {
  mean_ : list R;
  scale_ : list R
}.

Definition column (j : nat) (X : Mat) : list R :=
  map (fun row => nth j row 0) X.
Definition mean (v : list R) : R := rsum v / INR (length v).
Definition variance (v : list R) : R :=
  mean (map (fun a => (a - mean v) * (a - mean v)) v).
(** A feature of zero variance is left unscaled. *)
Definition handle_zeros_in_scale (s : R) : R :=
  if Req_dec_T s 0 then 1 else s.

Definition StandardScaler_fit (X : Mat) : StandardScaler :=
  let d := length (hd [] X) in
  mkScaler (map (fun j => mean (column j X)) (seq 0 d))
           (map (fun j => handle_zeros_in_scale (sqrt (variance (column j X))))
                (seq 0 d)).

Definition StandardScaler_transform (sc : StandardScaler) (X : Mat) : Mat :=
  map (fun row =>
         zip_with (fun a ms => (a - fst ms) / snd ms) row
                  (zip (mean_ sc) (scale_ sc))) X.

(** [sklearn.metrics]: the classes are the sorted distinct labels that
    occur in either argument. *)
Definition unique_labels (ys : list Z) : list Z :=
  match ys with
  | [] => []
  | y0 :: _ =>
      let lo := foldr Z.min y0 ys in
      let hi := foldr Z.max y0 ys in
      filter (fun l => l ∈ ys) (seqZ lo (hi - lo + 1))
  end.

Definition count_pairs (t p : Z) (pairs : list (Z * Z)) : nat :=
  length (filter (fun tp => tp = (t, p)) pairs).

Definition confusion_matrix (y_true y_pred : list Z)
  : Result (list (list nat)) :=
  if negb (length y_true =? length y_pred)%nat
  then Raise (ValueError "Found input variables with inconsistent numbers of samples")
  else
    let labels := unique_labels (y_true ++ y_pred) in
    let pairs := zip y_true y_pred in
    Ok (map (fun t => map (fun p => count_pairs t p pairs) labels) labels).

Definition accuracy_score (y_true y_pred : list Z) : Result R :=
  if negb (length y_true =? length y_pred)%nat
  then Raise (ValueError "Found input variables with inconsistent numbers of samples")
  else
    Ok (INR (length (filter (fun tp => fst tp = snd tp) (zip y_true y_pred)))
        / INR (length y_true)).

(** The local variables of [linear_classification_test] when it returns. *)
Record ProbeFrame : Type := mkProbeFrame {
  probe_scaler : StandardScaler;
  probe_trainvecs : Mat;
  probe_testvecs : Mat;
  probe_logreg : Classifier;
  probe_preds : list Z;
  probe_acc : R;
  probe_cm : list (list nat)
}.

Definition linear_classification_test_frame (f : Fcn) (ws : Weights)
    (train_data : list Image) (train_labels : list Z)
    (test_data : list Image) (test_labels : list Z)
    (input_config : gmap string PyVal) : Result ProbeFrame :=
  let '(ds, num_steps) := dataset train_data false input_config in
  let trainvecs := average_pool (keras_predict f ws ds num_steps) in
  let '(ds, num_steps) := dataset test_data false input_config in
  let testvecs := average_pool (keras_predict f ws ds num_steps) in
  let scaler := StandardScaler_fit trainvecs in
  let trainvecs := StandardScaler_transform scaler trainvecs in
  let testvecs := StandardScaler_transform scaler testvecs in
  let logreg := LogisticRegression_fit trainvecs train_labels in
  let preds := LogisticRegression_predict logreg testvecs in
  acc ← accuracy_score test_labels preds;
  cm ← confusion_matrix test_labels preds;
  Ok (mkProbeFrame scaler trainvecs testvecs logreg preds acc cm).

Definition linear_classification_test (f : Fcn) (ws : Weights)
    (train_data : list Image) (train_labels : list Z)
    (test_data : list Image) (test_labels : list Z)
    (input_config : gmap string PyVal) : Result (R * list (list nat)) :=
  fr ← linear_classification_test_frame f ws train_data train_labels
         test_data test_labels input_config;
  Ok (probe_acc fr, probe_cm fr).

(** [conf_mat.max()] *)
Definition cm_max (cm : list (list nat)) : Result nat :=
  match concat cm with
  | [] => Raise (ValueError "zero-size array to reduction operation maximum")
  | c :: cs => Ok (foldr Nat.max c cs)
  end.

(** [np.expand_dims(np.expand_dims(conf_mat, 0), -1) / conf_mat.max()] *)
Definition normalized_confusion_image (cm : list (list nat))
  : Result (list (list (list (list R)))) :=
  m ← cm_max cm;
  Ok [map (map (fun c => [INR c / INR m])) cm].

Local Close Scope R_scope.

(** ** generic.py: methods of [GenericExtractor] *)

Definition St : Type := (Trainer * World)%type.

(** [_record_scalars(name=value)] *)
Definition _record_scalars (name : string) (value : R) (st : St) : St :=
  (st.1, emit (EvScalar name value (step st.1)) st.2).

(** [_record_images(name=image)] *)
Definition _record_images (name : string)
    (image : list (list (list (list R)))) (st : St) : St :=
  (st.1, emit (EvImage name image (step st.1)) st.2).

(** [save]: every model of [_models] is written under the log
    directory, over any earlier copy. *)
Definition save (st : St) : St :=
  foldl (fun st' m =>
           let path := path_join (logdir st'.1) (m.1 +:+ ".h5") in
           (st'.1, emit (EvModelSave path m.2 (weights st'.2)) st'.2))
        st (_models st.1).

(** The placeholder methods of the base class. *)
Definition GenericExtractor_run_training_epoch (st : St) : Result St := Ok st.
Definition GenericExtractor_evaluate (st : St) : Result St := Ok st.

(** [fit], over the methods a subclass replaces.  The source has the
    call of [evaluate] commented out:
    [#if evaluate:]
    [#    self.evaluate()] *)
Fixpoint fit_loop (_run_training_epoch evaluate_method : St -> Result St)
    (n : nat) (save_flag evaluate : bool) (st : St) : Result St :=
  match n with
  | O => Ok st
  | S n' =>
      st1 ← _run_training_epoch st;
      let st2 := if save_flag then save st1 else st1 in
      fit_loop _run_training_epoch evaluate_method n' save_flag evaluate st2
  end.

Definition fit (_run_training_epoch evaluate_method : St -> Result St)
    (epochs : Z) (save_flag evaluate : bool) (st : St) : Result St :=
  fit_loop _run_training_epoch evaluate_method (Z.to_nat epochs)
           save_flag evaluate st.

(** [_linear_classification_test(params)]; [params] is [None] or the
    hyperparameters to register. *)
Definition _linear_classification_test
    (params : option (list (string * PyVal))) (st : St) : Result St :=
  let t := st.1 in
  '(acc, conf_mat) ← linear_classification_test (fcn t) (weights st.2)
      (train_data t) (_downstream_train_labels t)
      (test_data t) (_downstream_test_labels t)
      (input_config (configs t));
  conf_mat ← normalized_confusion_image conf_mat;
  let st := _record_scalars "linear_classification_accuracy" acc st in
  let st := _record_images "linear_classification_confusion_matrix" conf_mat st in
  match params with
  | None => Ok st
  | Some ps =>
      match _hparams_config st.1 with
      | Some _ => Ok st
      | None =>
          let names := map fst ps in
          let st := (set_hparams_config (Some names) st.1,
                     emit (EvHParamsConfig names "linear_classification_accuracy") st.2) in
          Ok (st.1, emit (EvHParams ps) st.2)
      end
  end.

(** ** simclr.py: the trainer *)

(** [_build_embedding_model]: the encoder followed by the projection
    head. *)
Definition _build_embedding_model (f : Fcn) (imshape : PyVal * PyVal)
    (num_channels : PyVal) (num_hidden output_dim : Z) : KerasModel :=
  [LInput imshape.1 imshape.2 num_channels;
   LApply f;
   LFlatten;
   LDense num_hidden (Some "relu");
   LDense output_dim None].

Definition loss_or_zero (r : Result R) : R :=
  match r with
  | Ok l => l
  | Raise _ => 0%R
  end.

(** [_build_simclr_training_step(embed_model, optimizer, temperature,
    replicas)] returns this function of a batch. *)
Definition training_step (embed_model : KerasModel)
    (temperature replicas : R) (x : list Image) (y : list Z) (w : World)
  : Result (R * World) :=
  let loss_of := fun ws =>
    simclr_loss temperature replicas (length x) y (keras_call embed_model ws x) in
  loss ← loss_of (weights w);
  let '(o, ws) := apply_gradients (fun ws => loss_or_zero (loss_of ws))
                                  (opt_state w, weights w) in
  Ok (loss, mkWorld ws o (rng w) (events w)).

Definition _build_simclr_training_step (embed_model : KerasModel)
    (temperature replicas : R)
  : list Image -> list Z -> World -> Result (R * World) :=
  training_step embed_model temperature replicas.

(** The body of the loop of [_run_training_epoch], for one batch. *)
Definition _run_training_batch (st : St) (b : Batch) : Result St :=
  let t := st.1 in
  '(loss, w) ← _build_simclr_training_step (_training_step_model t)
      (_training_step_temperature t) (_training_step_replicas t)
      b.1 b.2 st.2;
  let w := if (step t mod 100 =? 0)%Z then emit (EvPrint (step t) loss) w else w in
  let st := _record_scalars "loss" loss (t, w) in
  Ok (set_step (step st.1 + 1) st.1, st.2).

Fixpoint run_batches (bs : list Batch) (st : St) : Result St :=
  match bs with
  | [] => Ok st
  | b :: bs' => st1 ← _run_training_batch st b; run_batches bs' st1
  end.

(** [for x, y in self._ds: ...]: one pass over the dataset. *)
Definition _run_training_epoch (st : St) : Result St :=
  let '(batches, g) := _ds st.1 (rng st.2) in
  let w := st.2 in
  run_batches batches
    (st.1, mkWorld (weights w) (opt_state w) g (events w)).

Definition lookup_config (key : string) (t : Trainer) : Result PyVal :=
  match config (configs t) !! key with
  | Some v => Ok v
  | None => Raise (KeyError key)
  end.

(** [SimCLRTrainer.evaluate] *)
Definition evaluate (st : St) : Result St :=
  match _hparams_config st.1 with
  | None =>
      a ← lookup_config "temperature" st.1;
      b ← lookup_config "num_hidden" st.1;
      c ← lookup_config "output_dim" st.1;
      _linear_classification_test
        (Some [("temperature", a); ("num_hidden", b); ("output_dim", c)]) st
  | Some _ => _linear_classification_test None st
  end.

(** [fit] as inherited by [SimCLRTrainer]. *)
Definition SimCLRTrainer_fit := fit _run_training_epoch evaluate.

(** [(data / 255.0).astype(np.float32)] *)
Definition rescale (data : list (list Z)) : list Image :=
  map (map (fun p => (IZR p / 255)%R)) data.

(** [labels.ravel()] *)
Definition ravel (labels : list (list Z)) : list Z := concat labels.

(** [SimCLRTrainer.__init__]; [g] is the state of the random generator
    when the trainer is built. *)
Definition SimCLRTrainer_init (logdir : string) (trainingdata : PyVal)
    (testdata : PyVal) (fcn : FcnArg) (augment : PyVal) (temperature : R)
    (num_hidden output_dim : Z) (lr : R) (lr_decay : Z)
    (imshape : PyVal * PyVal) (num_channels : PyVal) (norm : PyVal)
    (batch_size : Z) (num_parallel_calls : PyVal) (single_channel : PyVal)
    (notes : PyVal) (downstream_labels : PyVal) (g : Rng) : Result St :=
  _ ← assert (negb (is_False augment)) "this method needs an augmentation scheme";
  let '((train_data, train_labels), (test_data, test_labels)) :=
    cifar10_load_data in
  let train_data := rescale train_data in
  let test_data := rescale test_data in
  let _downstream_train_labels := ravel train_labels in
  let _downstream_test_labels := ravel test_labels in
  let events := [EvFileWriter logdir] in
  (* if no FCN is passed- build one *)
  let fcn := match fcn with
             | FcnStr "ResNet50" => FcnModel ResNet50V2
             | _ => fcn
             end in
  f ← match fcn with
      | FcnModel f => Ok f
      | FcnNone => Raise (TypeError "'NoneType' object is not callable")
      | FcnStr _ => Raise (TypeError "'str' object is not callable")
      end;
  let embed_model :=
    _build_embedding_model f imshape num_channels num_hidden output_dim in
  let _models := [("fcn", [LApply f]); ("full", embed_model)] in
  (* build training dataset *)
  _ds ← (_build_simclr_dataset train_data
           (PyTuple [imshape.1; imshape.2]) batch_size num_parallel_calls
           norm num_channels augment single_channel : Result (DS Batch));
  (* create optimizer *)
  let learnrate :=
    if (0 <? lr_decay)%Z
    then ExponentialDecay lr lr_decay (1 / 2)%R false
    else ConstantRate lr in
  let _optimizer := Adam learnrate in
  (* parse and write out config YAML *)
  let cfg := _parse_configs
    [("augment", augment); ("temperature", PyFloat temperature);
     ("num_hidden", PyInt num_hidden); ("output_dim", PyInt output_dim);
     ("lr", PyFloat lr); ("lr_decay", PyInt lr_decay);
     ("imshape", PyTuple [imshape.1; imshape.2]);
     ("num_channels", num_channels); ("norm", norm);
     ("batch_size", PyInt batch_size);
     ("num_parallel_calls", num_parallel_calls);
     ("single_channel", single_channel); ("notes", notes)] in
  let events :=
    (events ++ [EvYamlDump (path_join logdir "config.yml") (config_dict cfg)])%list in
  Ok (mkTrainer logdir trainingdata train_data test_data
        _downstream_train_labels _downstream_test_labels f _models _ds
        embed_model temperature 1%R
        (PyBool false) PyNone PyNone 0%Z cfg None,
      mkWorld (keras_init embed_model) _optimizer g events).

(** ** Properties of the constructor and of the dataset builder *)

Lemma assert_false msg : assert false msg = Raise (AssertionError msg).
Proof. reflexivity. Qed.

Lemma SimCLRTrainer_init_augment_False ld td testdata fcn
    temperature num_hidden output_dim lr lr_decay imshape num_channels norm
    batch_size num_parallel_calls single_channel notes downstream_labels g :
  SimCLRTrainer_init ld td testdata fcn (PyBool false)
    temperature num_hidden output_dim lr lr_decay imshape num_channels norm
    batch_size num_parallel_calls single_channel notes downstream_labels g
  = Raise (AssertionError "this method needs an augmentation scheme").
Proof. reflexivity. Qed.

Lemma _build_simclr_dataset_falsy train_data imshape batch_size
    num_parallel_calls norm num_channels augment single_channel :
  truthy augment = false →
  _build_simclr_dataset train_data imshape batch_size num_parallel_calls
    norm num_channels augment single_channel
  = Raise (AssertionError "don't you need to augment your data?").
Proof. intros H. unfold _build_simclr_dataset. by rewrite H. Qed.

Lemma SimCLRTrainer_init_falsy ld td testdata fcn augment
    temperature num_hidden output_dim lr lr_decay imshape num_channels norm
    batch_size num_parallel_calls single_channel notes downstream_labels g :
  truthy augment = false →
  ∃ e, SimCLRTrainer_init ld td testdata fcn augment
         temperature num_hidden output_dim lr lr_decay imshape num_channels
         norm batch_size num_parallel_calls single_channel notes
         downstream_labels g = Raise e.
Proof.
  intros H. unfold SimCLRTrainer_init.
  destruct (assert _ _) as [[]|e]; simpl; [|by eexists].
  destruct cifar10_load_data as [[trd trl] [ted tel]].
  destruct (match fcn with FcnStr "ResNet50" => _ | _ => _ end) as [|s|f];
    simpl; try by eexists.
  rewrite _build_simclr_dataset_falsy by done. by eexists.
Qed.

(** The constructor succeeds whenever an augmentation scheme, a Keras
    encoder and a positive batch size are given, whatever the
    temperature. *)
Lemma SimCLRTrainer_init_ok ld td testdata f augment
    temperature num_hidden output_dim lr lr_decay imshape num_channels norm
    batch_size num_parallel_calls single_channel notes downstream_labels g :
  truthy augment = true → (0 < batch_size)%Z →
  ∃ st, SimCLRTrainer_init ld td testdata (FcnModel f) augment
          temperature num_hidden output_dim lr lr_decay imshape num_channels
          norm batch_size num_parallel_calls single_channel notes
          downstream_labels g = Ok st
        ∧ _training_step_temperature st.1 = temperature
        ∧ _training_step_replicas st.1 = 1%R
        ∧ trainingdata st.1 = td
        ∧ step st.1 = 0%Z
        ∧ rng st.2 = g.
Proof.
  intros Ht Hb. unfold SimCLRTrainer_init.
  assert (Hf : is_False augment = false) by (by destruct augment as [| [] | | | | |]).
  rewrite Hf. simpl.
  destruct cifar10_load_data as [[trd trl] [ted tel]]. simpl.
  unfold _build_simclr_dataset. rewrite Ht. simpl.
  destruct (Z.leb_spec (2 * batch_size) 0); [lia|]. simpl.
  eexists. split; [reflexivity|]. done.
Qed.

(** C4. Without an augmentation scheme no batch is ever built: the
    dataset builder raises its assertion for every falsy [augment], the
    constructor then returns no trainer, and for [augment=False] both
    stop at their first statement with an [AssertionError]. *)
Theorem augmentation_disabled_fails_fast ld td testdata fcn augment
    temperature num_hidden output_dim lr lr_decay imshape num_channels norm
    batch_size num_parallel_calls single_channel notes downstream_labels g
    train_data imshape' :
  truthy augment = false →
  _build_simclr_dataset train_data imshape' batch_size num_parallel_calls
      norm num_channels augment single_channel
    = Raise (AssertionError "don't you need to augment your data?")
  ∧ (∃ e, SimCLRTrainer_init ld td testdata fcn augment
            temperature num_hidden output_dim lr lr_decay imshape
            num_channels norm batch_size num_parallel_calls single_channel
            notes downstream_labels g = Raise e)
  ∧ _build_simclr_dataset train_data imshape' batch_size num_parallel_calls
      norm num_channels (PyBool false) single_channel
    = Raise (AssertionError "don't you need to augment your data?")
  ∧ SimCLRTrainer_init ld td testdata fcn (PyBool false)
      temperature num_hidden output_dim lr lr_decay imshape
      num_channels norm batch_size num_parallel_calls single_channel
      notes downstream_labels g
    = Raise (AssertionError "this method needs an augmentation scheme").
Proof.
  intros H. repeat split.
  - by apply _build_simclr_dataset_falsy.
  - by apply SimCLRTrainer_init_falsy.
Qed.

(** C5, as the code has it.  The temperature is never validated: for
    every temperature, positive or not, the constructor (given an
    augmentation scheme, an encoder and a positive batch size) returns a
    trainer, and the training step of that trainer is the step built for
    exactly this temperature, which divides the masked similarities by
    it. *)
Theorem temperature_not_validated ld td testdata f augment
    (temperature : R) num_hidden output_dim lr lr_decay imshape
    num_channels norm batch_size num_parallel_calls single_channel notes
    downstream_labels g :
  truthy augment = true → (0 < batch_size)%Z →
  ∃ st, SimCLRTrainer_init ld td testdata (FcnModel f) augment
          temperature num_hidden output_dim lr lr_decay imshape num_channels
          norm batch_size num_parallel_calls single_channel notes
          downstream_labels g = Ok st
        ∧ _training_step_temperature st.1 = temperature
        ∧ (∀ x y w,
             _build_simclr_training_step (_training_step_model st.1)
               (_training_step_temperature st.1) (_training_step_replicas st.1)
               x y w
             = training_step (_training_step_model st.1) temperature 1%R x y w)
        ∧ (∀ n e,
             simclr_logits temperature n e
             = mat_div (mat_sub (matmul_transpose_b (l2_normalize e) (l2_normalize e))
                                (mat_scale BIG_NUMBER (eye n))) temperature).
Proof.
  intros Ht Hb.
  destruct (SimCLRTrainer_init_ok ld td testdata f augment temperature
              num_hidden output_dim lr lr_decay imshape num_channels norm
              batch_size num_parallel_calls single_channel notes
              downstream_labels g Ht Hb) as (st & Hst & Htemp & Hrep & _).
  exists st. split; [done|]. split; [done|]. split.
  - intros x y w. unfold _build_simclr_training_step. by rewrite Htemp, Hrep.
  - done.
Qed.


(** ** Properties of [fit] *)

Definition result_map {A B} (f : A -> B) (r : Result A) : Result B :=
  match r with
  | Ok a => Ok (f a)
  | Raise e => Raise e
  end.

(** Neither the flag [evaluate] nor the method [evaluate] is consulted. *)
Lemma fit_loop_ignores_evaluate run ev1 ev2 n save_flag e1 e2 st :
  fit_loop run ev1 n save_flag e1 st = fit_loop run ev2 n save_flag e2 st.
Proof.
  revert st. induction n as [|n IH]; intros st; simpl; [done|].
  destruct (run st) as [st1|e]; simpl; [apply IH | done].
Qed.

(** C7, on the code.  [fit] gives the same result with [evaluate=True]
    as with [evaluate=False], and with any [evaluate] method: the call is
    commented out, so no evaluation is run after an epoch. *)
Theorem fit_never_evaluates run ev1 ev2 epochs save_flag st :
  fit run ev1 epochs save_flag true st = fit run ev2 epochs save_flag false st.
Proof. apply fit_loop_ignores_evaluate. Qed.

(** *** The [trainingdata] argument *)

Definition with_trainingdata (v : PyVal) (st : St) : St :=
  (set_trainingdata v st.1, st.2).

Lemma _run_training_batch_trainingdata v st b :
  _run_training_batch (with_trainingdata v st) b
  = result_map (with_trainingdata v) (_run_training_batch st b).
Proof.
  destruct st as [t w]. unfold _run_training_batch. simpl.
  destruct (_build_simclr_training_step _ _ _ _ _ _) as [[l w']|e]; simpl; done.
Qed.

Lemma run_batches_trainingdata v bs st :
  run_batches bs (with_trainingdata v st)
  = result_map (with_trainingdata v) (run_batches bs st).
Proof.
  revert st. induction bs as [|b bs IH]; intros st; simpl; [done|].
  rewrite _run_training_batch_trainingdata.
  destruct (_run_training_batch st b) as [st1|e]; simpl; [apply IH | done].
Qed.

Lemma _run_training_epoch_trainingdata v st :
  _run_training_epoch (with_trainingdata v st)
  = result_map (with_trainingdata v) (_run_training_epoch st).
Proof.
  destruct st as [t w]. unfold _run_training_epoch. simpl.
  destruct (_ds t (rng w)) as [bs g].
  apply (run_batches_trainingdata v bs (t, _)).
Qed.

Lemma save_trainingdata v st :
  save (with_trainingdata v st) = with_trainingdata v (save st).
Proof.
  destruct st as [t w]. unfold save. simpl.
  generalize (_models t) as ms. intros ms. revert t w.
  induction ms as [|m ms IH]; intros t w; simpl; [done|].
  apply (IH t).
Qed.

Lemma fit_loop_trainingdata v ev n save_flag e st :
  fit_loop _run_training_epoch ev n save_flag e (with_trainingdata v st)
  = result_map (with_trainingdata v)
      (fit_loop _run_training_epoch ev n save_flag e st).
Proof.
  revert st. induction n as [|n IH]; intros st; simpl; [done|].
  rewrite _run_training_epoch_trainingdata.
  destruct (_run_training_epoch st) as [st1|err]; simpl; [|done].
  destruct save_flag; [rewrite save_trainingdata|]; apply IH.
Qed.

Lemma SimCLRTrainer_init_trainingdata ld td1 td2 testdata fcn augment
    temperature num_hidden output_dim lr lr_decay imshape num_channels norm
    batch_size num_parallel_calls single_channel notes downstream_labels g :
  SimCLRTrainer_init ld td2 testdata fcn augment temperature num_hidden
    output_dim lr lr_decay imshape num_channels norm batch_size
    num_parallel_calls single_channel notes downstream_labels g
  = result_map (with_trainingdata td2)
      (SimCLRTrainer_init ld td1 testdata fcn augment temperature num_hidden
         output_dim lr lr_decay imshape num_channels norm batch_size
         num_parallel_calls single_channel notes downstream_labels g).
Proof.
  unfold SimCLRTrainer_init.
  destruct (assert _ _) as [[]|e]; simpl; [|done].
  destruct cifar10_load_data as [[trd trl] [ted tel]].
  destruct (match fcn with FcnStr "ResNet50" => _ | _ => _ end) as [|s|f];
    simpl; try done.
  destruct (_build_simclr_dataset _ _ _ _ _ _ _ _) as [ds|e]; simpl; done.
Qed.

(** C10. Two constructor calls that differ in [trainingdata] only fail
    alike or build trainers that differ in the stored [trainingdata]
    attribute only: the same dataset of batches, and after any [fit] the
    same variables, optimizer state, generator state and events (losses
    included). *)
Theorem trainingdata_never_read ld td1 td2 testdata fcn augment
    temperature num_hidden output_dim lr lr_decay imshape num_channels norm
    batch_size num_parallel_calls single_channel notes downstream_labels g
    epochs save_flag evaluate_flag :
  let init := fun td =>
    SimCLRTrainer_init ld td testdata fcn augment temperature num_hidden
      output_dim lr lr_decay imshape num_channels norm batch_size
      num_parallel_calls single_channel notes downstream_labels g in
  let run := fun td =>
    st ← init td; SimCLRTrainer_fit epochs save_flag evaluate_flag st in
  init td2 = result_map (with_trainingdata td2) (init td1)
  ∧ result_map (fun st => _ds st.1) (init td2)
    = result_map (fun st => _ds st.1) (init td1)
  ∧ run td2 = result_map (with_trainingdata td2) (run td1)
  ∧ result_map snd (run td2) = result_map snd (run td1).
Proof.
  intros init run.
  assert (Hinit : init td2 = result_map (with_trainingdata td2) (init td1))
    by apply SimCLRTrainer_init_trainingdata.
  assert (Hrun : run td2 = result_map (with_trainingdata td2) (run td1)).
  { unfold run. rewrite Hinit.
    destruct (init td1) as [st|e]; simpl; [|done].
    apply fit_loop_trainingdata. }
  split; [done|]. split.
  - rewrite Hinit. by destruct (init td1) as [[t w]|e].
  - split; [done|]. rewrite Hrun. by destruct (run td1) as [[t w]|e].
Qed.


(** ** Properties of the pair-batch dataset *)

Local Open Scope nat_scope.

Lemma div_step (a n : nat) : 0 < n → n ≤ a → a / n = S ((a - n) / n).
Proof.
  intros Hn Hle.
  replace a with (1 * n + (a - n)) at 1 by lia.
  rewrite Nat.div_add_l by lia. lia.
Qed.

Lemma chunks_lookup {A} (fuel n : nat) (l : list A) (m : nat) :
  0 < n → length l / n ≤ fuel →
  chunks fuel n l !! m
  = if decide (m < length l / n) then Some (take n (drop (m * n) l)) else None.
Proof.
  intros Hn. revert l m.
  induction fuel as [|fuel IH]; intros l m Hfuel; simpl.
  - case_decide; [lia | done].
  - destruct (Nat.leb_spec n (length l)) as [Hle|Hlt].
    + pose proof (div_step (length l) n Hn Hle) as Hdiv.
      destruct m as [|m]; simpl.
      * case_decide; [done | lia].
      * rewrite IH by (rewrite length_drop; lia).
        rewrite length_drop, drop_drop.
        replace (n + m * n) with (n + m * n) by lia.
        repeat case_decide; try lia; done.
    + rewrite Nat.div_small by lia. case_decide; [lia | done].
Qed.

Lemma chunks_length {A} (fuel n : nat) (l : list A) :
  0 < n → length l / n ≤ fuel → length (chunks fuel n l) = length l / n.
Proof.
  intros Hn. revert l.
  induction fuel as [|fuel IH]; intros l Hfuel; simpl; [lia|].
  destruct (Nat.leb_spec n (length l)) as [Hle|Hlt]; simpl.
  - pose proof (div_step (length l) n Hn Hle) as Hdiv.
    rewrite IH by (rewrite length_drop; lia). rewrite length_drop. lia.
  - rewrite Nat.div_small by lia. done.
Qed.

(** The stream of labelled views before it is cut into batches. *)
Definition flat_views (_aug : Image -> Rng -> Image * Rng)
    (l : list Image) (g : Rng) : list (Image * Z) * Rng :=
  ds_unbatch (ds_map (_augment_and_stack _aug) (from_tensor_slices l)) g.

(** The generator state once the first [j] images have been augmented. *)
Definition rng_after (_aug : Image -> Rng -> Image * Rng)
    (l : list Image) (j : nat) (g : Rng) : Rng :=
  (map_elems (_augment_and_stack _aug) (take j l) g).2.

Lemma flat_views_cons _aug x l g :
  flat_views _aug (x :: l) g
  = let a := _aug x g in
    let b := _aug x a.2 in
    let r := flat_views _aug l b.2 in
    ((a.1, 1%Z) :: (b.1, (-1)%Z) :: r.1, r.2).
Proof.
  unfold flat_views, ds_unbatch, ds_map, from_tensor_slices. simpl.
  unfold _augment_and_stack at 1.
  destruct (_aug x g) as [a g1]. simpl.
  destruct (_aug x g1) as [b g2]. simpl.
  destruct (map_elems (_augment_and_stack _aug) l g2) as [ys g3]. done.
Qed.

Lemma rng_after_S _aug x l j g :
  rng_after _aug (x :: l) (S j) g
  = rng_after _aug l j (_aug x (_aug x g).2).2.
Proof.
  unfold rng_after. simpl. unfold _augment_and_stack at 1.
  destruct (_aug x g) as [a g1]. simpl.
  destruct (_aug x g1) as [b g2]. simpl.
  destruct (map_elems (_augment_and_stack _aug) (take j l) g2) as [ys g3]. done.
Qed.

Lemma flat_views_length _aug l g :
  length (flat_views _aug l g).1 = 2 * length l.
Proof.
  revert g. induction l as [|x l IH]; intros g; [done|].
  rewrite flat_views_cons. simpl. rewrite IH. lia.
Qed.

Lemma flat_views_lookup _aug l g j x :
  l !! j = Some x →
  let g1 := rng_after _aug l j g in
  (flat_views _aug l g).1 !! (2 * j) = Some ((_aug x g1).1, 1%Z)
  ∧ (flat_views _aug l g).1 !! (2 * j + 1)
    = Some ((_aug x (_aug x g1).2).1, (-1)%Z).
Proof.
  revert g j. induction l as [|x0 l IH]; intros g j Hj; [done|].
  rewrite flat_views_cons. destruct j as [|j]; simpl in *.
  - injection Hj as ->. done.
  - rewrite rng_after_S.
    replace (j + S (j + 0)) with (S (2 * j)) by lia.
    replace (j + S (j + 0) + 1) with (S (2 * j + 1)) by lia.
    apply (IH _ _ Hj).
Qed.

(** What the builder returns is [ds_batch] over the stream of views. *)
Lemma _build_simclr_dataset_ok train_data imshape batch_size
    num_parallel_calls norm num_channels augment single_channel :
  truthy augment = true → (1 ≤ batch_size)%Z →
  _build_simclr_dataset train_data imshape batch_size num_parallel_calls
    norm num_channels augment single_channel
  = Ok (ds_batch (2 * Z.to_nat batch_size)
          (flat_views (augment_function imshape augment) train_data)).
Proof.
  intros Ht Hb. unfold _build_simclr_dataset. rewrite Ht. simpl.
  destruct (Z.leb_spec (2 * batch_size) 0); [lia|].
  unfold ds_prefetch, flat_views. do 3 f_equal. lia.
Qed.

Lemma ds_batch_lookup {A B} (n : nat) (ds : DS (A * B)) g m :
  0 < n →
  (ds_batch n ds g).1 !! m
  = if decide (m < length (ds g).1 / n)
    then Some (map fst (take n (drop (m * n) (ds g).1)),
               map snd (take n (drop (m * n) (ds g).1)))
    else None.
Proof.
  intros Hn. unfold ds_batch. destruct (ds g) as [l g1]. simpl.
  rewrite list_lookup_fmap, chunks_lookup; [|done|].
  - by case_decide.
  - apply Nat.Div0.div_le_upper_bound. nia.
Qed.

Lemma ds_batch_length {A B} (n : nat) (ds : DS (A * B)) g :
  0 < n → length (ds_batch n ds g).1 = length (ds g).1 / n.
Proof.
  intros Hn. unfold ds_batch. destruct (ds g) as [l g1]. simpl.
  rewrite length_map, chunks_length; [done|done|].
  apply Nat.Div0.div_le_upper_bound. nia.
Qed.


(** The batches of one pass over the dataset the builder returns. *)
Lemma pair_batches_spec (train_data : list Image) imshape (N : Z)
    num_parallel_calls norm num_channels augment single_channel :
  truthy augment = true → (1 ≤ N)%Z →
  ∃ ds,
    _build_simclr_dataset train_data imshape N num_parallel_calls norm
      num_channels augment single_channel = Ok ds
    ∧ ∀ g : Rng,
        let n := Z.to_nat N in
        let _aug := augment_function imshape augment in
        length (ds g).1 = length train_data / n
        ∧ ∀ m (b : Batch), (ds g).1 !! m = Some b →
            length b.1 = 2 * n ∧ length b.2 = 2 * n
            ∧ ∀ k, k < n →
                ∃ x, train_data !! (m * n + k) = Some x
                  ∧ (let g1 := rng_after _aug train_data (m * n + k) g in
                     b.1 !! (2 * k) = Some (_aug x g1).1
                     ∧ b.1 !! (2 * k + 1) = Some (_aug x (_aug x g1).2).1)
                  ∧ b.2 !! (2 * k) = Some 1%Z
                  ∧ b.2 !! (2 * k + 1) = Some (-1)%Z
                  ∧ (Z.of_nat (2 * k) + 1 = Z.of_nat (2 * k + 1))%Z
                  ∧ (Z.of_nat (2 * k + 1) + -1 = Z.of_nat (2 * k))%Z.
Proof.
  intros Ht HN. eexists. split; [by apply _build_simclr_dataset_ok|].
  intros g. cbv zeta. unfold Batch in *.
  set (n := Z.to_nat N). set (_aug := augment_function imshape augment).
  assert (Hn : 0 < n) by (unfold n; lia).
  set (F := (flat_views _aug train_data g).1).
  assert (HF : length F = 2 * length train_data) by apply flat_views_length.
  assert (Hdiv : length F / (2 * n) = length train_data / n).
  { rewrite HF. apply Nat.Div0.div_mul_cancel_l. lia. }
  split.
  { rewrite ds_batch_length by lia. exact Hdiv. }
  intros m b Hb.
  rewrite ds_batch_lookup in Hb by lia. fold F in Hb. rewrite Hdiv in Hb.
  case_decide as Hm; [|done]. injection Hb as <-. cbn [fst snd].
  pose proof (Nat.Div0.mul_div_le (length train_data) n) as Hle.
  assert (Hfit : (m + 1) * n ≤ length train_data) by nia.
  rewrite !length_map, !length_take, !length_drop.
  split; [nia|]. split; [nia|].
  intros k Hk.
  destruct (lookup_lt_is_Some_2 train_data (m * n + k)) as [x Hx]; [nia|].
  exists x. split; [done|].
  destruct (flat_views_lookup _aug train_data g _ x Hx) as [H0 H1].
  fold F in H0, H1.
  rewrite !list_lookup_fmap.
  rewrite !lookup_take_lt by lia. rewrite !lookup_drop.
  replace (m * (n + (n + 0)) + 2 * k) with (2 * (m * n + k)) by lia.
  replace (m * (n + (n + 0)) + (2 * k + 1)) with (2 * (m * n + k) + 1) by lia.
  rewrite H0, H1. cbn [fmap option_fmap option_map fst snd]. repeat split; lia.
Qed.

(** C2. For a batch size [N >= 1] the builder returns a dataset whose
    every pass consists of [len(train_data) // N] batches of exactly [2N]
    views; in batch [m] the views [2k] and [2k+1] are two augmentations of
    source image [m*N + k], drawn one after the other from the generator,
    and the labels alternate [+1, -1], so that index plus label is the
    position of the twin. *)
Theorem pair_batches (train_data : list Image) imshape (N : Z)
    num_parallel_calls norm num_channels augment single_channel :
  truthy augment = true → (1 ≤ N)%Z →
  ∃ ds,
    _build_simclr_dataset train_data imshape N num_parallel_calls norm
      num_channels augment single_channel = Ok ds
    ∧ ∀ g : Rng,
        let n := Z.to_nat N in
        let _aug := augment_function imshape augment in
        length (ds g).1 = length train_data / n
        ∧ ∀ m (b : Batch), (ds g).1 !! m = Some b →
            length b.1 = 2 * n ∧ length b.2 = 2 * n
            ∧ ∀ k, k < n →
                ∃ x, train_data !! (m * n + k) = Some x
                  ∧ (let g1 := rng_after _aug train_data (m * n + k) g in
                     b.1 !! (2 * k) = Some (_aug x g1).1
                     ∧ b.1 !! (2 * k + 1) = Some (_aug x (_aug x g1).2).1)
                  ∧ b.2 !! (2 * k) = Some 1%Z
                  ∧ b.2 !! (2 * k + 1) = Some (-1)%Z
                  ∧ (Z.of_nat (2 * k) + 1 = Z.of_nat (2 * k + 1))%Z
                  ∧ (Z.of_nat (2 * k + 1) + -1 = Z.of_nat (2 * k))%Z.
Proof. apply pair_batches_spec. Qed.


(** ** The loss of the training step against its specification *)

(** Offset labels for [n] rows: one per row, each pointing inside the
    row. *)
Definition valid_labels (n : nat) (y : list Z) : Prop :=
  length y = n
  ∧ ∀ i l, y !! i = Some l → (0 ≤ Z.of_nat i + l < Z.of_nat n)%Z.

Lemma eye_lookup n i :
  i < n → eye n !! i = Some (map (fun j => if (i =? j)%nat then 1%R else 0%R) (seq 0 n)).
Proof.
  intros Hi. unfold eye, Mat. rewrite list_lookup_fmap, lookup_seq_lt by done. done.
Qed.

Lemma simclr_logits_rows τ n emb :
  length emb = n →
  simclr_logits τ n emb
  = map (fun i => map (fun j => Entrywise.logit τ emb i j) (seq 0 n)) (seq 0 n).
Proof.
  intros Hlen. unfold Mat in *. apply list_eq. intros i.
  unfold simclr_logits, masked_logits, mat_div, mat_sub, mat_scale,
    matmul_transpose_b, l2_normalize.
  rewrite !list_lookup_fmap, lookup_zip_with, !list_lookup_fmap.
  destruct (decide (i < n)) as [Hi|Hi].
  - rewrite eye_lookup, lookup_seq_lt by done.
    destruct (lookup_lt_is_Some_2 emb i) as [u Hu]; [lia|].
    rewrite Hu. simpl. f_equal.
    apply list_eq. intros j.
    rewrite !list_lookup_fmap, lookup_zip_with, !list_lookup_fmap.
    destruct (decide (j < n)) as [Hj|Hj].
    + rewrite lookup_seq_lt by done.
      destruct (lookup_lt_is_Some_2 emb j) as [v Hv]; [lia|].
      rewrite Hv. simpl. f_equal.
      unfold Entrywise.logit, Entrywise.cosine.
      rewrite !nth_lookup, Hu, Hv. simpl.
      destruct (i =? j)%nat; unfold BIG_NUMBER, Rdiv; ring.
    + rewrite !lookup_seq_ge by lia.
      rewrite (lookup_ge_None_2 emb j) by lia. done.
  - rewrite !lookup_seq_ge by lia.
    rewrite (lookup_ge_None_2 emb i) by lia. done.
Qed.

Lemma rows_cross_entropy_ok (labels : list Z) (logits : Mat) :
  length labels = length logits →
  (∀ i l row, labels !! i = Some l → logits !! i = Some row →
     (0 ≤ l < Z.of_nat (length row))%Z) →
  rows_cross_entropy labels logits
  = Ok (zip_with
          (fun l row => (ln (rsum (map exp row)) - nth (Z.to_nat l) row 0)%R)
          labels logits).
Proof.
  unfold Mat in *. revert logits. induction labels as [|l labels IH]; intros [|row logits] Hlen Hin;
    simpl in *; try done.
  assert (Hl : (0 ≤ l < Z.of_nat (length row))%Z) by (by apply (Hin 0 l row)).
  unfold row_cross_entropy.
  destruct (Z.leb_spec 0 l); [|lia].
  destruct (Z.ltb_spec l (Z.of_nat (length row))); [|lia]. simpl.
  rewrite IH; [done | lia |].
  intros i l' row' H1 H2. by apply (Hin (S i)).
Qed.

(** The code's loss is the loss of the specification. *)
Lemma simclr_loss_spec τ replicas n y emb :
  length emb = n → valid_labels n y →
  simclr_loss τ replicas n y emb = Ok (Entrywise.loss τ replicas y emb).
Proof.
  intros Hlen [Hy Hvalid]. unfold Mat in *. unfold simclr_loss, tf_range.
  rewrite length_map, length_seq, Hy, Nat.eqb_refl. simpl.
  unfold sparse_softmax_cross_entropy_with_logits.
  rewrite simclr_logits_rows by done.
  rewrite rows_cross_entropy_ok.
  - simpl. unfold reduce_mean, Entrywise.loss. rewrite Hlen.
    match goal with |- Ok (rsum ?c / _ / _)%R = _ => set (ce := c) end.
    assert (Hce : ce = map (fun i => Entrywise.row_loss τ emb n i (Entrywise.target y i))
                           (seq 0 n)).
    { apply list_eq. intros i. unfold ce.
      rewrite lookup_zip_with, lookup_zip_with, !list_lookup_fmap.
      destruct (decide (i < n)) as [Hi|Hi].
      - rewrite lookup_seq_lt by done.
        destruct (lookup_lt_is_Some_2 y i) as [l Hl]; [lia|].
        simpl. rewrite Hl. simpl. f_equal.
        unfold Entrywise.row_loss, Entrywise.target.
        rewrite (nth_lookup y), Hl. simpl.
        specialize (Hvalid i l Hl).
        rewrite map_map. f_equal.
        rewrite nth_lookup, list_lookup_fmap, lookup_seq_lt by lia. done.
      - rewrite !lookup_seq_ge by lia. done. }
    rewrite Hce, length_map, length_seq. done.
  - rewrite length_zip_with, !length_map, !length_seq. lia.
  - intros i l row Hl Hrow. unfold Mat in *.
    rewrite list_lookup_fmap in Hrow.
    apply lookup_zip_with_Some in Hl as (a & b & -> & Ha & Hb).
    rewrite list_lookup_fmap in Ha.
    destruct (decide (i < n)) as [Hi|Hi].
    + rewrite lookup_seq_lt in Ha, Hrow by done. simpl in *.
      injection Ha as <-. injection Hrow as <-.
      rewrite length_map, length_seq. by apply Hvalid.
    + rewrite lookup_seq_ge in Hrow by lia. done.
Qed.


(** *** The code's loss and the loss of the specification *)

Section LossWords.
Local Open Scope R_scope.

Lemma total_rsum (v : list R) : NTXent.total v = rsum v.
Proof. induction v as [|a v IH]; [done|]. cbn. by rewrite IH. Qed.

Lemma inner_dot (u v : list R) : NTXent.inner u v = dot u v.
Proof.
  unfold dot. revert v. induction u as [|a u IH]; intros [|b v]; try done.
  cbn. by rewrite IH.
Qed.

Lemma inner_self_squares (v : list R) :
  NTXent.inner v v = rsum (map (fun a => a * a) v).
Proof. induction v as [|a v IH]; [done|]. cbn. by rewrite IH. Qed.

Lemma inner_self_nonneg (v : list R) : 0 <= NTXent.inner v v.
Proof.
  induction v as [|a v IH]; cbn; [lra|].
  pose proof (Rle_0_sqr a) as Ha. unfold Rsqr in Ha. lra.
Qed.

(** For a vector of norm at least 1e-6 the epsilon of
    [tf.nn.l2_normalize] is not reached, and the code divides by the
    norm. *)
Lemma l2_normalize_row_normalize (v : list R) :
  1 / 1000000 <= NTXent.norm v → l2_normalize_row v = NTXent.normalize v.
Proof.
  intros Hv. unfold l2_normalize_row, NTXent.normalize, NTXent.norm in *.
  rewrite <- inner_self_squares.
  pose proof (inner_self_nonneg v) as H0.
  assert (Hs : l2_epsilon <= NTXent.inner v v).
  { rewrite <- (sqrt_sqrt (NTXent.inner v v)) by done.
    unfold l2_epsilon.
    replace (/ 1000000000000) with (1 / 1000000 * (1 / 1000000)) by lra.
    apply Rmult_le_compat; lra. }
  rewrite Rmax_left by done. done.
Qed.

Lemma cosine_similarity (emb : Mat) (i j : nat) :
  Forall (fun v => 1 / 1000000 <= NTXent.norm v) emb →
  (i < length emb)%nat → (j < length emb)%nat →
  Entrywise.cosine emb i j = NTXent.similarity emb i j.
Proof.
  intros Hall Hi Hj. unfold Entrywise.cosine, NTXent.similarity. unfold Mat in *.
  destruct (lookup_lt_is_Some_2 emb i Hi) as [u Hu].
  destruct (lookup_lt_is_Some_2 emb j Hj) as [v Hv].
  rewrite (nth_lookup_Some _ _ _ _ Hu), (nth_lookup_Some _ _ _ _ Hv).
  rewrite Forall_lookup in Hall.
  rewrite !l2_normalize_row_normalize by eauto.
  by rewrite inner_dot.
Qed.

Lemma logit_words (τ : R) (emb : Mat) (i j : nat) :
  Forall (fun v => 1 / 1000000 <= NTXent.norm v) emb →
  (i < length emb)%nat → (j < length emb)%nat →
  Entrywise.logit τ emb i j = NTXent.logit τ emb i j.
Proof.
  intros Hall Hi Hj.
  unfold Entrywise.logit, NTXent.logit, NTXent.masked, NTXent.large_constant,
    BIG_NUMBER.
  rewrite cosine_similarity by done. by destruct (i =? j)%nat.
Qed.

Lemma total_exp_pos (f : nat → R) (n : nat) :
  (0 < n)%nat → 0 < NTXent.total (map (fun j => exp (f j)) (seq 0 n)).
Proof.
  intros Hn. destruct n as [|n]; [lia|]. clear Hn. cbn [seq map NTXent.total].
  pose proof (exp_pos (f 0%nat)).
  assert (0 <= NTXent.total (map (fun j => exp (f j)) (seq 1 n))).
  { generalize 1%nat. induction n as [|n IH]; intros s; cbn; [lra|].
    pose proof (exp_pos (f s)). specialize (IH (S s)). lra. }
  lra.
Qed.

Lemma row_loss_words (τ : R) (emb : Mat) (i t : nat) :
  Forall (fun v => 1 / 1000000 <= NTXent.norm v) emb →
  (i < length emb)%nat → (t < length emb)%nat →
  Entrywise.row_loss τ emb (length emb) i t
  = NTXent.cross_entropy τ emb (length emb) i t.
Proof.
  intros Hall Hi Ht.
  unfold Entrywise.row_loss, NTXent.cross_entropy, NTXent.softmax.
  rewrite <- total_rsum.
  rewrite (map_ext_in _ (fun j => exp (NTXent.logit τ emb i j))).
  2:{ intros j Hj. apply in_seq in Hj. rewrite logit_words by (done || lia). done. }
  rewrite logit_words by done.
  pose proof (total_exp_pos (NTXent.logit τ emb i) (length emb) ltac:(lia)) as Hpos.
  unfold Rdiv. rewrite ln_mult, ln_exp, ln_Rinv
    by (try apply exp_pos; try apply Rinv_0_lt_compat; done).
  ring.
Qed.

(** On embeddings of norm at least 1e-6 the code's loss, entry by entry,
    is the loss of the specification. *)
Lemma loss_words (τ replicas : R) (y : list Z) (emb : Mat) :
  Forall (fun v => 1 / 1000000 <= NTXent.norm v) emb →
  valid_labels (length emb) y →
  Entrywise.loss τ replicas y emb = NTXent.loss τ replicas y emb.
Proof.
  intros Hall [Hlen Hval]. unfold Entrywise.loss, NTXent.loss.
  rewrite <- total_rsum. do 3 f_equal.
  apply map_ext_in. intros i Hi. apply in_seq in Hi.
  destruct (lookup_lt_is_Some_2 y i) as [l Hl]; [lia|].
  specialize (Hval i l Hl).
  replace (NTXent.target y i) with (Entrywise.target y i) by done.
  apply row_loss_words; [done|lia|].
  unfold Entrywise.target. rewrite (nth_lookup_Some _ _ _ _ Hl). lia.
Qed.

End LossWords.

Lemma training_step_ok embed_model τ replicas x y (w : World) :
  length (keras_call embed_model (weights w) x) = length x →
  valid_labels (length x) y →
  ∃ w', training_step embed_model τ replicas x y w
        = Ok (Entrywise.loss τ replicas y (keras_call embed_model (weights w) x), w')
        ∧ events w' = events w ∧ rng w' = rng w.
Proof.
  intros Hlen Hy. unfold training_step.
  rewrite simclr_loss_spec by done. simpl.
  destruct (apply_gradients _ _) as [o ws]. eexists. done.
Qed.

(** C1, amended. On a batch of views with offset labels, for a
    temperature and a replica count other than zero and embeddings each of
    Euclidean norm at least 1e-6, the loss the training step returns is
    the loss of the specification: every embedding divided by its norm, the
    pairwise inner products of the normalized vectors, 1000 subtracted on
    the diagonal only, every entry divided by the temperature, the softmax
    cross entropy of row [i] against class [i + label[i]] over all
    classes, the mean over the rows, divided by the replica count (which
    leaves the mean unchanged when it is 1). *)
Theorem training_step_loss embed_model (τ replicas : R) x y (w : World) :
  let emb := keras_call embed_model (weights w) x in
  τ ≠ 0%R → replicas ≠ 0%R →
  length emb = length x →
  valid_labels (length x) y →
  Forall (fun v => (1 / 1000000 <= NTXent.norm v)%R) emb →
  simclr_loss τ replicas (length x) y emb = Ok (NTXent.loss τ replicas y emb)
  ∧ (∃ w', training_step embed_model τ replicas x y w
           = Ok (NTXent.loss τ replicas y emb, w'))
  ∧ NTXent.loss τ 1 y emb
    = (NTXent.total (map (fun i => NTXent.cross_entropy τ emb (length emb) i
                                     (NTXent.target y i))
                         (seq 0 (length emb)))
       / INR (length emb))%R.
Proof.
  intros emb _ _ Hlen Hy Hnorm.
  assert (Hw : Entrywise.loss τ replicas y emb = NTXent.loss τ replicas y emb).
  { apply loss_words; [done|]. by rewrite Hlen. }
  split; [rewrite <- Hw; by apply simclr_loss_spec|]. split.
  - destruct (training_step_ok embed_model τ replicas x y w Hlen Hy)
      as (w' & Hw' & _).
    exists w'. fold emb in Hw'. by rewrite <- Hw.
  - unfold NTXent.loss. unfold Rdiv. rewrite Rinv_1. ring.
Qed.


(** ** The trace of [fit] *)

Local Open Scope list_scope.

(** What a run leaves behind that the save and step-counter properties
    talk about: the step under which each training loss was recorded,
    and the path of each model written. *)
Inductive Mark : Type :=
| MStep (z : Z)
| MSave (path : string).

Definition mark (e : Event) : option Mark :=
  match e with
  | EvScalar name _ s => if String.eqb name "loss" then Some (MStep s) else None
  | EvModelSave p _ _ => Some (MSave p)
  | _ => None
  end.

Definition marks (evs : list Event) : list Mark := omap mark evs.

Lemma marks_emit e (w : World) :
  marks (events (emit e w))
  = marks (events w) ++ match mark e with Some m => [m] | None => [] end.
Proof.
  unfold marks, emit. simpl. rewrite omap_app. simpl. by destruct (mark e).
Qed.

Lemma step_set_step z (t : Trainer) : step (set_step z t) = z.
Proof. done. Qed.

Lemma set_step_set_step a b (t : Trainer) :
  set_step a (set_step b t) = set_step a t.
Proof. done. Qed.

Lemma set_step_id (t : Trainer) : set_step (step t) t = t.
Proof. by destruct t. Qed.

(** A batch the training step accepts. *)
Definition batch_ok (b : Batch) : Prop := valid_labels (length b.1) b.2.

Section KerasBatches.

(** A Keras model returns one embedding per view. *)
Hypothesis keras_call_length :
  ∀ m ws x, length (keras_call m ws x) = length x.

Lemma _run_training_batch_ok (t : Trainer) (w : World) (b : Batch) :
  batch_ok b →
  ∃ w', _run_training_batch (t, w) b = Ok (set_step (step t + 1) t, w')
        ∧ marks (events w') = marks (events w) ++ [MStep (step t)]
        ∧ rng w' = rng w.
Proof.
  intros Hb. unfold _run_training_batch, _build_simclr_training_step. simpl.
  destruct (training_step_ok (_training_step_model t)
              (_training_step_temperature t) (_training_step_replicas t)
              b.1 b.2 w (keras_call_length _ _ _) Hb) as (w1 & Hw1 & Hev & Hrng).
  rewrite Hw1. simpl. eexists. split; [reflexivity|].
  destruct (step t mod 100 =? 0)%Z.
  - split; [|done]. rewrite !marks_emit. simpl. by rewrite app_nil_r, Hev.
  - split; [|done]. rewrite !marks_emit. simpl. by rewrite Hev.
Qed.

Lemma run_batches_ok (bs : list Batch) (t : Trainer) (w : World) :
  Forall batch_ok bs →
  ∃ w', run_batches bs (t, w)
        = Ok (set_step (step t + Z.of_nat (length bs)) t, w')
        ∧ marks (events w')
          = marks (events w)
            ++ map (fun k => MStep (step t + Z.of_nat k)) (seq 0 (length bs))
        ∧ rng w' = rng w.
Proof.
  revert t w. induction bs as [|b bs IH]; intros t w Hbs.
  - exists w. simpl. rewrite Z.add_0_r, set_step_id, app_nil_r. done.
  - apply Forall_cons in Hbs as [Hb Hbs].
    destruct (_run_training_batch_ok t w b Hb) as (w1 & H1 & Hm1 & Hr1).
    destruct (IH (set_step (step t + 1) t) w1 Hbs) as (w2 & H2 & Hm2 & Hr2).
    exists w2. simpl. rewrite H1. simpl. rewrite H2.
    rewrite set_step_set_step, step_set_step.
    split; [do 3 f_equal; lia|]. split; [|congruence].
    rewrite Hm2, Hm1, <- app_assoc. f_equal. simpl.
    rewrite Z.add_0_r. f_equal.
    rewrite <- seq_shift, map_map. apply map_ext. intros k. f_equal. lia.
Qed.



(** Every batch of the builder's dataset is accepted by the training
    step. *)
Lemma built_batches_ok (train_data : list Image) imshape (N : Z)
    (augment : PyVal) (g : Rng) :
  (1 ≤ N)%Z →
  let ds := ds_batch (2 * Z.to_nat N)
              (flat_views (augment_function imshape augment) train_data) in
  length (ds g).1 = length train_data / Z.to_nat N
  ∧ Forall batch_ok (ds g).1.
Proof.
  intros HN ds. unfold ds. clear ds.
  remember (Z.to_nat N) as n eqn:En.
  assert (Hn : 0 < n) by lia.
  remember (2 * n) as n2 eqn:En2.
  set (F := (flat_views (augment_function imshape augment) train_data g).1).
  assert (HF : length F = 2 * length train_data) by apply flat_views_length.
  assert (Hdiv : length F / n2 = length train_data / n).
  { rewrite HF, En2. apply Nat.Div0.div_mul_cancel_l. lia. }
  split.
  { rewrite ds_batch_length by lia. exact Hdiv. }
  apply Forall_lookup. intros m b Hb. unfold Batch in *.
  rewrite ds_batch_lookup in Hb by lia. fold F in Hb. rewrite Hdiv in Hb.
  case_decide as Hm; [|done]. injection Hb as <-.
  pose proof (Nat.Div0.mul_div_le (length train_data) n) as Hle.
  assert (Hfit : (m + 1) * n ≤ length train_data) by nia.
  unfold batch_ok, valid_labels. cbn [fst snd].
  rewrite !length_map, !length_take, !length_drop.
  split; [done|].
  assert (Hlen : Nat.min n2 (length F - m * n2) = n2) by nia.
  rewrite Hlen.
  intros i l Hl.
  rewrite list_lookup_fmap in Hl.
  destruct (decide (i < n2)) as [Hi|Hi];
    [|rewrite lookup_take_ge in Hl by lia; done].
  rewrite lookup_take_lt, lookup_drop in Hl by lia.
  destruct (lookup_lt_is_Some_2 train_data (m * n + i / 2)) as [x Hx].
  { pose proof (Nat.Div0.div_lt_upper_bound i 2 n). nia. }
  destruct (flat_views_lookup (augment_function imshape augment)
              train_data g _ x Hx) as [H0 H1].
  fold F in H0, H1.
  pose proof (Nat.div_mod_eq i 2) as Hi2.
  pose proof (Nat.mod_upper_bound i 2) as Hmod.
  destruct (i mod 2) as [|[|r]] eqn:Er; [| |lia].
  - replace (m * n2 + i) with (2 * (m * n + i / 2)) in Hl by lia.
    rewrite H0 in Hl. injection Hl as <-. lia.
  - replace (m * n2 + i) with (2 * (m * n + i / 2) + 1) in Hl by lia.
    rewrite H1 in Hl. injection Hl as <-. lia.
Qed.


Lemma _run_training_epoch_ok (t : Trainer) (w : World) train_data imshape
    augment (N : Z) :
  (1 ≤ N)%Z →
  _ds t = ds_batch (2 * Z.to_nat N)
            (flat_views (augment_function imshape augment) train_data) →
  let B := length train_data / Z.to_nat N in
  ∃ w', _run_training_epoch (t, w) = Ok (set_step (step t + Z.of_nat B) t, w')
        ∧ marks (events w')
          = marks (events w)
            ++ map (fun k => MStep (step t + Z.of_nat k)) (seq 0 B).
Proof.
  intros HN Hds B. unfold _run_training_epoch. cbn [fst snd]. rewrite Hds.
  destruct (built_batches_ok train_data imshape N augment (rng w) HN)
    as [Hlen Hok].
  destruct (ds_batch _ _ (rng w)) as [bs g] eqn:Ebs. cbn [fst snd] in *.
  destruct (run_batches_ok bs t (mkWorld (weights w) (opt_state w) g (events w)) Hok)
    as (w' & Hrun & Hmarks & _).
  exists w'. unfold Batch in *. rewrite Hrun, Hmarks, Hlen. done.
Qed.

(** The marks of one call of [save] for the two models of a
    [SimCLRTrainer]. *)
Definition save_marks (ld : string) : list Mark :=
  [MSave (path_join ld "fcn.h5"); MSave (path_join ld "full.h5")].

Lemma save_ok (t : Trainer) (w : World) m1 m2 :
  _models t = [("fcn", m1); ("full", m2)] →
  ∃ w', save (t, w) = (t, w')
        ∧ marks (events w') = marks (events w) ++ save_marks (logdir t).
Proof.
  intros Hm. unfold save. cbn [fst snd]. rewrite Hm. cbn [foldl fst snd].
  eexists. split; [reflexivity|].
  rewrite !marks_emit. cbn [mark]. rewrite <- app_assoc. done.
Qed.

(** The marks of [E] epochs of [B] batches each, the first epoch starting
    at step [s]: the steps of an epoch, then its save. *)
Definition run_marks (ld : string) (s : Z) (B E : nat) : list Mark :=
  concat (map (fun e => map (fun k => MStep (s + Z.of_nat (e * B + k))) (seq 0 B)
                        ++ save_marks ld)
              (seq 0 E)).

Lemma run_marks_S ld s B E :
  run_marks ld s B (S E)
  = (map (fun k => MStep (s + Z.of_nat k)) (seq 0 B) ++ save_marks ld)
    ++ run_marks ld (s + Z.of_nat B) B E.
Proof.
  unfold run_marks. cbn [seq map concat]. f_equal.
  rewrite <- seq_shift, map_map. f_equal. apply map_ext. intros e.
  f_equal. apply map_ext. intros k. f_equal. lia.
Qed.

Lemma fit_loop_ok ev (E : nat) fl (t : Trainer) (w : World) train_data imshape
    augment (N : Z) m1 m2 :
  (1 ≤ N)%Z →
  _ds t = ds_batch (2 * Z.to_nat N)
            (flat_views (augment_function imshape augment) train_data) →
  _models t = [("fcn", m1); ("full", m2)] →
  let B := length train_data / Z.to_nat N in
  ∃ w', fit_loop _run_training_epoch ev E true fl (t, w)
        = Ok (set_step (step t + Z.of_nat (E * B)) t, w')
        ∧ marks (events w')
          = marks (events w) ++ run_marks (logdir t) (step t) B E.
Proof.
  intros HN Hds Hm B. revert t w Hds Hm.
  induction E as [|E IH]; intros t w Hds Hm.
  - exists w. cbn [fit_loop]. simpl. rewrite Z.add_0_r, set_step_id.
    unfold run_marks. simpl. by rewrite app_nil_r.
  - cbn [fit_loop].
    destruct (_run_training_epoch_ok t w train_data imshape augment N HN Hds)
      as (w1 & Hrun & Hm1).
    fold B in Hrun, Hm1. rewrite Hrun. cbn [mbind Result_bind].
    set (t1 := set_step (step t + Z.of_nat B) t) in *.
    destruct (save_ok t1 w1 m1 m2 Hm) as (w2 & Hsave & Hm2).
    rewrite Hsave.
    destruct (IH t1 w2 Hds Hm) as (w3 & Hfit & Hm3).
    exists w3. rewrite Hfit. split.
    + unfold t1. rewrite set_step_set_step, step_set_step. do 3 f_equal. lia.
    + rewrite Hm3, Hm2, Hm1, run_marks_S. unfold t1.
      rewrite step_set_step. cbn [logdir set_step].
      rewrite <- !app_assoc. done.
Qed.


(** What a successful constructor call has set up. *)
Lemma SimCLRTrainer_init_fields ld td testdata fcn augment
    temperature num_hidden output_dim lr lr_decay imshape num_channels norm
    batch_size num_parallel_calls single_channel notes downstream_labels g st0 :
  SimCLRTrainer_init ld td testdata fcn augment temperature num_hidden
    output_dim lr lr_decay imshape num_channels norm batch_size
    num_parallel_calls single_channel notes downstream_labels g = Ok st0 →
  (1 ≤ batch_size)%Z
  ∧ _ds st0.1
    = ds_batch (2 * Z.to_nat batch_size)
        (flat_views
           (augment_function (PyTuple [imshape.1; imshape.2]) augment)
           (rescale cifar10_load_data.1.1))
  ∧ (∃ m1 m2, _models st0.1 = [("fcn", m1); ("full", m2)])
  ∧ logdir st0.1 = ld
  ∧ step st0.1 = 0%Z
  ∧ marks (events st0.2) = [].
Proof.
  unfold SimCLRTrainer_init.
  destruct (assert _ _) as [[]|e]; cbn [mbind Result_bind]; [|done].
  destruct cifar10_load_data as [[trd trl] [ted tel]].
  destruct (match fcn with FcnStr "ResNet50" => _ | _ => _ end) as [|s|f];
    cbn [mbind Result_bind]; try done.
  destruct (truthy augment) eqn:Ht;
    [|by rewrite _build_simclr_dataset_falsy].
  destruct (Z.le_gt_cases 1 batch_size) as [Hb|Hb].
  - rewrite _build_simclr_dataset_ok by done. cbn [mbind Result_bind].
    intros H. injection H as <-. cbn [fst snd].
    split; [done|]. split; [done|]. split; [by eexists _, _|]. done.
  - unfold _build_simclr_dataset. rewrite Ht. cbn [assert mbind Result_bind].
    destruct (Z.leb_spec (2 * batch_size) 0); [done | lia].
Qed.

(** C6. After a successful constructor call, [fit(epochs=E, save=True)]
    with [E >= 1] returns, and the run consists of [E] rounds, each the
    training steps of one pass over the dataset followed by one call of
    [save] (which writes the encoder and the full model); the steps under
    which the losses are recorded count up by one from 0 through all
    epochs, and the step counter ends at [E] times the number of batches
    of a pass. *)
Theorem fit_saves_each_epoch ld td testdata fcn augment
    temperature num_hidden output_dim lr lr_decay imshape num_channels norm
    batch_size num_parallel_calls single_channel notes downstream_labels g
    (st0 : St) (E : Z) evaluate_flag :
  SimCLRTrainer_init ld td testdata fcn augment temperature num_hidden
    output_dim lr lr_decay imshape num_channels norm batch_size
    num_parallel_calls single_channel notes downstream_labels g = Ok st0 →
  (1 ≤ E)%Z →
  let B := length cifar10_load_data.1.1 / Z.to_nat batch_size in
  ∃ st', SimCLRTrainer_fit E true evaluate_flag st0 = Ok st'
         ∧ marks (events st'.2) = run_marks ld 0 B (Z.to_nat E)
         ∧ step st'.1 = (E * Z.of_nat B)%Z.
Proof.
  intros Hinit HE B.
  destruct (SimCLRTrainer_init_fields _ _ _ _ _ _ _ _ _ _ _ _ _ _ _ _ _ _ _ _
              Hinit) as (HN & Hds & (m1 & m2 & Hm) & Hld & Hstep & Hmarks).
  destruct st0 as [t w]. cbn [fst snd] in *.
  destruct (fit_loop_ok evaluate (Z.to_nat E) evaluate_flag t w _ _ _ _ m1 m2
              HN Hds Hm) as (w' & Hfit & Hm').
  unfold rescale in Hfit, Hm'. rewrite length_map in Hfit, Hm'. fold B in Hfit, Hm'.
  eexists. split; [exact Hfit|]. cbn [fst snd].
  rewrite Hm', Hmarks, Hld, Hstep, step_set_step. split; [done|]. lia.
Qed.

End KerasBatches.

End Trainers.

(** ** The diagonal of the logits *)

Section DiagonalWeight.
Local Open Scope R_scope.

(** The share of the softmax of [row] that falls on position [i]. *)
Definition softmax_weight (row : list R) (i : nat) : R := nth i (softmax row) 0.

Lemma rsum_exp_nonneg (row : list R) : 0 <= rsum (map exp row).
Proof.
  induction row as [|c row IH]; simpl; [lra|].
  pose proof (exp_pos c). lra.
Qed.

Lemma rsum_exp_ge (row : list R) (j : nat) (b : R) :
  row !! j = Some b → exp b <= rsum (map exp row).
Proof.
  revert j. induction row as [|c row IH]; intros [|j] Hj; try discriminate; simpl.
  - injection Hj as ->. pose proof (rsum_exp_nonneg row). lra.
  - pose proof (exp_pos c). specialize (IH _ Hj). lra.
Qed.

Lemma softmax_weight_lookup (row : list R) (i : nat) (a : R) :
  row !! i = Some a → softmax_weight row i = exp a / rsum (map exp row).
Proof.
  intros Ha. unfold softmax_weight, softmax.
  apply nth_lookup_Some. rewrite list_lookup_fmap, Ha. done.
Qed.

(** The cross entropy of a row is the negative log of that share, so
    [softmax_weight] is the weight the loss gives to a class. *)
Lemma row_cross_entropy_softmax (row : list R) (i : nat) :
  (i < length row)%nat →
  row_cross_entropy (Z.of_nat i) row = Ok (- ln (softmax_weight row i)).
Proof.
  intros Hi. unfold row_cross_entropy.
  destruct (lookup_lt_is_Some_2 row i Hi) as [a Ha].
  pose proof (rsum_exp_ge _ _ _ Ha) as Hge. pose proof (exp_pos a) as Hea.
  replace ((0 <=? Z.of_nat i)%Z && (Z.of_nat i <? Z.of_nat (length row))%Z)
    with true by (symmetry; apply andb_true_iff; split; [apply Z.leb_le|apply Z.ltb_lt]; lia).
  f_equal. rewrite Nat2Z.id, (softmax_weight_lookup _ _ _ Ha).
  rewrite (nth_lookup row), Ha. simpl.
  unfold Rdiv. rewrite ln_mult, ln_exp, ln_Rinv by
    (try apply exp_pos; try apply Rinv_0_lt_compat; lra).
  ring.
Qed.

(** A class weighs at most the exponential of its gap to any class of
    the row. *)
Lemma softmax_weight_gap (row : list R) (i j : nat) (a b : R) :
  row !! i = Some a → row !! j = Some b →
  softmax_weight row i <= exp (a - b).
Proof.
  intros Ha Hb. rewrite (softmax_weight_lookup _ _ _ Ha).
  pose proof (rsum_exp_ge _ _ _ Hb) as Hge.
  pose proof (exp_pos a) as Hea. pose proof (exp_pos b) as Heb.
  unfold Rminus. rewrite exp_plus, exp_Ropp.
  unfold Rdiv. apply Rmult_le_compat_l; [lra|].
  apply Rinv_le_contravar; lra.
Qed.

(** Entry [(i, j)] of the logits. *)
Lemma masked_logits_lookup (τ : R) (n : nat) (sim : Mat) (i j : nat) (r : list R) (s : R) :
  (i < n)%nat → (j < n)%nat → sim !! i = Some r → r !! j = Some s →
  ∃ row, masked_logits τ n sim !! i = Some row
         ∧ row !! j = Some ((s - BIG_NUMBER * (if (i =? j)%nat then 1 else 0)) / τ).
Proof.
  intros Hi Hj Hr Hs. unfold Mat in *.
  unfold masked_logits, mat_div, mat_sub, mat_scale.
  rewrite list_lookup_fmap, lookup_zip_with, list_lookup_fmap, Hr.
  rewrite eye_lookup by done. simpl. eexists. split; [done|].
  rewrite list_lookup_fmap, lookup_zip_with, !list_lookup_fmap, Hs.
  rewrite lookup_seq_lt by done. done.
Qed.

Lemma exp_square_lower (b b' t : R) :
  0 <= b → b' <= b * b → b <= exp t → b' <= exp (2 * t).
Proof.
  intros Hb Hb' Ht. replace (2 * t) with (t + t) by lra. rewrite exp_plus.
  apply Rle_trans with (b * b); [done|].
  apply Rmult_le_compat; done.
Qed.

(** [exp (998/72)] is above a million: twelve squarings of
    [1 + x <= exp x] at [x = 998/72/4096], rounded down. *)
Lemma exp_998_72 : 1000000 < exp (998 / 72).
Proof.
  assert (H : 1003384060329 / 1000000000000 <= exp (998 / 72 / 4096)).
  { eapply Rle_trans; [|apply exp_ineq1_le]. lra. }
  apply (exp_square_lower _ (25169489313 / 25000000000)) in H; [|lra|lra].
  apply (exp_square_lower _ (25340127691 / 25000000000)) in H; [|lra|lra].
  apply (exp_square_lower _ (102739531423 / 100000000000)) in H; [|lra|lra].
  apply (exp_square_lower _ (10555411317 / 10000000000)) in H; [|lra|lra].
  apply (exp_square_lower _ (111416708071 / 100000000000)) in H; [|lra|lra].
  apply (exp_square_lower _ (124136828373 / 100000000000)) in H; [|lra|lra].
  apply (exp_square_lower _ (30819904317 / 20000000000)) in H; [|lra|lra].
  apply (exp_square_lower _ (237466625527 / 100000000000)) in H; [|lra|lra].
  apply (exp_square_lower _ (563903982391 / 100000000000)) in H; [|lra|lra].
  apply (exp_square_lower _ (79496925339 / 2500000000)) in H; [|lra|lra].
  apply (exp_square_lower _ (101116178213 / 100000000)) in H; [|lra|lra].
  apply (exp_square_lower _ (25561203741 / 25000)) in H; [|lra|lra].
  replace (2 * (2 * (2 * (2 * (2 * (2 * (2 * (2 * (2 * (2 * (2 * (2 *
             (998 / 72 / 4096))))))))))))) with (998 / 72) in H by lra.
  lra.
Qed.

Lemma exp_le_mono (x y : R) : x <= y → exp x <= exp y.
Proof.
  intros [H| ->]; [left; by apply exp_increasing|right; done].
Qed.

Lemma masked_gap (τ s t : R) :
  0 < τ <= 72 → -1 <= s <= 1 → -1 <= t <= 1 →
  exp ((s - BIG_NUMBER * 1) / τ - (t - BIG_NUMBER * 0) / τ) < 1 / 1000000.
Proof.
  intros [Hτ Hτ'] Hs Ht. unfold BIG_NUMBER.
  apply Rle_lt_trans with (exp (- (998 / 72))).
  - apply exp_le_mono.
    assert (H72 : / 72 <= / τ) by (apply Rinv_le_contravar; lra).
    assert (Hi : 0 < / τ) by (by apply Rinv_0_lt_compat).
    unfold Rdiv. nra.
  - rewrite exp_Ropp. pose proof exp_998_72 as He.
    unfold Rdiv at 2. rewrite Rmult_1_l.
    apply Rinv_lt_contravar; [|done].
    apply Rmult_lt_0_compat; lra.
Qed.

(** Up to a temperature of 72 the masking works: for a temperature in
    (0, 72] and similarities in
    [-1, 1], after the masking constant is subtracted from the diagonal
    and all is divided by the temperature, the diagonal entry of every row
    of a batch of at least two views weighs less than 1e-6 in the softmax
    of its row. *)
Theorem diagonal_weight_negligible (τ : R) (n : nat) (sim : Mat) (i : nat) :
  0 < τ <= 72 → (2 <= n)%nat → (i < n)%nat →
  length sim = n → Forall (fun r => length r = n) sim →
  Forall (Forall (fun s => -1 <= s <= 1)) sim →
  ∃ row, masked_logits τ n sim !! i = Some row
         ∧ softmax_weight row i < 1 / 1000000.
Proof.
  intros Hτ Hn Hi Hlen Hrows Hsim. unfold Mat in *.
  destruct (lookup_lt_is_Some_2 sim i) as [r Hr]; [lia|].
  pose proof (proj1 (Forall_lookup _ _) Hrows _ _ Hr) as Hrl.
  simpl in Hrl.
  pose proof (proj1 (Forall_lookup _ _) Hsim _ _ Hr) as Hrb.
  set (j := if (i =? 0)%nat then 1%nat else 0%nat).
  assert (Hj : (j < n)%nat) by (unfold j; destruct (i =? 0)%nat; lia).
  assert (Hij : (i =? j)%nat = false).
  { unfold j. destruct (Nat.eqb_spec i 0) as [->|]; [done|].
    by apply Nat.eqb_neq. }
  destruct (lookup_lt_is_Some_2 r i) as [s Hs]; [lia|].
  destruct (lookup_lt_is_Some_2 r j) as [t Ht]; [lia|].
  pose proof (proj1 (Forall_lookup _ _) Hrb _ _ Hs) as Hsb.
  pose proof (proj1 (Forall_lookup _ _) Hrb _ _ Ht) as Htb.
  simpl in Hsb, Htb.
  destruct (masked_logits_lookup τ n sim i i r s Hi Hi Hr Hs) as (row & Hrow & Hd).
  destruct (masked_logits_lookup τ n sim i j r t Hi Hj Hr Ht) as (row' & Hrow' & Ho).
  unfold Mat in *. rewrite Hrow in Hrow'. injection Hrow' as <-.
  rewrite Nat.eqb_refl in Hd. rewrite Hij in Ho.
  exists row. split; [done|].
  eapply Rle_lt_trans; [exact (softmax_weight_gap _ _ _ _ _ Hd Ho)|].
  by apply masked_gap.
Qed.

End DiagonalWeight.

(** ** The linear probe *)

Section Standardize.
Local Open Scope R_scope.

Lemma rsum_map_scale {A} (f : A → R) (c : R) (v : list A) :
  rsum (map (fun a => f a * c) v) = rsum (map f v) * c.
Proof.
  induction v as [|a v IH]; simpl; [lra|]. rewrite IH. lra.
Qed.

Lemma rsum_map_shift (μ : R) (v : list R) :
  rsum (map (fun a => a - μ) v) = rsum v - INR (length v) * μ.
Proof.
  induction v as [|a v IH]; [simpl; lra|].
  cbn [map rsum foldr length]. fold (rsum (map (fun a => a - μ) v)). fold (rsum v).
  rewrite IH, S_INR. lra.
Qed.

Lemma rsum_squares_nonneg {A} (f : A → R) (v : list A) :
  0 <= rsum (map (fun a => f a * f a) v).
Proof.
  induction v as [|a v IH]; simpl; [lra|].
  fold (rsum (map (fun a => f a * f a) v)). nra.
Qed.

Lemma INR_length_pos {A} (v : list A) : v ≠ [] → 0 < INR (length v).
Proof.
  intros Hv. destruct v; [done|]. apply lt_0_INR. simpl. lia.
Qed.

Lemma variance_nonneg (v : list R) : v ≠ [] → 0 <= variance v.
Proof.
  intros Hv. unfold variance, mean. rewrite length_map.
  pose proof (INR_length_pos v Hv).
  pose proof (rsum_squares_nonneg (fun a => a - rsum v / INR (length v)) v).
  apply Rmult_le_pos; [done|]. left. by apply Rinv_0_lt_compat.
Qed.

(** Centring and scaling a feature: the mean moves to
    [(mean v - μ) / σ]. *)
Lemma mean_standardized (μ σ : R) (v : list R) :
  v ≠ [] →
  mean (map (fun a => (a - μ) / σ) v) = (mean v - μ) / σ.
Proof.
  intros Hv. pose proof (INR_length_pos v Hv) as Hn.
  unfold mean. rewrite length_map. unfold Rdiv at 2.
  rewrite (rsum_map_scale (fun a => a - μ) (/ σ) v), rsum_map_shift.
  unfold Rdiv. rewrite !Rmult_minus_distr_r.
  rewrite (Rmult_comm (INR (length v)) μ), !Rmult_assoc.
  rewrite (Rmult_comm (/ σ) (/ INR (length v))), <- (Rmult_assoc (INR (length v))).
  rewrite Rinv_r by lra. lra.
Qed.

Lemma variance_standardized (μ σ : R) (v : list R) :
  v ≠ [] → σ ≠ 0 →
  variance (map (fun a => (a - μ) / σ) v) = variance v / (σ * σ).
Proof.
  intros Hv Hσ. pose proof (INR_length_pos v Hv) as Hn.
  unfold variance. rewrite (mean_standardized μ σ v Hv).
  rewrite map_map.
  rewrite (map_ext _ (fun a => (a - mean v) * (a - mean v) * (/ σ * / σ)))
    by (intros a; field; done).
  unfold mean at 1 4. rewrite !length_map.
  rewrite (rsum_map_scale (fun a => (a - mean v) * (a - mean v))).
  field. split; lra.
Qed.

End Standardize.

Section ScalerColumns.
Local Open Scope R_scope.

Lemma StandardScaler_fit_mean (X : Mat) (j : nat) :
  (j < length (hd [] X))%nat →
  nth j (mean_ (StandardScaler_fit X)) 0 = mean (column j X).
Proof.
  intros Hj. apply nth_lookup_Some. unfold StandardScaler_fit. simpl.
  rewrite list_lookup_fmap, lookup_seq_lt by done. done.
Qed.

Lemma StandardScaler_fit_scale (X : Mat) (j : nat) :
  (j < length (hd [] X))%nat →
  nth j (scale_ (StandardScaler_fit X)) 0
  = handle_zeros_in_scale (sqrt (variance (column j X))).
Proof.
  intros Hj. apply nth_lookup_Some. unfold StandardScaler_fit. simpl.
  rewrite list_lookup_fmap, lookup_seq_lt by done. done.
Qed.

(** Feature [j] of the transformed vectors is feature [j] of the
    vectors, centred and scaled by entry [j] of the scaler. *)
Lemma column_transform (sc : StandardScaler) (X : Mat) (d j : nat) :
  Forall (fun row => length row = d) X →
  length (mean_ sc) = d → length (scale_ sc) = d → (j < d)%nat →
  column j (StandardScaler_transform sc X)
  = map (fun a => (a - nth j (mean_ sc) 0) / nth j (scale_ sc) 0) (column j X).
Proof.
  intros HX Hm Hs Hj. unfold column, StandardScaler_transform.
  rewrite !map_map. apply map_ext_Forall.
  eapply Forall_impl; [exact HX|]. intros row Hrow. simpl in Hrow |- *.
  destruct (lookup_lt_is_Some_2 row j) as [a Ha]; [lia|].
  destruct (lookup_lt_is_Some_2 (mean_ sc) j) as [μ Hμ]; [lia|].
  destruct (lookup_lt_is_Some_2 (scale_ sc) j) as [σ Hσ]; [lia|].
  rewrite (nth_lookup_Some _ _ _ _ Ha), (nth_lookup_Some _ _ _ _ Hμ),
    (nth_lookup_Some _ _ _ _ Hσ).
  apply nth_lookup_Some.
  rewrite lookup_zip_with, Ha. simpl.
  rewrite lookup_zip_with, Hμ. simpl. rewrite Hσ. done.
Qed.

(** What [StandardScaler] does to the vectors it was fitted on: every
    feature gets mean zero, and variance one unless it is constant. *)
Lemma standardized_columns (X : Mat) (d j : nat) :
  X ≠ [] → Forall (fun row => length row = d) X → (j < d)%nat →
  mean (column j (StandardScaler_transform (StandardScaler_fit X) X)) = 0
  ∧ (variance (column j X) ≠ 0 →
     variance (column j (StandardScaler_transform (StandardScaler_fit X) X)) = 1).
Proof.
  intros HX Hrows Hj.
  assert (Hd : length (hd [] X) = d).
  { destruct X as [|row X]; [done|]. by inversion Hrows. }
  assert (Hv : column j X ≠ []) by (destruct X; done).
  rewrite (column_transform _ X d j Hrows); [| | |done].
  2,3: unfold StandardScaler_fit; simpl; by rewrite length_map, length_seq.
  rewrite StandardScaler_fit_mean, StandardScaler_fit_scale by lia.
  split.
  - rewrite mean_standardized by done. unfold Rdiv. ring.
  - intros Hvar. pose proof (variance_nonneg _ Hv) as Hpos.
    assert (Hs : sqrt (variance (column j X)) ≠ 0).
    { intros H0. by apply sqrt_eq_0 in H0. }
    unfold handle_zeros_in_scale. destruct (Req_dec_T _ 0) as [|_]; [done|].
    rewrite variance_standardized by done.
    rewrite sqrt_sqrt by done. by field.
Qed.

End ScalerColumns.

Section ConfusionMatrix.
Local Open Scope nat_scope.
Local Open Scope list_scope.

Lemma foldr_min_le (y0 : Z) (ys : list Z) (l : Z) :
  l ∈ ys → (foldr Z.min y0 ys <= l)%Z.
Proof.
  induction ys as [|y ys IH]; intros Hl; [by apply elem_of_nil in Hl|].
  apply elem_of_cons in Hl as [->|Hl]; simpl; [lia|].
  specialize (IH Hl). lia.
Qed.

Lemma foldr_max_ge (y0 : Z) (ys : list Z) (l : Z) :
  l ∈ ys → (l <= foldr Z.max y0 ys)%Z.
Proof.
  induction ys as [|y ys IH]; intros Hl; [by apply elem_of_nil in Hl|].
  apply elem_of_cons in Hl as [->|Hl]; simpl; [lia|].
  specialize (IH Hl). lia.
Qed.

(** Every label that occurs is a class. *)
Lemma unique_labels_complete (ys : list Z) (l : Z) :
  l ∈ ys → l ∈ unique_labels ys.
Proof.
  intros Hl. unfold unique_labels. destruct ys as [|y0 ys'] eqn:E.
  { by apply elem_of_nil in Hl. }
  rewrite <- E in *. apply list_elem_of_filter. split; [done|].
  apply elem_of_seqZ.
  pose proof (foldr_min_le y0 ys l Hl). pose proof (foldr_max_ge y0 ys l Hl).
  lia.
Qed.

Lemma foldr_max_spec (c : nat) (cs : list nat) :
  foldr Nat.max c cs ∈ c :: cs ∧ ∀ x, x ∈ c :: cs → x ≤ foldr Nat.max c cs.
Proof.
  induction cs as [|a cs [IHin IHub]]; simpl.
  - split; [set_solver|]. intros x Hx. apply list_elem_of_singleton in Hx. lia.
  - split.
    + destruct (Nat.max_spec a (foldr Nat.max c cs)) as [[_ ->]|[_ ->]]; set_solver.
    + intros x Hx. pose proof (IHub c ltac:(set_solver)).
      apply elem_of_cons in Hx as [->|Hx]; [lia|].
      apply elem_of_cons in Hx as [->|Hx]; [lia|].
      pose proof (IHub x ltac:(set_solver)). lia.
Qed.

(** [conf_mat.max()] is an entry of the matrix, and no entry is above
    it. *)
Lemma cm_max_spec (cm : list (list nat)) (m : nat) :
  cm_max cm = Ok m →
  m ∈ concat cm ∧ ∀ c, c ∈ concat cm → c ≤ m.
Proof.
  unfold cm_max. destruct (concat cm) as [|c cs]; [done|].
  intros [= <-]. apply foldr_max_spec.
Qed.

(** The confusion matrix of a non-empty test set counts at least one
    sample somewhere. *)
Lemma confusion_matrix_max_pos (y_true y_pred : list Z) (cm : list (list nat)) (m : nat) :
  confusion_matrix y_true y_pred = Ok cm → cm_max cm = Ok m → 1 ≤ m.
Proof.
  unfold confusion_matrix. intros Hcm Hm.
  destruct (length y_true =? length y_pred) eqn:Hlen; [|done].
  apply Nat.eqb_eq in Hlen. simpl in Hcm. injection Hcm as <-.
  destruct y_true as [|t y_true]; destruct y_pred as [|p y_pred]; try done.
  apply cm_max_spec in Hm as [_ Hub].
  set (ys := (t :: y_true) ++ p :: y_pred) in *.
  set (pairs := zip (t :: y_true) (p :: y_pred)) in *.
  assert (Ht : t ∈ unique_labels ys).
  { apply unique_labels_complete. unfold ys. set_solver. }
  assert (Hp : p ∈ unique_labels ys).
  { apply unique_labels_complete. unfold ys. set_solver. }
  assert (Hc : 1 ≤ count_pairs t p pairs).
  { unfold count_pairs, pairs. simpl. rewrite filter_cons_True by done.
    simpl. lia. }
  etrans; [exact Hc|]. apply Hub.
  apply list_elem_of_In, in_concat.
  exists (map (fun p0 => count_pairs t p0 pairs) (unique_labels ys)). split.
  - apply in_map_iff. exists t. split; [done|]. by apply list_elem_of_In.
  - apply in_map_iff. exists p. split; [done|]. by apply list_elem_of_In.
Qed.

End ConfusionMatrix.

Section LinearProbe.
Context {Ty : Types} {Co : @Collaborators Ty}.
Local Open Scope nat_scope.
Local Open Scope list_scope.

(** The average-pooled features of a set of images, before scaling. *)
Definition pooled_features (f : Fcn) (ws : Weights) (data : list Image)
    (input_config : gmap string PyVal) : Mat :=
  let '(ds, num_steps) := dataset data false input_config in
  average_pool (keras_predict f ws ds num_steps).

(** The locals of [linear_classification_test], in terms of its
    arguments. *)
Lemma linear_classification_test_frame_inv f ws train_data train_labels
    test_data test_labels input_config fr :
  linear_classification_test_frame f ws train_data train_labels
    test_data test_labels input_config = Ok fr →
  probe_scaler fr = StandardScaler_fit (pooled_features f ws train_data input_config)
  ∧ probe_trainvecs fr
    = StandardScaler_transform (probe_scaler fr)
        (pooled_features f ws train_data input_config)
  ∧ probe_testvecs fr
    = StandardScaler_transform (probe_scaler fr)
        (pooled_features f ws test_data input_config)
  ∧ probe_logreg fr = LogisticRegression_fit (probe_trainvecs fr) train_labels
  ∧ probe_preds fr = LogisticRegression_predict (probe_logreg fr) (probe_testvecs fr)
  ∧ accuracy_score test_labels (probe_preds fr) = Ok (probe_acc fr)
  ∧ confusion_matrix test_labels (probe_preds fr) = Ok (probe_cm fr).
Proof.
  unfold linear_classification_test_frame, pooled_features.
  destruct (dataset train_data false input_config) as [ds1 n1].
  destruct (dataset test_data false input_config) as [ds2 n2].
  destruct (accuracy_score _ _) as [acc|e] eqn:Hacc; [|done].
  destruct (confusion_matrix _ _) as [cm|e] eqn:Hcm; [|done].
  simpl. intros [= <-]. simpl. done.
Qed.

Lemma normalized_entry (c m : nat) :
  1 ≤ m → c ≤ m → (0 <= INR c / INR m <= 1)%R.
Proof.
  intros Hm Hc.
  assert (0 < INR m)%R by (apply lt_0_INR; lia).
  assert (0 <= INR c)%R by apply pos_INR.
  assert (INR c <= INR m)%R by (by apply le_INR).
  split.
  - apply Rmult_le_pos; [done|]. left. by apply Rinv_0_lt_compat.
  - apply Rmult_le_reg_r with (INR m); [done|].
    unfold Rdiv. rewrite Rmult_assoc, Rinv_l by lra. lra.
Qed.

(** In [linear_classification_test] the scaler is the standard scaler
    fitted on the pooled train features alone; that one scaler transforms
    the train and the test features; the classifier is fitted on the scaled
    train features; whatever the test images and test labels are, scaler,
    scaled train features and classifier are the same; and the scaled train
    features have mean zero and, unless constant, variance one in every
    feature. *)
Theorem linear_probe_scaler_from_train_only f ws train_data train_labels
    test_data test_labels cfg (fr : ProbeFrame) :
  linear_classification_test_frame f ws train_data train_labels
    test_data test_labels cfg = Ok fr →
  let train := pooled_features f ws train_data cfg in
  let test := pooled_features f ws test_data cfg in
  let scaler := StandardScaler_fit train in
  probe_scaler fr = scaler
  ∧ probe_trainvecs fr = StandardScaler_transform scaler train
  ∧ probe_testvecs fr = StandardScaler_transform scaler test
  ∧ probe_logreg fr
    = LogisticRegression_fit (StandardScaler_transform scaler train) train_labels
  ∧ (∀ test_data' test_labels' fr',
       linear_classification_test_frame f ws train_data train_labels
         test_data' test_labels' cfg = Ok fr' →
       probe_scaler fr' = probe_scaler fr
       ∧ probe_trainvecs fr' = probe_trainvecs fr
       ∧ probe_logreg fr' = probe_logreg fr
       ∧ probe_testvecs fr'
         = StandardScaler_transform scaler
             (pooled_features f ws test_data' cfg))
  ∧ (∀ d j, train ≠ [] → Forall (fun row => length row = d) train → j < d →
       mean (column j (probe_trainvecs fr)) = 0%R
       ∧ (variance (column j train) ≠ 0%R →
          variance (column j (probe_trainvecs fr)) = 1%R)).
Proof.
  intros Hfr train test scaler.
  destruct (linear_classification_test_frame_inv _ _ _ _ _ _ _ _ Hfr)
    as (Hsc & Htr & Hte & Hlr & _).
  fold train in Hsc, Htr. fold test in Hte. fold scaler in Hsc.
  rewrite Hsc in Htr, Hte. rewrite Htr in Hlr.
  split; [done|]. split; [done|]. split; [done|]. split; [done|]. split.
  - intros test_data' test_labels' fr' Hfr'.
    destruct (linear_classification_test_frame_inv _ _ _ _ _ _ _ _ Hfr')
      as (Hsc' & Htr' & Hte' & Hlr' & _).
    fold train in Hsc', Htr'. fold scaler in Hsc'.
    rewrite Hsc' in Htr', Hte'. rewrite Htr' in Hlr'.
    split; [by rewrite Hsc, Hsc'|]. split; [by rewrite Htr, Htr'|].
    split; [by rewrite Hlr, Hlr'|done].
  - intros d j Hne Hrows Hj. rewrite Htr.
    by apply (standardized_columns train d j).
Qed.

(** The events of the metric sink: scalars and images. *)
Definition is_metric_event (e : Event) : bool :=
  match e with
  | EvScalar _ _ _ | EvImage _ _ _ => true
  | _ => false
  end.

Definition metric_events (evs : list Event) : list Event :=
  List.filter is_metric_event evs.

(** [_linear_classification_test] records the accuracy and then the
    confusion matrix as one image of shape (1, k, k, 1), both under the
    current step, and no other metric; the entries of the image are the
    counts divided by the largest count, which is at least one, so they
    lie in [0, 1] and the largest is 1.  Weights, generator and step
    counter are left alone. *)
Theorem confusion_image_normalized
    (params : option (list (string * PyVal))) (st st' : St) :
  _linear_classification_test params st = Ok st' →
  let t := st.1 in
  ∃ (acc : R) (cm : list (list nat)) (m : nat),
    linear_classification_test (fcn t) (weights st.2)
      (train_data t) (_downstream_train_labels t)
      (test_data t) (_downstream_test_labels t) (input_config (configs t))
    = Ok (acc, cm)
    ∧ cm_max cm = Ok m
    ∧ 1 ≤ m
    ∧ m ∈ concat cm
    ∧ (∀ c, c ∈ concat cm → c ≤ m ∧ (0 <= INR c / INR m <= 1)%R)
    ∧ (INR m / INR m = 1)%R
    ∧ metric_events (events st'.2)
      = metric_events (events st.2)
        ++ [EvScalar "linear_classification_accuracy" acc (step t);
            EvImage "linear_classification_confusion_matrix"
              [map (map (fun c => [(INR c / INR m)%R])) cm] (step t)]
    ∧ weights st'.2 = weights st.2
    ∧ rng st'.2 = rng st.2
    ∧ step st'.1 = step t.
Proof.
  intros Hrun t.
  unfold _linear_classification_test in Hrun. fold t in Hrun.
  destruct (linear_classification_test (fcn t) (weights st.2) (train_data t)
              (_downstream_train_labels t) (test_data t)
              (_downstream_test_labels t) (input_config (configs t)))
    as [[acc cm]|e] eqn:Hlt; [|done].
  cbn [mbind Result_bind] in Hrun. unfold normalized_confusion_image in Hrun.
  destruct (cm_max cm) as [m|e] eqn:Hm; [|done].
  cbn [mbind Result_bind] in Hrun.
  assert (Hcm : ∃ preds, confusion_matrix (_downstream_test_labels t) preds = Ok cm).
  { unfold linear_classification_test in Hlt.
    destruct (linear_classification_test_frame _ _ _ _ _ _ _) as [fr|e] eqn:Hfr;
      [|done].
    cbn [mbind Result_bind] in Hlt. injection Hlt as _ <-.
    exists (probe_preds fr).
    by destruct (linear_classification_test_frame_inv _ _ _ _ _ _ _ _ Hfr)
      as (_ & _ & _ & _ & _ & _ & ?). }
  destruct Hcm as [preds Hcm].
  pose proof (confusion_matrix_max_pos _ _ _ _ Hcm Hm) as Hpos.
  destruct (cm_max_spec _ _ Hm) as [Hin Hub].
  exists acc, cm, m.
  assert (Hev :
    metric_events (events st'.2)
    = metric_events (events st.2)
      ++ [EvScalar "linear_classification_accuracy" acc (step t);
          EvImage "linear_classification_confusion_matrix"
            [map (map (fun c => [(INR c / INR m)%R])) cm] (step t)]
    ∧ weights st'.2 = weights st.2 ∧ rng st'.2 = rng st.2 ∧ step st'.1 = step t).
  { unfold metric_events. destruct params as [ps|].
    - destruct (_hparams_config _) eqn:Hh; injection Hrun as <-; simpl;
        rewrite !List.filter_app; simpl; by rewrite ?app_nil_r, <- ?app_assoc.
    - injection Hrun as <-. simpl. rewrite !List.filter_app. simpl.
      by rewrite <- app_assoc. }
  destruct Hev as (Hev & Hw & Hr & Hs).
  split; [done|]. split; [done|]. split; [done|]. split; [done|]. split.
  { intros c Hc. split; [by apply Hub|].
    apply normalized_entry; [done|by apply Hub]. }
  split; [|done].
  apply Rinv_r. apply not_0_INR. lia.
Qed.

End LinearProbe.

(** ** Properties of the configuration buckets *)

(** Key [k] with value [v] sits in exactly one bucket of [c]. *)
Definition bucketed (c : Configs) (k : string) (v : PyVal) : Prop :=
  (k = "augment" ∧ augment_config c = v
     ∧ config c !! k = None ∧ input_config c !! k = None)
  ∨ (k ≠ "augment" ∧ (k ∈ INPUT_PARAMS)
     ∧ input_config c !! k = Some v ∧ config c !! k = None)
  ∨ (k ≠ "augment" ∧ (k ∉ INPUT_PARAMS)
     ∧ config c !! k = Some v ∧ input_config c !! k = None).

Lemma _parse_configs_snoc kwargs kv :
  _parse_configs (kwargs ++ [kv]) = _parse_configs_step (_parse_configs kwargs) kv.
Proof. unfold _parse_configs. by rewrite fold_left_app. Qed.

Lemma _parse_configs_inv (kwargs : list (string * PyVal)) :
  NoDup kwargs.*1 →
  (∀ k v, (k, v) ∈ kwargs → bucketed (_parse_configs kwargs) k v)
  ∧ (∀ k, k ∉ kwargs.*1 →
       config (_parse_configs kwargs) !! k = None
       ∧ input_config (_parse_configs kwargs) !! k = None).
Proof.
  induction kwargs as [|[k0 v0] kw IH] using rev_ind.
  - intros _. split; [intros k v H; inversion H | done].
  - rewrite fmap_app, NoDup_app. intros (Hnd & Hfresh & _).
    destruct (IH Hnd) as [IHin IHout]. clear IH.
    assert (Hk0 : k0 ∉ kw.*1).
    { intros Hin. apply (Hfresh _ Hin). simpl. set_solver. }
    destruct (IHout _ Hk0) as [Hc0 Hi0].
    rewrite _parse_configs_snoc.
    set (c := _parse_configs kw) in *.
    split.
    + intros k v Hin. apply elem_of_app in Hin as [Hin | Hin].
      * assert (Hne : k ≠ k0).
        { intros ->. apply Hk0. apply list_elem_of_fmap. by exists (k0, v). }
        specialize (IHin _ _ Hin). unfold bucketed, _parse_configs_step in *.
        destruct (String.eqb_spec k0 "augment") as [->|Hna]; simpl.
        { destruct IHin as [(-> & _) | [H | H]];
            [done | right; left | right; right]; done. }
        case_bool_decide; simpl; rewrite ?lookup_insert_ne by done; done.
      * apply list_elem_of_singleton in Hin. injection Hin as -> ->.
        unfold bucketed, _parse_configs_step.
        destruct (String.eqb_spec k0 "augment") as [->|Hna]; simpl.
        { left. done. }
        case_bool_decide; simpl; rewrite lookup_insert_eq;
          [right; left | right; right]; done.
    + intros k Hk. rewrite not_elem_of_app in Hk. destruct Hk as [Hk Hk'].
      assert (Hne : k0 ≠ k) by (simpl in Hk'; set_solver).
      destruct (IHout _ Hk) as [Hc Hi].
      unfold _parse_configs_step.
      destruct (String.eqb_spec k0 "augment") as [->|Hna]; simpl; [done|].
      case_bool_decide; simpl; rewrite ?lookup_insert_ne by done; done.
Qed.

(** C9. Every keyword parameter lands in exactly one of the three
    buckets, chosen by the key alone: [augment] is its own bucket, the keys
    of [INPUT_PARAMS] go to the input bucket, all others to the model
    bucket; the buckets hold nothing else.  On
    [{imshape:(32,32), lr:0.01, augment:True}] the input bucket holds
    [imshape], the model bucket [lr], and the augment bucket is [True]. *)
Theorem _parse_configs_three_buckets :
  (∀ kwargs : list (string * PyVal), NoDup kwargs.*1 →
     (∀ k v, (k, v) ∈ kwargs → bucketed (_parse_configs kwargs) k v)
     ∧ (∀ k, k ∉ kwargs.*1 →
          config (_parse_configs kwargs) !! k = None
          ∧ input_config (_parse_configs kwargs) !! k = None))
  ∧ (let c := _parse_configs
                [("imshape", PyTuple [PyInt 32; PyInt 32]);
                 ("lr", PyFloat (1 / 100)%R);
                 ("augment", PyBool true)] in
     input_config c = {[ "imshape" := PyTuple [PyInt 32; PyInt 32] ]}
     ∧ config c = {[ "lr" := PyFloat (1 / 100)%R ]}
     ∧ augment_config c = PyBool true).
Proof.
  split; [apply _parse_configs_inv|].
  repeat split; reflexivity.
Qed.

(** The scenario's keyword arguments, through the general statement. *)
Lemma _parse_configs_three_buckets_witness :
  NoDup ["imshape"; "lr"; "augment"]
  ∧ bucketed (_parse_configs
                [("imshape", PyTuple [PyInt 32; PyInt 32]);
                 ("lr", PyFloat (1 / 100)%R);
                 ("augment", PyBool true)]) "lr" (PyFloat (1 / 100)%R).
Proof.
  assert (Hnd : NoDup ["imshape"; "lr"; "augment"]).
  { repeat constructor; set_solver. }
  split; [exact Hnd|].
  apply (proj1 (proj1 _parse_configs_three_buckets
                  [("imshape", PyTuple [PyInt 32; PyInt 32]);
                   ("lr", PyFloat (1 / 100)%R);
                   ("augment", PyBool true)] Hnd)).
  set_solver.
Defined.


(** ** A small concrete instance of the collaborators

    The generator state counts the draws; an augmentation adds the number
    of the draw to every pixel, so that two views of one image differ.
    The encoder is the identity on flattened images, an optimizer update
    counts the steps taken. *)

Module Toy.

Definition types : Types := {|
  Rng := nat;
  Fcn := unit;
  Weights := nat;
  OptState := unit;
  LoaderDS := list Image;
  Classifier := unit
|}.

Definition collaborators : @Collaborators types :=
  @Build_Collaborators types
    (* augment_function *)
    (fun _ _ (x : Image) (g : nat) => (map (fun a => (a + INR g)%R) x, S g))
    (* ResNet50V2 *) tt
    (* keras_init *) (fun _ => O)
    (* keras_call *) (fun _ _ x => x)
    (* Adam *) (fun _ => tt)
    (* apply_gradients *) (fun _ s => (s.1, S s.2))
    (* dataset *) (fun data _ _ => (data, length data))
    (* keras_predict *) (fun _ _ ds _ => map (fun x => [[x]]) ds)
    (* LogisticRegression_fit *) (fun _ _ => tt)
    (* LogisticRegression_predict *) (fun _ X => map (fun _ => 0%Z) X)
    (* cifar10_load_data *)
    (([[0; 255]; [255; 0]; [51; 102]; [102; 51]; [0; 0]],
      [[0]; [1]; [0]; [1]; [0]]),
     ([[255; 0]; [0; 255]], [[1]; [0]]))%Z.

Definition encoder : @Fcn types := tt.
Definition seed : @Rng types := O.

(** A trainer on this instance, for a given augmentation, temperature,
    batch size and [trainingdata] argument. *)
Definition init (augment : PyVal) (temperature : R) (batch_size : Z)
    (td : PyVal) (g : @Rng types) : Result (@St types) :=
  SimCLRTrainer_init (Co := collaborators)
    "logs" td PyNone (FcnModel encoder) augment temperature 128 64
    (1 / 100)%R 10000 (PyInt 32, PyInt 32) (PyInt 3) (PyInt 255)
    batch_size PyNone (PyBool false) (PyStr "") PyNone g.

(** A world with no events yet. *)
Definition world : @World types := mkWorld (O : @Weights types) (tt : @OptState types) seed [].

(** Two views with the offset labels of one pair. *)
Definition views : list Image := [[1; 0]; [0; 1]]%R.
Definition labels : list Z := [1; -1]%Z.

Lemma labels_valid : valid_labels 2 labels.
Proof.
  split; [reflexivity|].
  intros [|[|i]] l H; simpl in H; try discriminate; injection H as <-; lia.
Defined.

End Toy.

Lemma augmentation_disabled_fails_fast_witness :
  truthy PyNone = false
  ∧ ∃ e, Toy.init PyNone 1%R 2 PyNone Toy.seed = Raise e.
Proof.
  split; [reflexivity|].
  apply (augmentation_disabled_fails_fast (Co := Toy.collaborators)
           "logs" PyNone PyNone (FcnModel Toy.encoder)
           PyNone 1%R 128 64 (1 / 100)%R 10000 (PyInt 32, PyInt 32) (PyInt 3)
           (PyInt 255) 2 PyNone (PyBool false) (PyStr "") PyNone Toy.seed
           [] PyNone).
  reflexivity.
Defined.

Lemma temperature_not_validated_witness :
  truthy (PyBool true) = true ∧ (0 < 2)%Z
  ∧ ∃ st, Toy.init (PyBool true) (-1)%R 2 PyNone Toy.seed = Ok st
          ∧ _training_step_temperature st.1 = (-1)%R.
Proof.
  split; [reflexivity|]. split; [lia|].
  destruct (temperature_not_validated (Co := Toy.collaborators)
           "logs" PyNone PyNone Toy.encoder
           (PyBool true) (-1)%R 128 64 (1 / 100)%R 10000 (PyInt 32, PyInt 32)
           (PyInt 3) (PyInt 255) 2 PyNone (PyBool false) (PyStr "") PyNone Toy.seed
           eq_refl eq_refl) as (st & H1 & H2 & _).
  exists st. split; assumption.
Defined.

(** C5 as stated fails: a trainer is built for the temperature 0. *)
Lemma zero_temperature_accepted :
  ¬ ∃ e, Toy.init (PyBool true) 0%R 2 PyNone Toy.seed = Raise e.
Proof.
  intros [e H].
  destruct (SimCLRTrainer_init_ok (Co := Toy.collaborators)
           "logs" PyNone PyNone Toy.encoder
           (PyBool true) 0%R 128 64 (1 / 100)%R 10000 (PyInt 32, PyInt 32)
           (PyInt 3) (PyInt 255) 2 PyNone (PyBool false) (PyStr "") PyNone Toy.seed
           eq_refl eq_refl) as (st & Hst & _).
  unfold Toy.init in H. rewrite Hst in H. discriminate H.
Qed.

Lemma pair_batches_witness :
  truthy (PyBool true) = true ∧ (1 ≤ 2)%Z
  ∧ ∃ ds, _build_simclr_dataset (Co := Toy.collaborators)
            [[0%R]; [1%R]; [2%R]; [3%R]; [4%R]] PyNone 2 PyNone PyNone PyNone
            (PyBool true) PyNone = Ok ds
          ∧ length (ds Toy.seed).1 = 2%nat.
Proof.
  split; [reflexivity|]. split; [lia|].
  destruct (pair_batches (Co := Toy.collaborators)
              [[0%R]; [1%R]; [2%R]; [3%R]; [4%R]] PyNone 2 PyNone PyNone
              PyNone (PyBool true) PyNone eq_refl ltac:(lia))
    as (ds & Hds & Hall).
  exists ds. split; [exact Hds|].
  exact (proj1 (Hall Toy.seed)).
Defined.

Lemma training_step_loss_witness :
  (1 ≠ 0)%R
  ∧ length Toy.views = 2%nat
  ∧ valid_labels 2 Toy.labels
  ∧ Forall (fun v => (1 / 1000000 <= NTXent.norm v)%R) Toy.views
  ∧ ∃ w', training_step (Co := Toy.collaborators) [] 1%R 1%R
            Toy.views Toy.labels Toy.world
          = Ok (NTXent.loss 1 1 Toy.labels Toy.views, w').
Proof.
  assert (H1 : (1 ≠ 0)%R) by lra.
  assert (Hn : Forall (fun v => (1 / 1000000 <= NTXent.norm v)%R) Toy.views).
  { unfold Toy.views, NTXent.norm. repeat constructor; cbn [NTXent.inner].
    - replace (1 * 1 + (0 * 0 + 0))%R with 1%R by lra. rewrite sqrt_1. lra.
    - replace (0 * 0 + (1 * 1 + 0))%R with 1%R by lra. rewrite sqrt_1. lra. }
  split; [exact H1|]. split; [reflexivity|]. split; [exact Toy.labels_valid|].
  split; [exact Hn|].
  exact (proj1 (proj2 (training_step_loss (Co := Toy.collaborators) [] 1%R 1%R
                         Toy.views Toy.labels Toy.world H1 H1 eq_refl
                         Toy.labels_valid Hn))).
Defined.

Lemma fit_saves_each_epoch_witness :
  (∀ m ws x,
     length (keras_call (Collaborators := Toy.collaborators) m ws x) = length x)
  ∧ (1 ≤ 3)%Z
  ∧ ∃ st0 st',
      Toy.init (PyBool true) 1%R 2 PyNone Toy.seed = Ok st0
      ∧ SimCLRTrainer_fit (Co := Toy.collaborators) 3 true true st0 = Ok st'
      ∧ marks (events st'.2) = run_marks "logs" 0 2 3
      ∧ step st'.1 = 6%Z.
Proof.
  assert (Hk : ∀ m ws x,
            length (keras_call (Collaborators := Toy.collaborators) m ws x) = length x)
    by (intros; reflexivity).
  split; [exact Hk|]. split; [lia|].
  destruct (SimCLRTrainer_init_ok (Co := Toy.collaborators)
           "logs" PyNone PyNone Toy.encoder
           (PyBool true) 1%R 128 64 (1 / 100)%R 10000 (PyInt 32, PyInt 32)
           (PyInt 3) (PyInt 255) 2 PyNone (PyBool false) (PyStr "") PyNone
           Toy.seed eq_refl eq_refl) as (st0 & Hst0 & _).
  destruct (fit_saves_each_epoch (Co := Toy.collaborators) Hk
           "logs" PyNone PyNone (FcnModel Toy.encoder)
           (PyBool true) 1%R 128 64 (1 / 100)%R 10000 (PyInt 32, PyInt 32)
           (PyInt 3) (PyInt 255) 2 PyNone (PyBool false) (PyStr "") PyNone
           Toy.seed st0 3 true Hst0 ltac:(lia)) as (st' & Hfit & Hm & Hs).
  exists st0, st'. repeat split; assumption.
Defined.

Lemma diagonal_weight_negligible_witness :
  (0 < 1 / 10 <= 72)%R ∧ (2 <= 2)%nat ∧ (0 < 2)%nat
  ∧ ∃ row, masked_logits (1 / 10) 2 [[1; 1]; [1; 1]]%R !! 0%nat = Some row
           ∧ (softmax_weight row 0 < 1 / 1000000)%R.
Proof.
  assert (Hτ : (0 < 1 / 10 <= 72)%R) by lra.
  split; [exact Hτ|]. split; [lia|]. split; [lia|].
  apply (diagonal_weight_negligible (1 / 10) 2 [[1; 1]; [1; 1]]%R 0 Hτ);
    [lia|lia|reflexivity| |].
  - repeat constructor.
  - repeat (constructor; try lra).
Defined.

(** C3. The masking does not work for every temperature the trainer
    accepts: a trainer is built for the temperature 1000, and on two views
    with equal embeddings the logits of the first row are then -0.999 on
    the diagonal and 0.001 off it, so that the diagonal entry keeps at
    least a quarter of the softmax of its row, not less than 1e-6. *)
Theorem diagonal_weight_at_temperature_1000 :
  (∃ st, Toy.init (PyBool true) 1000%R 2 PyNone Toy.seed = Ok st
         ∧ _training_step_temperature st.1 = 1000%R)
  ∧ ∃ row, simclr_logits 1000 2 [[1; 0]; [1; 0]]%R !! 0%nat = Some row
           ∧ nth 0 row 0%R = (- (999 / 1000))%R
           ∧ nth 1 row 0%R = (1 / 1000)%R
           ∧ length row = 2%nat
           ∧ (1 / 4 <= softmax_weight row 0)%R
           ∧ ¬ (softmax_weight row 0 < 1 / 1000000)%R.
Proof.
  split.
  - destruct (SimCLRTrainer_init_ok (Co := Toy.collaborators)
           "logs" PyNone PyNone Toy.encoder
           (PyBool true) 1000%R 128 64 (1 / 100)%R 10000 (PyInt 32, PyInt 32)
           (PyInt 3) (PyInt 255) 2 PyNone (PyBool false) (PyStr "") PyNone Toy.seed
           eq_refl eq_refl) as (st & Hst & Ht & _).
    exists st. split; assumption.
  - assert (Hn : l2_normalize_row [1; 0]%R = [1; 0]%R).
    { unfold l2_normalize_row, l2_epsilon. cbn [map rsum foldr].
      rewrite Rmax_left by lra.
      replace (1 * 1 + (0 * 0 + 0))%R with 1%R by lra.
      rewrite sqrt_1. f_equal; [lra|f_equal; lra]. }
    eexists. split.
    { unfold simclr_logits, masked_logits, mat_div, mat_sub, mat_scale,
        matmul_transpose_b, l2_normalize, eye, BIG_NUMBER.
      cbn [map zip_with seq Nat.eqb]. rewrite Hn.
      unfold dot. cbn [map zip_with rsum foldr lookup list_lookup].
      reflexivity. }
    split; [cbn [nth]; lra|]. split; [cbn [nth]; lra|]. split; [reflexivity|].
    assert (Hq : (1 / 4 <= softmax_weight
                             [((1 * 1 + (0 * 0 + 0) - 1000 * 1) / 1000)%R;
                              ((1 * 1 + (0 * 0 + 0) - 1000 * 0) / 1000)%R] 0)%R).
    { unfold softmax_weight, softmax. cbn [map nth rsum foldr].
      match goal with |- (_ <= exp ?a / (exp ?a' + (exp ?b + 0)))%R =>
        replace a with (- (999 / 1000))%R by lra;
        replace b with (- (999 / 1000) + 1)%R by lra
      end.
      rewrite exp_plus.
      pose proof (exp_pos (- (999 / 1000))) as Hp. pose proof exp_le_3 as H3.
      set (e := exp (- (999 / 1000))) in *. set (e1 := exp 1) in *.
      pose proof (exp_pos 1) as H1. fold e1 in H1.
      assert (Hs : (0 < e + (e * e1 + 0))%R) by nra.
      apply Rmult_le_reg_r with (e + (e * e1 + 0))%R; [done|].
      replace (e / (e + (e * e1 + 0)) * (e + (e * e1 + 0)))%R with e
        by (field; lra).
      nra. }
    split; [exact Hq|]. intros Hlt. lra.
Qed.

(** A trainer of [Module Toy] with two training and two test images, as
    the linear probe sees it. *)
Definition probe_trainer : @Trainer Toy.types :=
  mkTrainer "logs" PyNone
    [[1; 2]; [3; 6]]%R [[3; 2]; [1; 6]]%R [0; 1]%Z [0; 1]%Z
    Toy.encoder [] (fun g => ([], g)) [] 1%R 1%R
    PyNone PyNone PyNone 0%Z
    (_parse_configs [("temperature", PyFloat 1); ("num_hidden", PyInt 128);
                     ("output_dim", PyInt 64)])
    None.

Lemma linear_probe_scaler_from_train_only_witness :
  ∃ fr : @ProbeFrame Toy.types,
    linear_classification_test_frame (Co := Toy.collaborators)
      Toy.encoder (weights Toy.world)
      [[1; 2]; [3; 6]]%R [0; 1]%Z [[3; 2]; [1; 6]]%R [0; 1]%Z ∅ = Ok fr
    ∧ probe_scaler fr
      = StandardScaler_fit
          (pooled_features (Co := Toy.collaborators) Toy.encoder
             (weights Toy.world) [[1; 2]; [3; 6]]%R ∅).
Proof.
  assert (H : ∃ fr : @ProbeFrame Toy.types,
            linear_classification_test_frame (Co := Toy.collaborators)
              Toy.encoder (weights Toy.world)
              [[1; 2]; [3; 6]]%R [0; 1]%Z [[3; 2]; [1; 6]]%R [0; 1]%Z ∅ = Ok fr)
    by (eexists; reflexivity).
  destruct H as [fr H]. exists fr. split; [exact H|].
  exact (proj1 (linear_probe_scaler_from_train_only (Co := Toy.collaborators)
                  _ _ _ _ _ _ _ fr H)).
Defined.

Lemma confusion_image_normalized_witness :
  ∃ (st' : @St Toy.types) (cm : list (list nat)) (m : nat),
    _linear_classification_test (Co := Toy.collaborators) None
      (probe_trainer, Toy.world) = Ok st'
    ∧ cm_max cm = Ok m
    ∧ (1 ≤ m)%nat.
Proof.
  assert (H : ∃ st' : @St Toy.types,
            _linear_classification_test (Co := Toy.collaborators) None
              (probe_trainer, Toy.world) = Ok st')
    by (eexists; reflexivity).
  destruct H as [st' H].
  destruct (confusion_image_normalized (Co := Toy.collaborators)
              None (probe_trainer, Toy.world) st' H)
    as (acc & cm & m & _ & Hm & Hpos & _).
  exists st', cm, m. split; [exact H|]. split; assumption.
Defined.

(** ** Evaluation and the hyperparameter registry *)

Section Evaluation.
Context {Ty : Types} {Co : @Collaborators Ty}.
Local Open Scope list_scope.

(** The state [_linear_classification_test] returns, given the metrics of
    the probe. *)
Definition probe_recorded (params : option (list (string * PyVal)))
    (acc : R) (img : list (list (list (list R)))) (st : St) : St :=
  let st1 := _record_images "linear_classification_confusion_matrix" img
               (_record_scalars "linear_classification_accuracy" acc st) in
  match params, _hparams_config st.1 with
  | Some ps, None =>
      (set_hparams_config (Some (map fst ps)) st1.1,
       emit (EvHParams ps)
         (emit (EvHParamsConfig (map fst ps) "linear_classification_accuracy")
               st1.2))
  | _, _ => st1
  end.

Lemma _linear_classification_test_eq params (st : St) acc cm img :
  linear_classification_test (fcn st.1) (weights st.2)
    (train_data st.1) (_downstream_train_labels st.1)
    (test_data st.1) (_downstream_test_labels st.1)
    (input_config (configs st.1)) = Ok (acc, cm) →
  normalized_confusion_image cm = Ok img →
  _linear_classification_test params st = Ok (probe_recorded params acc img st).
Proof.
  intros Hlt Himg. unfold _linear_classification_test, probe_recorded.
  rewrite Hlt. cbn [mbind Result_bind]. rewrite Himg. cbn [mbind Result_bind].
  destruct params as [ps|]; [|done].
  cbn [_record_images _record_scalars fst snd].
  by destruct (_hparams_config st.1).
Qed.

Lemma _linear_classification_test_inv params (st st' : St) :
  _linear_classification_test params st = Ok st' →
  ∃ acc cm img,
    linear_classification_test (fcn st.1) (weights st.2)
      (train_data st.1) (_downstream_train_labels st.1)
      (test_data st.1) (_downstream_test_labels st.1)
      (input_config (configs st.1)) = Ok (acc, cm)
    ∧ normalized_confusion_image cm = Ok img
    ∧ st' = probe_recorded params acc img st.
Proof.
  intros Hrun.
  destruct (linear_classification_test (fcn st.1) (weights st.2)
              (train_data st.1) (_downstream_train_labels st.1)
              (test_data st.1) (_downstream_test_labels st.1)
              (input_config (configs st.1))) as [[acc cm]|e] eqn:Hlt.
  - destruct (normalized_confusion_image cm) as [img|e] eqn:Himg.
    + rewrite (_linear_classification_test_eq params st acc cm img Hlt Himg) in Hrun.
      injection Hrun as <-. by exists acc, cm, img.
    + unfold _linear_classification_test in Hrun. rewrite Hlt in Hrun.
      cbn [mbind Result_bind] in Hrun. by rewrite Himg in Hrun.
  - unfold _linear_classification_test in Hrun. by rewrite Hlt in Hrun.
Qed.

(** The events that touch the hyperparameter registry. *)
Definition is_hparam_event (e : Event) : bool :=
  match e with
  | EvHParamsConfig _ _ | EvHParams _ => true
  | _ => false
  end.

Definition hparam_events (evs : list Event) : list Event :=
  List.filter is_hparam_event evs.

Lemma hparam_events_emit e (w : World) :
  hparam_events (events (emit e w))
  = hparam_events (events w) ++ (if is_hparam_event e then [e] else []).
Proof.
  unfold hparam_events, emit. cbn [events]. rewrite List.filter_app. simpl.
  by destruct (is_hparam_event e).
Qed.

(** What the probe reads of the state. *)
Lemma probe_recorded_reads params acc img (st : St) :
  let st' := probe_recorded params acc img st in
  fcn st'.1 = fcn st.1 ∧ weights st'.2 = weights st.2
  ∧ train_data st'.1 = train_data st.1
  ∧ _downstream_train_labels st'.1 = _downstream_train_labels st.1
  ∧ test_data st'.1 = test_data st.1
  ∧ _downstream_test_labels st'.1 = _downstream_test_labels st.1
  ∧ configs st'.1 = configs st.1
  ∧ step st'.1 = step st.1.
Proof.
  unfold probe_recorded. destruct params as [ps|]; [|done].
  by destruct (_hparams_config st.1).
Qed.

(** [evaluate] registers the hyperparameters at most once per trainer:
    the first successful call registers the three names and their values
    from the model bucket and marks the trainer; every later call succeeds
    too, records the same accuracy and image again, and leaves the registry
    and the trainer alone. *)
Theorem evaluate_registers_hparams_once (st st1 : St) :
  evaluate st = Ok st1 →
  is_Some (_hparams_config st1.1)
  ∧ (_hparams_config st.1 = None →
       ∃ a b c,
         config (configs st.1) !! "temperature" = Some a
         ∧ config (configs st.1) !! "num_hidden" = Some b
         ∧ config (configs st.1) !! "output_dim" = Some c
         ∧ _hparams_config st1.1 = Some ["temperature"; "num_hidden"; "output_dim"]
         ∧ hparam_events (events st1.2)
           = hparam_events (events st.2)
             ++ [EvHParamsConfig ["temperature"; "num_hidden"; "output_dim"]
                   "linear_classification_accuracy";
                 EvHParams [("temperature", a); ("num_hidden", b);
                            ("output_dim", c)]])
  ∧ (is_Some (_hparams_config st.1) →
       st1.1 = st.1 ∧ hparam_events (events st1.2) = hparam_events (events st.2))
  ∧ ∃ st2 acc img,
      evaluate st1 = Ok st2
      ∧ st2.1 = st1.1
      ∧ hparam_events (events st2.2) = hparam_events (events st1.2)
      ∧ metric_events (events st2.2)
        = metric_events (events st1.2)
          ++ [EvScalar "linear_classification_accuracy" acc (step st.1);
              EvImage "linear_classification_confusion_matrix" img (step st.1)]
      ∧ EvScalar "linear_classification_accuracy" acc (step st.1) ∈ events st1.2.
Proof.
  intros Hev. unfold evaluate in Hev.
  destruct (_hparams_config st.1) as [names|] eqn:Hh.
  - apply _linear_classification_test_inv in Hev as (acc & cm & img & Hlt & Himg & ->).
    unfold probe_recorded.
    cbn [_record_images _record_scalars fst snd].
    split; [by rewrite Hh|]. split; [done|]. split.
    { intros _. split; [done|]. rewrite !hparam_events_emit. simpl.
      by rewrite !app_nil_r. }
    eexists _, acc, img. unfold evaluate, _record_images, _record_scalars.
    cbn [fst snd]. rewrite Hh.
    match goal with |- context [_linear_classification_test None ?s] =>
      rewrite (_linear_classification_test_eq None s acc cm img Hlt Himg) end.
    split; [reflexivity|]. unfold probe_recorded.
    cbn [_record_images _record_scalars fst snd emit events].
    split; [done|]. split.
    { unfold hparam_events. rewrite !List.filter_app. simpl.
      by rewrite !app_nil_r. }
    split; [|set_solver].
    unfold metric_events. rewrite !List.filter_app. simpl.
    by rewrite <- ?app_assoc.
  - destruct (lookup_config "temperature" st.1) as [a|e] eqn:Ha; [|done].
    destruct (lookup_config "num_hidden" st.1) as [b|e] eqn:Hb; [|done].
    destruct (lookup_config "output_dim" st.1) as [c|e] eqn:Hc; [|done].
    cbn [mbind Result_bind] in Hev.
    apply _linear_classification_test_inv in Hev as (acc & cm & img & Hlt & Himg & ->).
    unfold probe_recorded. rewrite Hh.
    cbn [_record_images _record_scalars fst snd map].
    split; [done|]. split.
    { intros _. exists a, b, c.
      unfold lookup_config in Ha, Hb, Hc.
      destruct (config (configs st.1) !! "temperature") eqn:Ea; [|done].
      destruct (config (configs st.1) !! "num_hidden") eqn:Eb; [|done].
      destruct (config (configs st.1) !! "output_dim") eqn:Ec; [|done].
      injection Ha as ->. injection Hb as ->. injection Hc as ->.
      split; [done|]. split; [done|]. split; [done|]. split; [done|].
      rewrite !hparam_events_emit. simpl. by rewrite !app_nil_r, <- app_assoc. }
    split; [by intros [? ?]|].
    eexists _, acc, img. unfold evaluate, _record_images, _record_scalars.
    cbn [fst snd set_hparams_config _hparams_config].
    match goal with |- context [_linear_classification_test None ?s] =>
      rewrite (_linear_classification_test_eq None s acc cm img Hlt Himg) end.
    split; [reflexivity|]. unfold probe_recorded.
    cbn [_record_images _record_scalars fst snd emit events set_hparams_config
         _hparams_config step].
    split; [done|]. split.
    { unfold hparam_events. rewrite !List.filter_app. simpl.
      by rewrite !app_nil_r. }
    split; [|set_solver].
    unfold metric_events. rewrite !List.filter_app. simpl.
    by rewrite <- ?app_assoc.
Qed.

End Evaluation.

Section Constructed.
Context {Ty : Types} {Co : @Collaborators Ty}.
Local Open Scope list_scope.

(** The keyword arguments [SimCLRTrainer.__init__] hands to
    [_parse_configs]. *)
Definition init_kwargs (augment : PyVal) (temperature : R)
    (num_hidden output_dim : Z) (lr : R) (lr_decay : Z)
    (imshape : PyVal * PyVal) (num_channels norm : PyVal) (batch_size : Z)
    (num_parallel_calls single_channel notes : PyVal)
  : list (string * PyVal) :=
  [("augment", augment); ("temperature", PyFloat temperature);
   ("num_hidden", PyInt num_hidden); ("output_dim", PyInt output_dim);
   ("lr", PyFloat lr); ("lr_decay", PyInt lr_decay);
   ("imshape", PyTuple [imshape.1; imshape.2]);
   ("num_channels", num_channels); ("norm", norm);
   ("batch_size", PyInt batch_size);
   ("num_parallel_calls", num_parallel_calls);
   ("single_channel", single_channel); ("notes", notes)].

(** The configuration and the registry of a freshly built trainer, and
    what building it has written. *)
Lemma SimCLRTrainer_init_configs ld td testdata fcn augment
    temperature num_hidden output_dim lr lr_decay imshape num_channels norm
    batch_size num_parallel_calls single_channel notes downstream_labels g st0 :
  SimCLRTrainer_init ld td testdata fcn augment temperature num_hidden
    output_dim lr lr_decay imshape num_channels norm batch_size
    num_parallel_calls single_channel notes downstream_labels g = Ok st0 →
  let cfg := _parse_configs
               (init_kwargs augment temperature num_hidden output_dim lr
                  lr_decay imshape num_channels norm batch_size
                  num_parallel_calls single_channel notes) in
  configs st0.1 = cfg
  ∧ _hparams_config st0.1 = None
  ∧ events st0.2
    = [EvFileWriter ld; EvYamlDump (path_join ld "config.yml") (config_dict cfg)].
Proof.
  unfold SimCLRTrainer_init.
  destruct (assert _ _) as [[]|e]; cbn [mbind Result_bind]; [|done].
  destruct cifar10_load_data as [[trd trl] [ted tel]].
  destruct (match fcn with FcnStr "ResNet50" => _ | _ => _ end) as [|s|f];
    cbn [mbind Result_bind]; try done.
  destruct (_build_simclr_dataset _ _ _ _ _ _ _ _) as [ds|e];
    cbn [mbind Result_bind]; [|done].
  intros H. injection H as <-. done.
Qed.

(** The buckets of a constructed trainer: the model bucket has the six
    hyperparameters, the input bucket the six loader parameters
    ([shuffle] and [sobel] are not among them), and the augmentation is
    kept apart; the YAML file written last holds exactly these. *)
Theorem SimCLRTrainer_init_buckets ld td testdata fcn augment
    temperature num_hidden output_dim lr lr_decay imshape num_channels norm
    batch_size num_parallel_calls single_channel notes downstream_labels g st0 :
  SimCLRTrainer_init ld td testdata fcn augment temperature num_hidden
    output_dim lr lr_decay imshape num_channels norm batch_size
    num_parallel_calls single_channel notes downstream_labels g = Ok st0 →
  let c := configs st0.1 in
  config c
  = list_to_map [("temperature", PyFloat temperature);
                 ("num_hidden", PyInt num_hidden);
                 ("output_dim", PyInt output_dim);
                 ("lr", PyFloat lr); ("lr_decay", PyInt lr_decay);
                 ("notes", notes)]
  ∧ input_config c
    = list_to_map [("imshape", PyTuple [imshape.1; imshape.2]);
                   ("num_channels", num_channels); ("norm", norm);
                   ("batch_size", PyInt batch_size);
                   ("num_parallel_calls", num_parallel_calls);
                   ("single_channel", single_channel)]
  ∧ augment_config c = augment
  ∧ input_config c !! "shuffle" = None
  ∧ input_config c !! "sobel" = None
  ∧ last (events st0.2)
    = Some (EvYamlDump (path_join ld "config.yml")
              [("model", PyDict (map_to_list (config c)));
               ("input", PyDict (map_to_list (input_config c)));
               ("augment", augment)]).
Proof.
  intros Hinit c.
  destruct (SimCLRTrainer_init_configs _ _ _ _ _ _ _ _ _ _ _ _ _ _ _ _ _ _ _ _
              Hinit) as (Hc & _ & Hev).
  unfold c. rewrite Hev, Hc. clear.
  repeat split; reflexivity.
Qed.

(** [evaluate] on a freshly built trainer finds its three
    hyperparameters in the model bucket, so it raises no [KeyError]: it is
    the linear probe with the temperature, hidden width and output
    dimension the constructor was given.  On a trainer without a registry
    whose model bucket lacks the temperature, it raises [KeyError] before
    the probe is run. *)
Theorem evaluate_after_init ld td testdata fcn augment
    temperature num_hidden output_dim lr lr_decay imshape num_channels norm
    batch_size num_parallel_calls single_channel notes downstream_labels g st0 :
  SimCLRTrainer_init ld td testdata fcn augment temperature num_hidden
    output_dim lr lr_decay imshape num_channels norm batch_size
    num_parallel_calls single_channel notes downstream_labels g = Ok st0 →
  evaluate st0
  = _linear_classification_test
      (Some [("temperature", PyFloat temperature);
             ("num_hidden", PyInt num_hidden);
             ("output_dim", PyInt output_dim)]) st0
  ∧ (∀ st : St,
       _hparams_config st.1 = None →
       config (configs st.1) !! "temperature" = None →
       evaluate st = Raise (KeyError "temperature")).
Proof.
  intros Hinit.
  destruct (SimCLRTrainer_init_configs _ _ _ _ _ _ _ _ _ _ _ _ _ _ _ _ _ _ _ _
              Hinit) as (Hc & Hh & _).
  split.
  - unfold evaluate, lookup_config. rewrite Hh, Hc. reflexivity.
  - intros st Hn Ht. unfold evaluate, lookup_config. by rewrite Hn, Ht.
Qed.

End Constructed.

Lemma evaluate_registers_hparams_once_witness :
  ∃ st1 : @St Toy.types,
    evaluate (Co := Toy.collaborators) (probe_trainer, Toy.world) = Ok st1
    ∧ is_Some (_hparams_config st1.1).
Proof.
  assert (H : ∃ st1 : @St Toy.types,
            evaluate (Co := Toy.collaborators) (probe_trainer, Toy.world) = Ok st1)
    by (eexists; reflexivity).
  destruct H as [st1 H]. exists st1. split; [exact H|].
  exact (proj1 (evaluate_registers_hparams_once (Co := Toy.collaborators)
                  (probe_trainer, Toy.world) st1 H)).
Defined.

Lemma SimCLRTrainer_init_buckets_witness :
  ∃ st0 : @St Toy.types,
    Toy.init (PyBool true) 1%R 2 PyNone Toy.seed = Ok st0
    ∧ augment_config (configs st0.1) = PyBool true
    ∧ input_config (configs st0.1) !! "shuffle" = None.
Proof.
  destruct (SimCLRTrainer_init_ok (Co := Toy.collaborators)
           "logs" PyNone PyNone Toy.encoder
           (PyBool true) 1%R 128 64 (1 / 100)%R 10000 (PyInt 32, PyInt 32)
           (PyInt 3) (PyInt 255) 2 PyNone (PyBool false) (PyStr "") PyNone
           Toy.seed eq_refl eq_refl) as (st0 & Hst0 & _).
  destruct (SimCLRTrainer_init_buckets (Co := Toy.collaborators)
              _ _ _ _ _ _ _ _ _ _ _ _ _ _ _ _ _ _ _ st0 Hst0)
    as (_ & _ & Ha & Hs & _).
  exists st0. split; [exact Hst0|]. split; assumption.
Defined.

Lemma evaluate_after_init_witness :
  ∃ st0 : @St Toy.types,
    Toy.init (PyBool true) 1%R 2 PyNone Toy.seed = Ok st0
    ∧ evaluate (Co := Toy.collaborators) st0
      = _linear_classification_test (Co := Toy.collaborators)
          (Some [("temperature", PyFloat 1); ("num_hidden", PyInt 128);
                 ("output_dim", PyInt 64)]) st0.
Proof.
  destruct (SimCLRTrainer_init_ok (Co := Toy.collaborators)
           "logs" PyNone PyNone Toy.encoder
           (PyBool true) 1%R 128 64 (1 / 100)%R 10000 (PyInt 32, PyInt 32)
           (PyInt 3) (PyInt 255) 2 PyNone (PyBool false) (PyStr "") PyNone
           Toy.seed eq_refl eq_refl) as (st0 & Hst0 & _).
  exists st0. split; [exact Hst0|].
  exact (proj1 (evaluate_after_init (Co := Toy.collaborators)
                  _ _ _ _ _ _ _ _ _ _ _ _ _ _ _ _ _ _ _ st0 Hst0)).
Defined.

Section Encoder.
Context {Ty : Types} {Co : @Collaborators Ty}.
Local Open Scope list_scope.

(** [fcn == 'ResNet50'] *)
Definition names_resnet (fcn : FcnArg) : bool :=
  match fcn with
  | FcnStr s => String.eqb s "ResNet50"
  | _ => false
  end.

Lemma resnet_choice (fcn : FcnArg) :
  match fcn with
  | FcnStr "ResNet50" => FcnModel ResNet50V2
  | _ => fcn
  end
  = if names_resnet fcn then FcnModel ResNet50V2 else fcn.
Proof.
  destruct fcn as [|s|f]; try done. unfold names_resnet.
  destruct (String.eqb_spec s "ResNet50") as [->|H]; [done|].
  repeat (destruct s as [|[[] [] [] [] [] [] [] []] s]; try done).
Qed.

(** The encoder of a trainer.  With [fcn=None], the default, the
    constructor fails with a [TypeError] when it wraps the encoder, as it
    does for every string but 'ResNet50'; an augmentation that is [False]
    fails earlier.  When it succeeds the encoder is the model passed in or
    a fresh ResNet50V2, and the saved models, the training step and the
    initial weights all belong to the embedding model built around that
    encoder. *)
Theorem SimCLRTrainer_init_encoder ld td testdata (fa : FcnArg) augment
    temperature num_hidden output_dim lr lr_decay imshape num_channels norm
    batch_size num_parallel_calls single_channel notes downstream_labels g :
  let result :=
    SimCLRTrainer_init ld td testdata fa augment temperature num_hidden
      output_dim lr lr_decay imshape num_channels norm batch_size
      num_parallel_calls single_channel notes downstream_labels g in
  is_False augment = false →
  (fa = FcnNone →
     result = Raise (TypeError "'NoneType' object is not callable"))
  ∧ (∀ s, fa = FcnStr s → s ≠ "ResNet50" →
       result = Raise (TypeError "'str' object is not callable"))
  ∧ (∀ st0 : St, result = Ok st0 →
       (fa = FcnModel (fcn st0.1)
        ∨ (fa = FcnStr "ResNet50" ∧ fcn st0.1 = ResNet50V2))
       ∧ let embed_model :=
           _build_embedding_model (fcn st0.1) imshape num_channels
             num_hidden output_dim in
         _models st0.1 = [("fcn", [LApply (fcn st0.1)]); ("full", embed_model)]
         ∧ _training_step_model st0.1 = embed_model
         ∧ weights st0.2 = keras_init embed_model).
Proof.
  intros result Ha. unfold result, SimCLRTrainer_init. rewrite Ha.
  cbn [negb assert mbind Result_bind].
  destruct cifar10_load_data as [[trd trl] [ted tel]].
  rewrite resnet_choice.
  split; [by intros ->|]. split.
  - intros s -> Hs. unfold names_resnet.
    by destruct (String.eqb_spec s "ResNet50").
  - intros st0 Hst0.
    destruct fa as [|s|f]; cbn [names_resnet] in Hst0; [done| |].
    + destruct (String.eqb_spec s "ResNet50") as [->|Hs]; [|done].
      cbn [mbind Result_bind] in Hst0.
      destruct (_build_simclr_dataset _ _ _ _ _ _ _ _) as [ds|e];
        cbn [mbind Result_bind] in Hst0; [|done].
      injection Hst0 as <-. cbn [fst snd]. split; [by right|done].
    + cbn [mbind Result_bind] in Hst0.
      destruct (_build_simclr_dataset _ _ _ _ _ _ _ _) as [ds|e];
        cbn [mbind Result_bind] in Hst0; [|done].
      injection Hst0 as <-. cbn [fst snd]. split; [by left|done].
Qed.

End Encoder.

Lemma SimCLRTrainer_init_encoder_witness :
  is_False (PyBool true) = false
  ∧ SimCLRTrainer_init (Co := Toy.collaborators) "logs" PyNone PyNone FcnNone
      (PyBool true) 1%R 128 64 (1 / 100)%R 10000 (PyInt 32, PyInt 32)
      (PyInt 3) (PyInt 255) 2 PyNone (PyBool false) (PyStr "") PyNone Toy.seed
    = Raise (TypeError "'NoneType' object is not callable").
Proof.
  split; [reflexivity|].
  exact (proj1 (SimCLRTrainer_init_encoder (Co := Toy.collaborators)
                  "logs" PyNone PyNone FcnNone
                  (PyBool true) 1%R 128 64 (1 / 100)%R 10000 (PyInt 32, PyInt 32)
                  (PyInt 3) (PyInt 255) 2 PyNone (PyBool false) (PyStr "") PyNone
                  Toy.seed eq_refl) eq_refl).
Defined.

(** ** Saving and the epochs of [fit] *)

Section FitAndSave.
Context {Ty : Types} {Co : @Collaborators Ty}.
Local Open Scope list_scope.

(** The writes of one call of [save]. *)
Definition model_writes (t : Trainer) (ws : Weights) : list Event :=
  map (fun m => EvModelSave (path_join (logdir t) (m.1 +:+ ".h5")) m.2 ws)
      (_models t).

Lemma save_events (t : Trainer) (w : World) :
  save (t, w)
  = (t, mkWorld (weights w) (opt_state w) (rng w)
          (events w ++ model_writes t (weights w))).
Proof.
  unfold save, model_writes. cbn [fst snd].
  generalize (_models t) as ms. intros ms. revert w.
  induction ms as [|m ms IH]; intros w; cbn [foldl map].
  - destruct w. cbn. by rewrite app_nil_r.
  - cbn [fst snd]. rewrite IH. cbn [emit weights opt_state rng events].
    by rewrite <- app_assoc.
Qed.

(** [save] writes every model of [_models] once, in the order of the
    dictionary, to [<logdir>/<name>.h5] with the current weights, and
    touches nothing else; a second call writes the same files with the
    same contents again. *)
Theorem save_writes_each_model (st : St) :
  (save st).1 = st.1
  ∧ weights (save st).2 = weights st.2
  ∧ opt_state (save st).2 = opt_state st.2
  ∧ rng (save st).2 = rng st.2
  ∧ events (save st).2 = events st.2 ++ model_writes st.1 (weights st.2)
  ∧ length (model_writes st.1 (weights st.2)) = length (_models st.1)
  ∧ events (save (save st)).2
    = events st.2 ++ model_writes st.1 (weights st.2)
      ++ model_writes st.1 (weights st.2).
Proof.
  destruct st as [t w]. rewrite !save_events. cbn [fst snd weights events].
  repeat split; try done.
  - unfold model_writes. by rewrite length_map.
  - by rewrite <- app_assoc.
Qed.

(** [for e in range(epochs)]: no epoch is run for [epochs <= 0], and
    [a + b] epochs are [a] epochs followed by [b] epochs, an error of the
    first part ending the run. *)
Theorem fit_epochs_compose (run ev : St → Result St) (sf e : bool) (st : St) :
  (∀ epochs, (epochs ≤ 0)%Z → fit run ev epochs sf e st = Ok st)
  ∧ (∀ a b, (0 ≤ a)%Z → (0 ≤ b)%Z →
       fit run ev (a + b) sf e st
       = st1 ← fit run ev a sf e st; fit run ev b sf e st1).
Proof.
  split.
  - intros epochs He. unfold fit.
    by replace (Z.to_nat epochs) with 0 by lia.
  - intros a b Ha Hb. unfold fit. rewrite Z2Nat.inj_add by done.
    generalize (Z.to_nat a) as n. generalize (Z.to_nat b) as m. clear.
    intros m n. revert st. induction n as [|n IH]; intros st; [done|].
    cbn [Nat.add fit_loop]. destruct (run st) as [st1|err]; [|done].
    cbn [mbind Result_bind]. apply IH.
Qed.

End FitAndSave.

Lemma fit_epochs_compose_witness :
  (0 ≤ 1)%Z ∧ (0 ≤ 2)%Z
  ∧ SimCLRTrainer_fit (Co := Toy.collaborators) (1 + 2) true true
      (probe_trainer, Toy.world)
    = st1 ← SimCLRTrainer_fit (Co := Toy.collaborators) 1 true true
              (probe_trainer, Toy.world);
      SimCLRTrainer_fit (Co := Toy.collaborators) 2 true true st1.
Proof.
  split; [lia|]. split; [lia|].
  exact (proj2 (fit_epochs_compose (Ty := Toy.types)
                  _run_training_epoch evaluate true true
                  (probe_trainer, Toy.world)) 1%Z 2%Z ltac:(lia) ltac:(lia)).
Defined.

(** ** The trace of the training steps *)

Section TrainingTrace.
Context {Ty : Types} {Co : @Collaborators Ty}.
Local Open Scope list_scope.

(** What one pass of the loop body of [_run_training_epoch] writes at
    step [s] for the loss [l]: the console line on every hundredth step,
    then the scalar. *)
Definition step_events (s : Z) (l : R) : list Event :=
  (if (s mod 100 =? 0)%Z then [EvPrint s l] else [])
  ++ [EvScalar "loss" l s].

(** The events of consecutive steps from [s] on, one per loss. *)
Definition steps_events (s : Z) (losses : list R) : list Event :=
  concat (imap (fun k l => step_events (s + Z.of_nat k) l) losses).

Lemma steps_events_cons s l losses :
  steps_events s (l :: losses) = step_events s l ++ steps_events (s + 1) losses.
Proof.
  unfold steps_events. rewrite imap_cons. cbn [concat].
  rewrite Z.add_0_r. do 2 f_equal. apply imap_ext. intros k x _. simpl.
  f_equal. lia.
Qed.

Lemma training_step_inv m τ r x y (w : World) l w' :
  training_step m τ r x y w = Ok (l, w') →
  events w' = events w ∧ rng w' = rng w.
Proof.
  unfold training_step.
  destruct (simclr_loss _ _ _ _ _) as [l0|e]; cbn [mbind Result_bind]; [|done].
  destruct (apply_gradients _ _) as [o ws]. by intros [= <- <-].
Qed.

Lemma _run_training_batch_inv (t : Trainer) (w : World) (b : Batch) (st' : St) :
  _run_training_batch (t, w) b = Ok st' →
  st'.1 = set_step (step t + 1) t
  ∧ rng st'.2 = rng w
  ∧ ∃ l, events st'.2 = events w ++ step_events (step t) l.
Proof.
  unfold _run_training_batch, _build_simclr_training_step. cbn [fst snd].
  destruct (training_step _ _ _ _ _ _) as [[l w1]|e] eqn:Hts;
    cbn [mbind Result_bind]; [|done].
  apply training_step_inv in Hts as [Hev Hrng].
  intros [= <-]. cbn [fst snd _record_scalars]. split; [done|].
  unfold step_events.
  destruct (step t mod 100 =? 0)%Z; cbn [emit events rng].
  - split; [done|]. exists l. by rewrite Hev, <- app_assoc.
  - split; [done|]. exists l. by rewrite Hev.
Qed.

Lemma run_batches_inv (bs : list Batch) (t : Trainer) (w : World) (st' : St) :
  run_batches bs (t, w) = Ok st' →
  st'.1 = set_step (step t + Z.of_nat (length bs)) t
  ∧ rng st'.2 = rng w
  ∧ ∃ losses, length losses = length bs
              ∧ events st'.2 = events w ++ steps_events (step t) losses.
Proof.
  revert t w. induction bs as [|b bs IH]; intros t w; cbn [run_batches].
  - intros [= <-]. cbn [fst snd length]. rewrite Z.add_0_r, set_step_id.
    split; [done|]. split; [done|]. exists []. by rewrite app_nil_r.
  - destruct (_run_training_batch (t, w) b) as [[t1 w1]|e] eqn:Hb;
      cbn [mbind Result_bind]; [|done].
    apply _run_training_batch_inv in Hb as (Ht1 & Hr1 & l & He1).
    cbn [fst snd] in *. subst t1. intros Hrest.
    apply IH in Hrest as (Ht' & Hr' & losses & Hlen & He').
    rewrite step_set_step, set_step_set_step in *.
    split; [rewrite Ht'; f_equal; cbn [length]; lia|].
    split; [congruence|].
    exists (l :: losses). split; [cbn [length]; lia|].
    by rewrite He', He1, steps_events_cons, <- app_assoc.
Qed.

Lemma elem_of_steps_events_print (s0 : Z) (losses : list R) (s : Z) (l : R) :
  EvPrint s l ∈ steps_events s0 losses
  ↔ ∃ k, losses !! k = Some l ∧ s = (s0 + Z.of_nat k)%Z ∧ (s mod 100 = 0)%Z.
Proof.
  unfold steps_events. rewrite list_elem_of_In, in_concat. split.
  - intros (evs & Hevs & Hin).
    apply list_elem_of_In, elem_of_lookup_imap in Hevs as (k & l0 & -> & Hk).
    apply list_elem_of_In in Hin. unfold step_events in Hin.
    destruct (Z.eqb_spec ((s0 + Z.of_nat k) mod 100) 0) as [Hmod|Hmod].
    + apply elem_of_app in Hin as [Hin|Hin].
      * apply list_elem_of_singleton in Hin. injection Hin as -> ->.
        by exists k.
      * apply list_elem_of_singleton in Hin. discriminate.
    + apply elem_of_app in Hin as [Hin|Hin]; [by apply elem_of_nil in Hin|].
      apply list_elem_of_singleton in Hin. discriminate.
  - intros (k & Hk & -> & Hmod).
    exists (step_events (s0 + Z.of_nat k) l). split.
    + apply list_elem_of_In, elem_of_lookup_imap. by exists k, l.
    + apply list_elem_of_In. unfold step_events.
      apply Z.eqb_eq in Hmod. rewrite Hmod. set_solver.
Qed.

(** The trace of one pass over the dataset. *)
Lemma _run_training_epoch_inv (st st' : St) :
  _run_training_epoch st = Ok st' →
  let s := step st.1 in
  let B := length (_ds st.1 (rng st.2)).1 in
  ∃ losses : list R,
    length losses = B
    ∧ st'.1 = set_step (s + Z.of_nat B) st.1
    ∧ rng st'.2 = (_ds st.1 (rng st.2)).2
    ∧ events st'.2 = events st.2 ++ steps_events s losses
    ∧ omap mark (steps_events s losses)
      = map (fun k => MStep (s + Z.of_nat k)) (seq 0 B)
    ∧ ∀ z l, EvPrint z l ∈ steps_events s losses
             ↔ ∃ k, losses !! k = Some l ∧ z = (s + Z.of_nat k)%Z
                    ∧ (z mod 100 = 0)%Z.
Proof.
  intros Hrun s B. unfold _run_training_epoch in Hrun.
  destruct st as [t w]. cbn [fst snd] in *.
  destruct (_ds t (rng w)) as [bs g] eqn:Hds. cbn [fst snd] in *.
  apply run_batches_inv in Hrun as (Ht & Hr & losses & Hlen & Hev).
  cbn [fst snd step rng events] in *.
  exists losses. split; [done|]. split; [done|]. split; [done|].
  split; [done|]. split; [|intros z l; apply elem_of_steps_events_print].
  unfold B. rewrite <- Hlen. clear. fold s. generalize s. clear.
  induction losses as [|l losses IH]; intros s; [done|].
  rewrite steps_events_cons, omap_app, IH. cbn [length seq map].
  rewrite Z.add_0_r. unfold step_events.
  destruct (s mod 100 =? 0)%Z; cbn; f_equal;
    rewrite <- seq_shift, map_map; apply map_ext; intros k; f_equal; lia.
Qed.

(** The training steps on the batches, one after the other: each starts
    from the weights and the optimizer state the one before has left, and
    returns its loss. *)
Fixpoint training_steps (t : Trainer) (bs : list Batch) (w : World)
  : Result (list R * World) :=
  match bs with
  | [] => Ok ([], w)
  | b :: bs' =>
      '(l, w1) ← _build_simclr_training_step (_training_step_model t)
                   (_training_step_temperature t) (_training_step_replicas t)
                   b.1 b.2 w;
      '(ls, w2) ← training_steps t bs' w1;
      Ok (l :: ls, w2)
  end.

Lemma training_steps_set_step z (t : Trainer) bs (w : World) :
  training_steps (set_step z t) bs w = training_steps t bs w.
Proof.
  revert w. induction bs as [|b bs IH]; intros w; [done|].
  cbn [training_steps set_step _training_step_model _training_step_temperature
       _training_step_replicas].
  destruct (_build_simclr_training_step _ _ _ _ _ _) as [[l w1]|e]; [|done].
  cbn [mbind Result_bind]. by rewrite IH.
Qed.

(** A training step reads the weights and the optimizer state only, and
    passes the generator and the log through. *)
Lemma training_step_frame m τ r x y (w : World) l w' g evs :
  training_step m τ r x y w = Ok (l, w') →
  training_step m τ r x y (mkWorld (weights w) (opt_state w) g evs)
  = Ok (l, mkWorld (weights w') (opt_state w') g evs).
Proof.
  unfold training_step. cbn [weights opt_state rng events].
  destruct (simclr_loss _ _ _ _ _) as [l0|e]; cbn [mbind Result_bind]; [|done].
  destruct (apply_gradients _ _) as [o ws]. by intros [= <- <-].
Qed.

Lemma training_steps_frame (t : Trainer) bs (w : World) ls wT g evs :
  training_steps t bs w = Ok (ls, wT) →
  training_steps t bs (mkWorld (weights w) (opt_state w) g evs)
  = Ok (ls, mkWorld (weights wT) (opt_state wT) g evs).
Proof.
  revert w ls. induction bs as [|b bs IH]; intros w ls; cbn [training_steps].
  - by intros [= <- <-].
  - unfold _build_simclr_training_step.
    destruct (training_step _ _ _ _ _ w) as [[l w1]|e] eqn:Hs;
      cbn [mbind Result_bind]; [|done].
    rewrite (training_step_frame _ _ _ _ _ _ _ _ g evs Hs).
    cbn [mbind Result_bind].
    destruct (training_steps t bs w1) as [[ls' w2]|e] eqn:Hrest;
      cbn [mbind Result_bind]; [|done].
    intros [= <- <-].
    by rewrite (IH _ _ Hrest).
Qed.

Lemma run_batches_steps (bs : list Batch) (t : Trainer) (w : World) (st' : St) :
  run_batches bs (t, w) = Ok st' →
  ∃ losses wT,
    training_steps t bs w = Ok (losses, wT)
    ∧ length losses = length bs
    ∧ st'.1 = set_step (step t + Z.of_nat (length bs)) t
    ∧ weights st'.2 = weights wT
    ∧ opt_state st'.2 = opt_state wT
    ∧ rng st'.2 = rng w
    ∧ events st'.2 = events w ++ steps_events (step t) losses.
Proof.
  revert t w. induction bs as [|b bs IH]; intros t w; cbn [run_batches].
  - intros [= <-]. exists [], w. cbn [fst snd length training_steps].
    rewrite Z.add_0_r, set_step_id, app_nil_r. done.
  - unfold _run_training_batch at 1. cbn [fst snd].
    unfold _build_simclr_training_step at 1.
    destruct (training_step _ _ _ _ _ w) as [[l w0]|e] eqn:Hs;
      cbn [mbind Result_bind]; [|done].
    destruct (training_step_inv _ _ _ _ _ _ _ _ Hs) as [Hev0 Hrng0].
    set (w1 := (_record_scalars "loss" l
                  (t, if (step t mod 100 =? 0)%Z
                      then emit (EvPrint (step t) l) w0 else w0)).2).
    assert (Hw1 : weights w1 = weights w0 ∧ opt_state w1 = opt_state w0
                  ∧ rng w1 = rng w ∧ events w1 = events w ++ step_events (step t) l).
    { unfold w1, step_events, _record_scalars. cbn [fst snd].
      destruct (step t mod 100 =? 0)%Z; cbn [emit weights opt_state rng events];
        rewrite Hev0, ?Hrng0, <- ?app_assoc; done. }
    destruct Hw1 as (Hw & Ho & Hr & He).
    cbn [_record_scalars fst snd]. fold w1. intros Hrest.
    apply IH in Hrest as (ls & wT & Hsteps & Hlen & Ht' & Hw' & Ho' & Hr' & He').
    rewrite training_steps_set_step in Hsteps.
    apply (training_steps_frame _ _ _ _ _ (rng w0) (events w0)) in Hsteps.
    rewrite Hw, Ho in Hsteps.
    replace (mkWorld (weights w0) (opt_state w0) (rng w0) (events w0))
      with w0 in Hsteps by (by destruct w0).
    eexists (l :: ls), _. cbn [training_steps].
    unfold _build_simclr_training_step. rewrite Hs. cbn [mbind Result_bind].
    rewrite Hsteps. cbn [mbind Result_bind]. split; [reflexivity|].
    rewrite step_set_step, set_step_set_step in *.
    cbn [weights opt_state length].
    split; [lia|]. split; [rewrite Ht'; f_equal; lia|].
    split; [done|]. split; [done|]. split; [congruence|].
    by rewrite He', He, steps_events_cons, <- app_assoc.
Qed.

(** The trace of one pass over the dataset, with the training steps it
    has run. *)
Lemma _run_training_epoch_steps (st st' : St) :
  _run_training_epoch st = Ok st' →
  let s := step st.1 in
  let bs := (_ds st.1 (rng st.2)).1 in
  let g := (_ds st.1 (rng st.2)).2 in
  ∃ (losses : list R) (wT : World),
    training_steps st.1 bs
      (mkWorld (weights st.2) (opt_state st.2) g (events st.2))
    = Ok (losses, wT)
    ∧ length losses = length bs
    ∧ st'.1 = set_step (s + Z.of_nat (length bs)) st.1
    ∧ weights st'.2 = weights wT
    ∧ opt_state st'.2 = opt_state wT
    ∧ rng st'.2 = g
    ∧ events st'.2 = events st.2 ++ steps_events s losses
    ∧ omap mark (steps_events s losses)
      = map (fun k => MStep (s + Z.of_nat k)) (seq 0 (length bs))
    ∧ ∀ z l, EvPrint z l ∈ steps_events s losses
             ↔ ∃ k, losses !! k = Some l ∧ z = (s + Z.of_nat k)%Z
                    ∧ (z mod 100 = 0)%Z.
Proof.
  intros Hrun s bs g.
  unfold _run_training_epoch in Hrun.
  destruct st as [t w]. cbn [fst snd] in *.
  unfold bs, g. destruct (_ds t (rng w)) as [bs' g'] eqn:Hds. cbn [fst snd] in *.
  apply run_batches_steps in Hrun
    as (losses & wT & Hsteps & Hlen & Ht & Hw & Ho & Hr & Hev).
  cbn [fst snd step rng events weights opt_state] in *.
  exists losses, wT.
  split; [done|]. split; [done|]. split; [done|]. split; [done|].
  split; [done|]. split; [done|]. split; [done|].
  split; [|intros z l; apply elem_of_steps_events_print].
  rewrite <- Hlen. clear. fold s. generalize s. clear.
  induction losses as [|l losses IH]; intros s; [done|].
  rewrite steps_events_cons, omap_app, IH. cbn [length seq map].
  rewrite Z.add_0_r. unfold step_events.
  destruct (s mod 100 =? 0)%Z; cbn; f_equal;
    rewrite <- seq_shift, map_map; apply map_ext; intros k; f_equal; lia.
Qed.

(** One pass over the dataset runs the training step on every batch, in
    order, each step starting from the weights and the optimizer state the
    one before has left: the weights and the optimizer state after the
    pass are those after the last step.  The step counter, which is all
    that changes in the trainer, goes up by one per batch; the loss each
    step returns is recorded under the step number it started with, and
    the console line is printed for exactly the steps whose number is a
    multiple of 100. *)
Theorem epoch_trace (st st' : St) :
  _run_training_epoch st = Ok st' →
  let s := step st.1 in
  let bs := (_ds st.1 (rng st.2)).1 in
  let g := (_ds st.1 (rng st.2)).2 in
  ∃ (losses : list R) (wT : World),
    training_steps st.1 bs
      (mkWorld (weights st.2) (opt_state st.2) g (events st.2))
    = Ok (losses, wT)
    ∧ length losses = length bs
    ∧ st'.1 = set_step (s + Z.of_nat (length bs)) st.1
    ∧ weights st'.2 = weights wT
    ∧ opt_state st'.2 = opt_state wT
    ∧ rng st'.2 = g
    ∧ events st'.2 = events st.2 ++ steps_events s losses
    ∧ omap mark (steps_events s losses)
      = map (fun k => MStep (s + Z.of_nat k)) (seq 0 (length bs))
    ∧ ∀ z l, EvPrint z l ∈ steps_events s losses
             ↔ ∃ k, losses !! k = Some l ∧ z = (s + Z.of_nat k)%Z
                    ∧ (z mod 100 = 0)%Z.
Proof. apply _run_training_epoch_steps. Qed.

End TrainingTrace.

(** A trainer of [Module Toy] whose dataset is the single batch of
    [Toy.views]. *)
Definition one_batch_trainer : @Trainer Toy.types :=
  mkTrainer "logs" PyNone [] [] [] []
    Toy.encoder [("fcn", [LApply Toy.encoder])]
    (fun g => ([(Toy.views, Toy.labels)], g)) [] 1%R 1%R
    PyNone PyNone PyNone 0%Z (mkConfigs ∅ ∅ (PyBool false)) None.

Lemma epoch_trace_witness :
  ∃ (st' : @St Toy.types) (losses : list R),
    _run_training_epoch (Co := Toy.collaborators)
      (one_batch_trainer, Toy.world) = Ok st'
    ∧ length losses = 1%nat
    ∧ step st'.1 = 1%Z.
Proof.
  assert (H : ∃ st' : @St Toy.types,
            _run_training_epoch (Co := Toy.collaborators)
              (one_batch_trainer, Toy.world) = Ok st')
    by (eexists; reflexivity).
  destruct H as [st' H].
  destruct (epoch_trace (Co := Toy.collaborators)
              (one_batch_trainer, Toy.world) st' H)
    as (losses & wT & _ & Hlen & Ht & _).
  exists st', losses. split; [exact H|]. split; [exact Hlen|].
  rewrite Ht. reflexivity.
Defined.

(** ** What [fit] writes *)

Section FitTrace.
Context {Ty : Types} {Co : @Collaborators Ty}.
Local Open Scope list_scope.

(** The events a run of [fit] may add: console lines, loss scalars and,
    if [save] is set, model files. *)
Definition fit_event (save_flag : bool) (e : Event) : Prop :=
  match e with
  | EvPrint _ _ => True
  | EvScalar name _ _ => name = "loss"
  | EvModelSave _ _ _ => save_flag = true
  | _ => False
  end.

Lemma steps_events_fit sf s losses : Forall (fit_event sf) (steps_events s losses).
Proof.
  revert s. induction losses as [|l losses IH]; intros s; [constructor|].
  rewrite steps_events_cons. apply Forall_app. split; [|apply IH].
  unfold step_events. destruct (s mod 100 =? 0)%Z; repeat constructor.
Qed.

Lemma model_writes_fit (t : Trainer) ws : Forall (fit_event true) (model_writes t ws).
Proof.
  unfold model_writes. apply Forall_fmap, Forall_true. done.
Qed.

Lemma fit_loop_inv ev (n : nat) (sf e : bool) (t : Trainer) (w : World) (st' : St) :
  fit_loop _run_training_epoch ev n sf e (t, w) = Ok st' →
  st'.1 = set_step (step st'.1) t
  ∧ (step t ≤ step st'.1)%Z
  ∧ ∃ new, events st'.2 = events w ++ new ∧ Forall (fit_event sf) new.
Proof.
  revert t w. induction n as [|n IH]; intros t w; cbn [fit_loop].
  - intros [= <-]. cbn [fst snd]. rewrite set_step_id.
    split; [done|]. split; [lia|]. exists []. by rewrite app_nil_r.
  - destruct (_run_training_epoch (t, w)) as [[t1 w1]|err] eqn:Hep;
      cbn [mbind Result_bind]; [|done].
    destruct (_run_training_epoch_inv _ _ Hep) as (losses & _ & Ht1 & _ & Hev1 & _).
    cbn [fst snd] in Ht1, Hev1.
    assert (Hsave : ∃ w2 new2, (if sf then save (t1, w1) else (t1, w1)) = (t1, w2)
                               ∧ events w2 = events w1 ++ new2
                               ∧ Forall (fit_event sf) new2).
    { destruct sf.
      - rewrite save_events. eexists _, _. split; [reflexivity|].
        split; [reflexivity|]. apply model_writes_fit.
      - exists w1, []. by rewrite app_nil_r. }
    destruct Hsave as (w2 & new2 & -> & Hev2 & Hnew2).
    intros Hrest. apply IH in Hrest as (Ht' & Hle & new3 & Hev3 & Hnew3).
    rewrite Ht1 in Ht', Hle. rewrite set_step_set_step in Ht'.
    rewrite step_set_step in Hle.
    split; [done|]. split; [lia|].
    exists (steps_events (step t) losses ++ new2 ++ new3).
    split; [by rewrite Hev3, Hev2, Hev1, <- !app_assoc|].
    rewrite !Forall_app. split; [apply steps_events_fit|done].
Qed.

(** Whatever the flags, a run of [fit] changes nothing of the trainer
    but the step counter, which never goes down, and adds to the log only
    console lines, loss scalars and, with [save] set, model files: no
    accuracy, no confusion image, no hyperparameters, no configuration
    file; with [save=False] no model is written. *)
Theorem fit_writes_only_training_events (epochs : Z) (sf e : bool) (st st' : St) :
  SimCLRTrainer_fit epochs sf e st = Ok st' →
  st'.1 = set_step (step st'.1) st.1
  ∧ (step st.1 ≤ step st'.1)%Z
  ∧ ∃ new, events st'.2 = events st.2 ++ new
           ∧ Forall (fit_event sf) new
           ∧ (sf = false → ∀ p m ws, EvModelSave p m ws ∉ new)
           ∧ (∀ name v z, EvScalar name v z ∈ new → name = "loss")
           ∧ (∀ name img z, EvImage name img z ∉ new)
           ∧ (∀ ps, EvHParams ps ∉ new).
Proof.
  intros Hfit. destruct st as [t w]. unfold SimCLRTrainer_fit, fit in Hfit.
  apply fit_loop_inv in Hfit as (Ht & Hle & new & Hev & Hnew).
  split; [done|]. split; [done|]. exists new.
  split; [done|]. split; [done|].
  rewrite Forall_forall in Hnew.
  split; [|split; [|split]].
  - intros -> p m ws Hin. by specialize (Hnew _ Hin).
  - intros name v z Hin. by specialize (Hnew _ Hin).
  - intros name img z Hin. by specialize (Hnew _ Hin).
  - intros ps Hin. by specialize (Hnew _ Hin).
Qed.

End FitTrace.

Lemma fit_writes_only_training_events_witness :
  ∃ st' : @St Toy.types,
    SimCLRTrainer_fit (Co := Toy.collaborators) 2 true true
      (one_batch_trainer, Toy.world) = Ok st'
    ∧ (0 ≤ step st'.1)%Z.
Proof.
  assert (H : ∃ st' : @St Toy.types,
            SimCLRTrainer_fit (Co := Toy.collaborators) 2 true true
              (one_batch_trainer, Toy.world) = Ok st')
    by (eexists; reflexivity).
  destruct H as [st' H]. exists st'. split; [exact H|].
  exact (proj1 (proj2 (fit_writes_only_training_events (Co := Toy.collaborators)
                         2 true true (one_batch_trainer, Toy.world) st' H))).
Defined.

(** ** A batch size above the number of images *)

Section Oversized.
Context {Ty : Types} {Co : @Collaborators Ty}.
Local Open Scope nat_scope.
Local Open Scope list_scope.

Lemma fit_loop_no_batches ev (n : nat) (e : bool) (t : Trainer) (w : World) :
  (∀ g, (_ds t g).1 = []) →
  ∃ g', fit_loop _run_training_epoch ev n false e (t, w)
        = Ok (t, mkWorld (weights w) (opt_state w) g' (events w)).
Proof.
  intros Hds. revert w. induction n as [|n IH]; intros w; cbn [fit_loop].
  - exists (rng w). by destruct w.
  - assert (Hep : ∃ g, _run_training_epoch (t, w)
                       = Ok (t, mkWorld (weights w) (opt_state w) g (events w))).
    { unfold _run_training_epoch. cbn [fst snd].
      pose proof (Hds (rng w)) as Hg.
      destruct (_ds t (rng w)) as [bs g]. cbn [fst] in Hg. subst bs.
      by exists g. }
    destruct Hep as [g ->]. cbn [mbind Result_bind].
    destruct (IH (mkWorld (weights w) (opt_state w) g (events w))) as [g' Hg'].
    exists g'. exact Hg'.
Qed.

(** With fewer images than [batch_size], [drop_remainder] leaves no
    batch at all: the constructor succeeds, and [fit] then returns without
    a single training step, for any number of epochs; step counter,
    weights, optimizer state and log are what the constructor left. *)
Theorem oversized_batch_trains_nothing ld td testdata fa augment
    temperature num_hidden output_dim lr lr_decay imshape num_channels norm
    batch_size num_parallel_calls single_channel notes downstream_labels g
    (st0 : St) (epochs : Z) (e : bool) :
  SimCLRTrainer_init ld td testdata fa augment temperature num_hidden
    output_dim lr lr_decay imshape num_channels norm batch_size
    num_parallel_calls single_channel notes downstream_labels g = Ok st0 →
  length cifar10_load_data.1.1 < Z.to_nat batch_size →
  (∀ g', (_ds st0.1 g').1 = [])
  ∧ ∃ st', SimCLRTrainer_fit epochs false e st0 = Ok st'
           ∧ st'.1 = st0.1
           ∧ step st'.1 = 0%Z
           ∧ weights st'.2 = weights st0.2
           ∧ opt_state st'.2 = opt_state st0.2
           ∧ events st'.2 = events st0.2.
Proof.
  intros Hinit Hsmall.
  destruct (SimCLRTrainer_init_fields _ _ _ _ _ _ _ _ _ _ _ _ _ _ _ _ _ _ _ _
              Hinit) as (HN & Hds & _ & _ & Hstep & _).
  assert (Hnone : ∀ g', (_ds st0.1 g').1 = []).
  { intros g'. apply length_zero_iff_nil. rewrite Hds. unfold Batch in *.
    rewrite ds_batch_length by lia.
    rewrite flat_views_length. unfold rescale. rewrite length_map.
    rewrite Nat.Div0.div_mul_cancel_l by lia.
    by apply Nat.div_small. }
  split; [done|]. destruct st0 as [t w]. cbn [fst snd] in *.
  destruct (fit_loop_no_batches evaluate (Z.to_nat epochs) e t w Hnone)
    as [g' Hfit].
  eexists. split; [exact Hfit|]. done.
Qed.

End Oversized.

Lemma oversized_batch_trains_nothing_witness :
  (length (cifar10_load_data (Collaborators := Toy.collaborators)).1.1 < Z.to_nat 6)%nat
  ∧ ∃ st0 st' : @St Toy.types,
      Toy.init (PyBool true) 1%R 6 PyNone Toy.seed = Ok st0
      ∧ SimCLRTrainer_fit (Co := Toy.collaborators) 3 false true st0 = Ok st'
      ∧ step st'.1 = 0%Z.
Proof.
  assert (Hs : (length (cifar10_load_data (Collaborators := Toy.collaborators)).1.1
                < Z.to_nat 6)%nat) by (vm_compute; lia).
  split; [exact Hs|].
  destruct (SimCLRTrainer_init_ok (Co := Toy.collaborators)
           "logs" PyNone PyNone Toy.encoder
           (PyBool true) 1%R 128 64 (1 / 100)%R 10000 (PyInt 32, PyInt 32)
           (PyInt 3) (PyInt 255) 6 PyNone (PyBool false) (PyStr "") PyNone
           Toy.seed eq_refl eq_refl) as (st0 & Hst0 & _).
  destruct (oversized_batch_trains_nothing (Co := Toy.collaborators)
              _ _ _ _ _ _ _ _ _ _ _ _ _ _ _ _ _ _ _ st0 3 true Hst0 Hs)
    as (_ & st' & Hfit & _ & Hstep & _).
  exists st0, st'. split; [exact Hst0|]. split; assumption.
Defined.

(** ** Bounds on the loss *)

Section LossBounds.
Context {Ty : Types} {Co : @Collaborators Ty}.
Local Open Scope R_scope.

Lemma ln_le_mono (x y : R) : 0 < x → x <= y → ln x <= ln y.
Proof.
  intros Hx [Hlt| ->]; [left; by apply ln_increasing|right; done].
Qed.

Lemma row_cross_entropy_nonneg (label : Z) (row : list R) (c : R) :
  row_cross_entropy label row = Ok c → 0 <= c.
Proof.
  unfold row_cross_entropy.
  destruct (Z.leb_spec 0 label) as [H0|]; [|done].
  destruct (Z.ltb_spec label (Z.of_nat (length row))) as [H1|]; [|done].
  cbn [andb]. intros [= <-].
  destruct (lookup_lt_is_Some_2 row (Z.to_nat label)) as [a Ha]; [lia|].
  rewrite (nth_lookup_Some _ _ _ _ Ha).
  pose proof (rsum_exp_ge _ _ _ Ha) as Hge.
  pose proof (ln_le_mono _ _ (exp_pos a) Hge) as Hln.
  rewrite ln_exp in Hln. lra.
Qed.

Lemma rows_cross_entropy_nonneg (labels : list Z) (logits : Mat) (ce : list R) :
  rows_cross_entropy labels logits = Ok ce → Forall (fun c => 0 <= c) ce.
Proof.
  unfold Mat in *. revert logits ce.
  induction labels as [|l labels IH]; intros [|row logits] ce; cbn; try done.
  - intros [= <-]. constructor.
  - destruct (row_cross_entropy l row) as [c|e] eqn:Hc; cbn; [|done].
    destruct (rows_cross_entropy labels logits) as [cs|e] eqn:Hcs; cbn; [|done].
    intros [= <-]. constructor; [by eapply row_cross_entropy_nonneg|].
    by eapply IH.
Qed.

Lemma rsum_nonneg (v : list R) : Forall (fun c => 0 <= c) v → 0 <= rsum v.
Proof.
  induction 1 as [|c v Hc _ IH]; cbn; [lra|]. fold (rsum v). lra.
Qed.

Lemma simclr_loss_nonneg (τ replicas : R) (n : nat) (y : list Z) (emb : Mat) (l : R) :
  simclr_loss τ replicas n y emb = Ok l → 0 < replicas → 0 <= l.
Proof.
  unfold simclr_loss. destruct (negb _); [done|].
  unfold sparse_softmax_cross_entropy_with_logits.
  destruct (rows_cross_entropy _ _) as [ce|e] eqn:Hce; cbn; [|done].
  intros [= <-] Hr. apply rows_cross_entropy_nonneg, rsum_nonneg in Hce.
  unfold reduce_mean, Rdiv.
  assert (0 < / replicas) by (by apply Rinv_0_lt_compat).
  destruct ce as [|c ce]; [cbn [rsum foldr]; rewrite !Rmult_0_l; lra|].
  assert (0 < / INR (length (c :: ce))).
  { apply Rinv_0_lt_compat, lt_0_INR. cbn [length]. lia. }
  apply Rmult_le_pos; [|lra]. apply Rmult_le_pos; [done|lra].
Qed.

(** The loss a training step returns is never negative: every row's
    cross entropy is the log of a sum of exponentials minus one of its
    logits.  (Stated for a batch with at least one view, a temperature
    other than zero and a positive replica count, where the real-number
    reading of the step applies.) *)
Theorem training_loss_nonneg embed_model (τ replicas : R) (x : list Image)
    (y : list Z) (w w' : World) (l : R) :
  x ≠ [] → τ ≠ 0 → 0 < replicas →
  training_step embed_model τ replicas x y w = Ok (l, w') →
  0 <= l.
Proof.
  intros _ _ Hr. unfold training_step.
  destruct (simclr_loss _ _ _ _ _) as [l0|e] eqn:Hl; cbn [mbind Result_bind]; [|done].
  destruct (apply_gradients _ _) as [o ws]. intros [= <- _].
  by eapply simclr_loss_nonneg.
Qed.

End LossBounds.

Lemma training_loss_nonneg_witness :
  Toy.views ≠ [] ∧ (1 ≠ 0)%R ∧ (0 < 1)%R
  ∧ ∃ (l : R) (w' : @World Toy.types),
      training_step (Co := Toy.collaborators) [] 1%R 1%R
        Toy.views Toy.labels Toy.world = Ok (l, w')
      ∧ (0 <= l)%R.
Proof.
  assert (Hv : Toy.views ≠ []) by discriminate.
  assert (H1 : (1 ≠ 0)%R) by lra.
  assert (H2 : (0 < 1)%R) by lra.
  split; [exact Hv|]. split; [exact H1|]. split; [exact H2|].
  assert (H : ∃ (l : R) (w' : @World Toy.types),
            training_step (Co := Toy.collaborators) [] 1%R 1%R
              Toy.views Toy.labels Toy.world = Ok (l, w'))
    by (eexists _, _; reflexivity).
  destruct H as (l & w' & H). exists l, w'. split; [exact H|].
  exact (training_loss_nonneg (Co := Toy.collaborators) [] 1%R 1%R
           Toy.views Toy.labels Toy.world w' l Hv H1 H2 H).
Defined.

(** ** Cosine similarities *)

Section Cosine.
Local Open Scope R_scope.

Definition sumsq (v : list R) : R := rsum (map (fun a => a * a) v).

Lemma sumsq_nonneg (v : list R) : 0 <= sumsq v.
Proof. apply (rsum_squares_nonneg (fun a => a)). Qed.

(** [2 u.v <= |u|^2 + |v|^2], and the same for [-u.v]; [dot] stops at
    the shorter vector. *)
Lemma dot_le_sumsq (u v : list R) :
  2 * dot u v <= sumsq u + sumsq v ∧ - (2 * dot u v) <= sumsq u + sumsq v.
Proof.
  revert v. induction u as [|a u IH]; intros [|b v].
  - unfold dot, sumsq. cbn. split; lra.
  - pose proof (sumsq_nonneg (b :: v)). unfold dot. cbn [zip_with rsum foldr].
    replace (sumsq []) with 0 by done. split; lra.
  - pose proof (sumsq_nonneg (a :: u)). unfold dot. cbn [zip_with rsum foldr].
    replace (sumsq []) with 0 by done. split; lra.
  - destruct (IH v) as [H1 H2].
    replace (dot (a :: u) (b :: v)) with (a * b + dot u v) by done.
    replace (sumsq (a :: u)) with (a * a + sumsq u) by done.
    replace (sumsq (b :: v)) with (b * b + sumsq v) by done.
    pose proof (Rle_0_sqr (a - b)) as Hm. pose proof (Rle_0_sqr (a + b)) as Hp.
    unfold Rsqr in Hm, Hp. split; lra.
Qed.

(** A normalized row has length at most one; a zero row stays zero
    thanks to the epsilon under the root. *)
Lemma sumsq_l2_normalize_row (v : list R) :
  sumsq (l2_normalize_row v) = sumsq v / Rmax (sumsq v) l2_epsilon
  ∧ sumsq (l2_normalize_row v) <= 1.
Proof.
  unfold l2_normalize_row. fold (sumsq v).
  set (m := Rmax (sumsq v) l2_epsilon).
  assert (Hm : 0 < m).
  { unfold m, l2_epsilon. eapply Rlt_le_trans; [|apply Rmax_r]. lra. }
  assert (Hs : sumsq v <= m) by apply Rmax_l.
  assert (Heq : sumsq (map (fun a => a * / sqrt m) v) = sumsq v / m).
  { unfold sumsq. rewrite map_map.
    rewrite (map_ext _ (fun a => a * a * (/ sqrt m * / sqrt m)))
      by (intros a; ring).
    rewrite (rsum_map_scale (fun a => a * a)).
    rewrite <- Rinv_mult, sqrt_sqrt by lra. done. }
  split; [done|]. rewrite Heq.
  apply Rmult_le_reg_r with m; [done|].
  unfold Rdiv. rewrite Rmult_assoc, Rinv_l by lra. lra.
Qed.

Lemma cosine_bounded (embeddings : Mat) (i j : nat) :
  -1 <= Entrywise.cosine embeddings i j <= 1.
Proof.
  unfold Entrywise.cosine.
  set (u := l2_normalize_row (nth i embeddings [])).
  set (v := l2_normalize_row (nth j embeddings [])).
  destruct (dot_le_sumsq u v) as [H1 H2].
  pose proof (proj2 (sumsq_l2_normalize_row (nth i embeddings []))) as Hu.
  pose proof (proj2 (sumsq_l2_normalize_row (nth j embeddings []))) as Hv.
  fold u in Hu. fold v in Hv. lra.
Qed.

Lemma dot_normalized_bounded (u v : list R) :
  -1 <= dot (l2_normalize_row u) (l2_normalize_row v) <= 1.
Proof.
  destruct (dot_le_sumsq (l2_normalize_row u) (l2_normalize_row v)) as [H1 H2].
  pose proof (proj2 (sumsq_l2_normalize_row u)).
  pose proof (proj2 (sumsq_l2_normalize_row v)). lra.
Qed.

(** The similarity matrix of [training_step], entry by entry. *)
Lemma similarity_lookup (emb : Mat) (i j : nat) (u v : list R) :
  emb !! i = Some u → emb !! j = Some v →
  ∃ r, matmul_transpose_b (l2_normalize emb) (l2_normalize emb) !! i = Some r
       ∧ r !! j = Some (dot (l2_normalize_row u) (l2_normalize_row v)).
Proof.
  intros Hu Hv. unfold Mat in *. unfold matmul_transpose_b, l2_normalize.
  rewrite !list_lookup_fmap, Hu. cbn. eexists. split; [done|].
  by rewrite !list_lookup_fmap, Hv.
Qed.

(** Every entry of the similarity matrix the training step computes from
    the embeddings lies in [-1, 1], whatever the embeddings are (rows of
    different lengths and zero rows included: the epsilon under the root
    keeps the normalization defined, and a zero row has similarity 0 to
    everything). *)
Theorem similarity_entries_bounded (emb : Mat) (i j : nat) (row : list R) (s : R) :
  matmul_transpose_b (l2_normalize emb) (l2_normalize emb) !! i = Some row →
  row !! j = Some s →
  -1 <= s <= 1
  ∧ (∀ u, emb !! i = Some u → sumsq u = 0 → s = 0).
Proof.
  intros Hrow Hs. unfold Mat in *.
  unfold matmul_transpose_b, l2_normalize in Hrow.
  rewrite !list_lookup_fmap in Hrow.
  destruct (emb !! i) as [u|] eqn:Hu; [|done]. cbn in Hrow.
  injection Hrow as <-. rewrite !list_lookup_fmap in Hs.
  destruct (emb !! j) as [v|] eqn:Hv; [|done]. cbn in Hs.
  injection Hs as <-. split; [apply dot_normalized_bounded|].
  intros u' [= <-] Hz.
  destruct (dot_le_sumsq (l2_normalize_row u) (l2_normalize_row v)) as [H1 H2].
  destruct (sumsq_l2_normalize_row u) as [Hn _]. rewrite Hz in Hn.
  unfold Rdiv in Hn. rewrite Rmult_0_l in Hn.
  assert (Hzero : l2_normalize_row u = map (fun _ => 0) u).
  { unfold l2_normalize_row. fold (sumsq u). apply map_ext_Forall.
    assert (Hall : Forall (fun a => a = 0) u).
    { clear -Hz. induction u as [|a u IH]; [constructor|].
      replace (sumsq (a :: u)) with (a * a + sumsq u) in Hz by done.
      pose proof (sumsq_nonneg u). pose proof (Rle_0_sqr a) as Ha.
      unfold Rsqr in Ha.
      constructor; [nra|]. apply IH. lra. }
    eapply Forall_impl; [exact Hall|]. intros a ->. cbn. ring. }
  rewrite Hzero. clear. unfold dot. generalize (l2_normalize_row v) as w.
  induction u as [|a u IH]; intros [|b w]; cbn [map zip_with rsum foldr]; try done.
  fold (rsum (zip_with Rmult (map (fun _ => 0) u) w)). rewrite IH. ring.
Qed.

(** In the logits the training step computes, with a temperature in
    (0, 72] and at least two views, the diagonal entry of every row takes
    less than 1e-6 of the row's softmax, for all embeddings. *)
Theorem self_similarity_excluded (τ : R) (emb : Mat) (i : nat) :
  0 < τ <= 72 → (2 <= length emb)%nat → (i < length emb)%nat →
  ∃ row, simclr_logits τ (length emb) emb !! i = Some row
         ∧ softmax_weight row i < 1 / 1000000.
Proof.
  intros Hτ Hn Hi. unfold Mat in *.
  set (j := if (i =? 0)%nat then 1%nat else 0%nat).
  assert (Hj : (j < length emb)%nat) by (unfold j; destruct (i =? 0)%nat; lia).
  assert (Hij : (i =? j)%nat = false).
  { unfold j. destruct (Nat.eqb_spec i 0) as [->|]; [done|].
    by apply Nat.eqb_neq. }
  destruct (lookup_lt_is_Some_2 emb i Hi) as [u Hu].
  destruct (lookup_lt_is_Some_2 emb j Hj) as [v Hv].
  destruct (similarity_lookup emb i i u u Hu Hu) as (r & Hr & Hd).
  destruct (similarity_lookup emb i j u v Hu Hv) as (r' & Hr' & Ho).
  unfold Mat in *. rewrite Hr in Hr'. injection Hr' as <-.
  unfold simclr_logits. cbv zeta.
  destruct (masked_logits_lookup τ (length emb) _ i i r _ Hi Hi Hr Hd)
    as (row & Hrow & Hdd).
  destruct (masked_logits_lookup τ (length emb) _ i j r _ Hi Hj Hr Ho)
    as (row' & Hrow' & Hoo).
  unfold Mat in *. rewrite Hrow in Hrow'. injection Hrow' as <-.
  rewrite Nat.eqb_refl in Hdd. rewrite Hij in Hoo.
  exists row. split; [done|].
  eapply Rle_lt_trans; [exact (softmax_weight_gap _ _ _ _ _ Hdd Hoo)|].
  apply masked_gap; [done|apply dot_normalized_bounded..].
Qed.

End Cosine.

Lemma similarity_entries_bounded_witness :
  ∃ (row : list R) (s : R),
    matmul_transpose_b (l2_normalize Toy.views) (l2_normalize Toy.views) !! 0%nat
    = Some row
    ∧ row !! 1%nat = Some s
    ∧ (-1 <= s <= 1)%R.
Proof.
  eexists _, _. split; [reflexivity|]. split; [reflexivity|].
  exact (proj1 (similarity_entries_bounded Toy.views 0 1 _ _ eq_refl eq_refl)).
Defined.

Lemma self_similarity_excluded_witness :
  (0 < 1 / 10 <= 72)%R ∧ (2 <= length Toy.views)%nat ∧ (0 < length Toy.views)%nat
  ∧ ∃ row, simclr_logits (1 / 10) (length Toy.views) Toy.views !! 0%nat = Some row
           ∧ (softmax_weight row 0 < 1 / 1000000)%R.
Proof.
  assert (Hτ : (0 < 1 / 10 <= 72)%R) by lra.
  assert (H2 : (2 <= length Toy.views)%nat) by (cbn; lia).
  assert (H0 : (0 < length Toy.views)%nat) by (cbn; lia).
  split; [exact Hτ|]. split; [exact H2|]. split; [exact H0|].
  exact (self_similarity_excluded (1 / 10) Toy.views 0 Hτ H2 H0).
Defined.

(** ** The loss of collapsed embeddings *)

Section Collapse.
Local Open Scope R_scope.

Lemma dot_self (w : list R) : dot w w = sumsq w.
Proof. unfold dot, sumsq. by rewrite zip_with_diag. Qed.

Lemma dot_l2_normalize_self (v : list R) :
  l2_epsilon <= sumsq v → dot (l2_normalize_row v) (l2_normalize_row v) = 1.
Proof.
  intros Hv. rewrite dot_self.
  rewrite (proj1 (sumsq_l2_normalize_row v)), Rmax_left by done.
  unfold l2_epsilon in Hv. apply Rdiv_diag. lra.
Qed.

Lemma rsum_const {A} (c : R) (l : list A) :
  rsum (map (fun _ => c) l) = INR (length l) * c.
Proof.
  induction l as [|x l IH]; [cbn; lra|].
  cbn [map rsum foldr]. fold (rsum (map (fun _ : A => c) l)).
  rewrite IH. change (length (x :: l)) with (S (length l)). rewrite S_INR. lra.
Qed.

(** A sum in which one position holds [a] and all others [b]. *)
Lemma rsum_one_out (a b : R) (i s n : nat) :
  rsum (map (fun j => if (i =? j)%nat then a else b) (seq s n))
  = if decide (s ≤ i < s + n)%nat then a + (INR n - 1) * b else INR n * b.
Proof.
  revert s. induction n as [|n IH]; intros s.
  - cbn. case_decide; [lia|lra].
  - cbn [seq map rsum foldr].
    fold (rsum (map (fun j => if (i =? j)%nat then a else b) (seq (S s) n))).
    rewrite IH, S_INR.
    destruct (Nat.eqb_spec i s) as [->|Hne]; repeat case_decide; try lia; lra.
Qed.

(** The logits of [n] copies of one embedding. *)
Lemma logit_replicate (τ : R) (v : list R) (n i j : nat) :
  l2_epsilon <= sumsq v → (i < n)%nat → (j < n)%nat →
  Entrywise.logit τ (replicate n v) i j
  = if (i =? j)%nat then (1 - BIG_NUMBER) / τ else 1 / τ.
Proof.
  intros Hv Hi Hj. unfold Entrywise.logit, Entrywise.cosine.
  rewrite !(nth_lookup_Some _ _ _ v) by (by apply lookup_replicate_2).
  by rewrite dot_l2_normalize_self.
Qed.

Lemma collapsed_row_loss (τ : R) (v : list R) (n i t : nat) :
  l2_epsilon <= sumsq v → (i < n)%nat → (t < n)%nat → t ≠ i →
  Entrywise.row_loss τ (replicate n v) n i t
  = ln (INR n - 1 + exp (- (BIG_NUMBER / τ))).
Proof.
  intros Hv Hi Ht Hne. unfold Entrywise.row_loss.
  rewrite (logit_replicate τ v n i t Hv Hi Ht).
  destruct (Nat.eqb_spec i t) as [->|_]; [done|].
  rewrite (map_ext_in _ (fun j => if (i =? j)%nat
                                  then exp ((1 - BIG_NUMBER) / τ)
                                  else exp (1 / τ))).
  2:{ intros j Hj. apply in_seq in Hj.
      rewrite logit_replicate by (done || lia). by destruct (i =? j)%nat. }
  rewrite rsum_one_out. case_decide; [|lia].
  replace ((1 - BIG_NUMBER) / τ) with (1 / τ + - (BIG_NUMBER / τ))
    by (unfold Rdiv; ring).
  rewrite exp_plus.
  assert (Hn : 1 <= INR n) by (apply (le_INR 1); lia).
  pose proof (exp_pos (1 / τ)) as HB.
  pose proof (exp_pos (- (BIG_NUMBER / τ))) as HA.
  replace (exp (1 / τ) * exp (- (BIG_NUMBER / τ)) + (INR n - 1) * exp (1 / τ))
    with (exp (1 / τ) * (INR n - 1 + exp (- (BIG_NUMBER / τ)))) by ring.
  rewrite ln_mult, ln_exp by lra. ring.
Qed.

(** When all views of a batch have one and the same embedding (of norm
    above the epsilon of the normalization), every similarity is 1 and the
    loss is [ln (n - 1 + exp (-BIG_NUMBER / τ)) / replicas], for every
    assignment of twins: about [ln (n - 1)], the loss of a uniform guess
    among the other [n - 1] views. *)
Theorem collapsed_embeddings_loss (τ replicas : R) (v : list R) (n : nat)
    (y : list Z) :
  τ ≠ 0 → (0 < n)%nat → l2_epsilon <= sumsq v →
  valid_labels n y → (∀ i l, y !! i = Some l → l ≠ 0%Z) →
  simclr_loss τ replicas n y (replicate n v)
  = Ok (ln (INR n - 1 + exp (- (BIG_NUMBER / τ))) / replicas).
Proof.
  intros _ Hn Hv Hy Hoff.
  rewrite simclr_loss_spec by (done || by rewrite length_replicate).
  f_equal. unfold Entrywise.loss. rewrite length_replicate.
  rewrite (map_ext_in _ (fun _ => ln (INR n - 1 + exp (- (BIG_NUMBER / τ))))).
  2:{ intros i Hi. apply in_seq in Hi. destruct Hy as [Hlen Hval].
      destruct (lookup_lt_is_Some_2 y i) as [l Hl]; [lia|].
      specialize (Hval i l Hl). specialize (Hoff i l Hl).
      apply collapsed_row_loss; [done|lia| |];
        unfold Entrywise.target; rewrite (nth_lookup_Some _ _ _ _ Hl); lia. }
  rewrite rsum_const, length_seq.
  assert (0 < INR n) by (apply lt_0_INR; lia).
  f_equal. field. lra.
Qed.

End Collapse.

Lemma collapsed_embeddings_loss_witness :
  (1 ≠ 0)%R ∧ (0 < 2)%nat ∧ (l2_epsilon <= sumsq [1; 0])%R
  ∧ valid_labels 2 Toy.labels
  ∧ simclr_loss 1 1 2 Toy.labels (replicate 2 [1; 0]%R)
    = Ok (ln (INR 2 - 1 + exp (- (BIG_NUMBER / 1))) / 1)%R.
Proof.
  assert (H1 : (1 ≠ 0)%R) by lra.
  assert (H2 : (0 < 2)%nat) by lia.
  assert (H3 : (l2_epsilon <= sumsq [1; 0])%R).
  { unfold l2_epsilon, sumsq. cbn. lra. }
  assert (H4 : ∀ i l, Toy.labels !! i = Some l → l ≠ 0%Z).
  { intros [|[|i]] l H; cbn in H; try discriminate; injection H as <-; lia. }
  split; [exact H1|]. split; [exact H2|]. split; [exact H3|].
  split; [exact Toy.labels_valid|].
  exact (collapsed_embeddings_loss 1 1 [1; 0]%R 2 Toy.labels H1 H2 H3
           Toy.labels_valid H4).
Defined.

(** ** Invariants of the configuration buckets *)

Lemma _parse_configs_step_keys (c : Configs) (kv : string * PyVal) :
  let P := fun c : Configs =>
    (∀ k, is_Some (input_config c !! k) → k ∈ INPUT_PARAMS)
    ∧ (∀ k, is_Some (config c !! k) → (k ∉ INPUT_PARAMS) ∧ k ≠ "augment") in
  P c → P (_parse_configs_step c kv).
Proof.
  intros P [Hi Hc]. destruct kv as [k0 v0]. unfold P, _parse_configs_step.
  destruct (String.eqb_spec k0 "augment") as [->|Hna]; cbn; [done|].
  case_bool_decide as Hin; cbn.
  - split; [|done]. intros k Hk.
    destruct (decide (k = k0)) as [->|Hne]; [done|].
    rewrite lookup_insert_ne in Hk by done. by apply Hi.
  - split; [done|]. intros k Hk.
    destruct (decide (k = k0)) as [->|Hne]; [done|].
    rewrite lookup_insert_ne in Hk by done. by apply Hc.
Qed.

(** Whatever keyword arguments [_parse_configs] is given: the input
    bucket only ever holds keys of [INPUT_PARAMS], the model bucket never
    holds one of them nor [augment], and without an [augment] argument the
    augment bucket keeps its default [False]. *)
Theorem _parse_configs_keys (kwargs : list (string * PyVal)) :
  let c := _parse_configs kwargs in
  (∀ k, is_Some (input_config c !! k) → k ∈ INPUT_PARAMS)
  ∧ (∀ k, is_Some (config c !! k) → (k ∉ INPUT_PARAMS) ∧ k ≠ "augment")
  ∧ ("augment" ∉ kwargs.*1 → augment_config c = PyBool false).
Proof.
  induction kwargs as [|kv kw IH] using rev_ind.
  - cbn. split; [|split; [|done]]; intros k [v Hk]; by rewrite lookup_empty in Hk.
  - cbv zeta in *. rewrite _parse_configs_snoc.
    destruct IH as (Hi & Hc & Ha).
    destruct (_parse_configs_step_keys (_parse_configs kw) kv (conj Hi Hc))
      as [Hi' Hc'].
    split; [done|]. split; [done|].
    rewrite fmap_app, not_elem_of_app. intros [Hkw Hkv].
    destruct kv as [k0 v0]. cbn in Hkv.
    unfold _parse_configs_step.
    destruct (String.eqb_spec k0 "augment") as [->|Hna]; [set_solver|].
    case_bool_decide; cbn; by apply Ha.
Qed.

Lemma _parse_configs_keys_witness :
  ("augment" ∉ [("imshape", PyInt 32); ("lr", PyInt 1)].*1)
  ∧ augment_config (_parse_configs [("imshape", PyInt 32); ("lr", PyInt 1)])
    = PyBool false.
Proof.
  assert (H : "augment" ∉ [("imshape", PyInt 32); ("lr", PyInt 1)].*1)
    by (cbn; set_solver).
  split; [exact H|].
  exact (proj2 (proj2 (_parse_configs_keys [("imshape", PyInt 32); ("lr", PyInt 1)])) H).
Defined.

(** ** The data of a trainer *)

Section TrainerData.
Context {Ty : Types} {Co : @Collaborators Ty}.
Local Open Scope list_scope.


End TrainerData.


(** ** Embeddings below the epsilon of the normalization *)

Section TinyEmbeddings.
Local Open Scope R_scope.

(** Four views whose embeddings have norm 1e-7: two pairs of twins
    pointing in opposite directions. *)
Definition tiny : R := 1 / 10000000.
Definition tiny_embeddings : Mat := [[tiny]; [tiny]; [- tiny]; [- tiny]].
Definition twin_labels : list Z := [1; -1; 1; -1]%Z.

Lemma twin_labels_valid : valid_labels 4 twin_labels.
Proof.
  split; [done|].
  intros [|[|[|[|i]]]] l H; cbn in H; try discriminate; injection H as <-; lia.
Qed.

Lemma sqrt_l2_epsilon : sqrt l2_epsilon = 1 / 1000000.
Proof. apply sqrt_lem_1; unfold l2_epsilon; lra. Qed.

(** The code divides these by 1e-6, not by their norm. *)
Lemma l2_normalize_row_tiny :
  l2_normalize_row [tiny] = [1 / 10] ∧ l2_normalize_row [- tiny] = [- (1 / 10)].
Proof.
  unfold l2_normalize_row, tiny. cbn [map rsum foldr].
  rewrite !Rmax_right by (unfold l2_epsilon; lra).
  rewrite sqrt_l2_epsilon. split; f_equal; lra.
Qed.

(** The specification divides them by their norm. *)
Lemma normalize_tiny :
  NTXent.normalize [tiny] = [1] ∧ NTXent.normalize [- tiny] = [-1].
Proof.
  unfold NTXent.normalize, NTXent.norm, tiny. cbn [map NTXent.inner].
  rewrite !(sqrt_lem_1 _ (1 / 10000000)) by lra. split; f_equal; lra.
Qed.

(** The logits of the code and of the specification on these
    embeddings, at temperature 1. *)
Definition same_pair (i j : nat) : bool := Bool.eqb (i <? 2)%nat (j <? 2)%nat.

Lemma code_logit_tiny (i j : nat) :
  (i < 4)%nat → (j < 4)%nat →
  Entrywise.logit 1 tiny_embeddings i j
  = if (i =? j)%nat then - (99999 / 100)
    else if same_pair i j then 1 / 100 else - (1 / 100).
Proof.
  destruct l2_normalize_row_tiny as [Hp Hm].
  intros Hi Hj. unfold Entrywise.logit, Entrywise.cosine, tiny_embeddings, BIG_NUMBER.
  destruct i as [|[|[|[|i]]]]; try lia;
    destruct j as [|[|[|[|j]]]]; try lia;
    cbn [nth Nat.eqb same_pair Nat.ltb Nat.leb Bool.eqb];
    rewrite ?Hp, ?Hm; unfold dot; cbn [zip_with rsum foldr]; lra.
Qed.

Lemma spec_logit_tiny (i j : nat) :
  (i < 4)%nat → (j < 4)%nat →
  NTXent.logit 1 tiny_embeddings i j
  = if (i =? j)%nat then - 999
    else if same_pair i j then 1 else - 1.
Proof.
  destruct normalize_tiny as [Hp Hm].
  intros Hi Hj.
  unfold NTXent.logit, NTXent.masked, NTXent.similarity, NTXent.large_constant,
    tiny_embeddings.
  destruct i as [|[|[|[|i]]]]; try lia;
    destruct j as [|[|[|[|j]]]]; try lia;
    cbn [nth Nat.eqb same_pair Nat.ltb Nat.leb Bool.eqb];
    rewrite ?Hp, ?Hm; cbn [NTXent.inner]; lra.
Qed.

Lemma cross_entropy_logsumexp (τ : R) (emb : list (list R)) (n i t : nat) :
  (0 < n)%nat →
  NTXent.cross_entropy τ emb n i t
  = ln (NTXent.total (map (fun j => exp (NTXent.logit τ emb i j)) (seq 0 n)))
    - NTXent.logit τ emb i t.
Proof.
  intros Hn. unfold NTXent.cross_entropy, NTXent.softmax.
  pose proof (total_exp_pos (NTXent.logit τ emb i) n Hn) as Hpos.
  unfold Rdiv. rewrite ln_mult, ln_exp, ln_Rinv
    by (try apply exp_pos; try apply Rinv_0_lt_compat; done).
  ring.
Qed.

Lemma ln_le_compat (x y : R) : 0 < x → x <= y → ln x <= ln y.
Proof.
  intros Hx [Hlt| ->]; [left; by apply ln_increasing|right; done].
Qed.

(** The twin of view [i]. *)
Definition twin (i : nat) : nat := Entrywise.target twin_labels i.

Lemma code_row_tiny (i : nat) :
  (i < 4)%nat →
  ln (298 / 100) - 1 / 100 <= Entrywise.row_loss 1 tiny_embeddings 4 i (twin i).
Proof.
  intros Hi. unfold Entrywise.row_loss.
  rewrite (map_ext_in _ (fun j => exp (if (i =? j)%nat then - (99999 / 100)
                                        else if same_pair i j then 1 / 100
                                             else - (1 / 100)))).
  2:{ intros j Hj. apply in_seq in Hj. rewrite code_logit_tiny by lia. done. }
  pose proof (exp_pos (- (99999 / 100))) as H1.
  pose proof (exp_ineq1_le (1 / 100)) as H2.
  pose proof (exp_ineq1_le (- (1 / 100))) as H3.
  assert (Hrow : ∀ S, 298 / 100 <= S → ln (298 / 100) - 1 / 100 <= ln S - 1 / 100).
  { intros S HS. pose proof (ln_le_compat (298 / 100) S ltac:(lra) HS). lra. }
  destruct i as [|[|[|[|i]]]]; try lia;
    [change (twin 0) with 1%nat|change (twin 1) with 0%nat
    |change (twin 2) with 3%nat|change (twin 3) with 2%nat];
    rewrite code_logit_tiny by lia;
    cbn [seq map rsum foldr Nat.eqb same_pair Nat.ltb Nat.leb Bool.eqb];
    apply Hrow; lra.
Qed.

Lemma spec_row_tiny (i : nat) :
  (i < 4)%nat →
  NTXent.cross_entropy 1 tiny_embeddings 4 i (twin i) <= ln 6 - 1.
Proof.
  intros Hi. rewrite cross_entropy_logsumexp by lia.
  rewrite (map_ext_in _ (fun j => exp (if (i =? j)%nat then - 999
                                        else if same_pair i j then 1 else - 1))).
  2:{ intros j Hj. apply in_seq in Hj. rewrite spec_logit_tiny by lia. done. }
  pose proof (exp_pos (- 999)) as H0.
  assert (H1 : exp (- 999) <= 1).
  { rewrite <- exp_0. left. apply exp_increasing. lra. }
  pose proof exp_le_3 as H2. pose proof (exp_pos 1) as H2'.
  pose proof (exp_pos (- 1)) as H3'.
  assert (H3 : exp (- 1) <= 1).
  { rewrite <- exp_0. left. apply exp_increasing. lra. }
  assert (Hrow : ∀ S, 0 < S → S <= 6 → ln S - 1 <= ln 6 - 1).
  { intros S HS HS6. pose proof (ln_le_compat S 6 HS HS6). lra. }
  destruct i as [|[|[|[|i]]]]; try lia;
    [change (twin 0) with 1%nat|change (twin 1) with 0%nat
    |change (twin 2) with 3%nat|change (twin 3) with 2%nat];
    rewrite spec_logit_tiny by lia;
    cbn [seq map NTXent.total Nat.eqb same_pair Nat.ltb Nat.leb Bool.eqb];
    apply Hrow; lra.
Qed.

Lemma ln_6_bound : ln 6 - 1 < ln (298 / 100) - 1 / 100.
Proof.
  assert (He : 600 / 298 < exp (99 / 100)).
  { replace (99 / 100) with (99 / 200 + 99 / 200) by lra. rewrite exp_plus.
    pose proof (exp_ineq1_le (99 / 200)) as H. nra. }
  assert (Hl : ln (600 / 298) < 99 / 100).
  { rewrite <- (ln_exp (99 / 100)). apply ln_increasing; lra. }
  replace 6 with (298 / 100 * (600 / 298)) by lra.
  rewrite ln_mult by lra. lra.
Qed.

End TinyEmbeddings.

Section TinyLoss.
Local Open Scope R_scope.

Lemma code_loss_tiny :
  ln (298 / 100) - 1 / 100 <= Entrywise.loss 1 1 twin_labels tiny_embeddings.
Proof.
  unfold Entrywise.loss.
  change (length tiny_embeddings) with 4%nat.
  cbn [seq map rsum foldr]. fold (twin 0) (twin 1) (twin 2) (twin 3).
  pose proof (code_row_tiny 0 ltac:(lia)). pose proof (code_row_tiny 1 ltac:(lia)).
  pose proof (code_row_tiny 2 ltac:(lia)). pose proof (code_row_tiny 3 ltac:(lia)).
  replace (INR 4) with 4 by (cbn; lra). lra.
Qed.

Lemma spec_loss_tiny :
  NTXent.loss 1 1 twin_labels tiny_embeddings <= ln 6 - 1.
Proof.
  unfold NTXent.loss.
  change (length tiny_embeddings) with 4%nat.
  cbn [seq map NTXent.total].
  change (NTXent.target twin_labels 0) with (twin 0).
  change (NTXent.target twin_labels 1) with (twin 1).
  change (NTXent.target twin_labels 2) with (twin 2).
  change (NTXent.target twin_labels 3) with (twin 3).
  pose proof (spec_row_tiny 0 ltac:(lia)). pose proof (spec_row_tiny 1 ltac:(lia)).
  pose proof (spec_row_tiny 2 ltac:(lia)). pose proof (spec_row_tiny 3 ltac:(lia)).
  replace (INR 4) with 4 by (cbn; lra). lra.
Qed.

End TinyLoss.

(** C1 as stated fails on embeddings of norm below 1e-6: for four views
    with embeddings of norm 1e-7, at temperature 1, the loss of the
    training step is above the loss of the specification (about 1.09
    against 0.24), because [tf.nn.l2_normalize] divides such vectors by
    1e-6 and not by their norm. *)
Lemma tiny_embeddings_loss_differs :
  valid_labels 4 twin_labels
  ∧ Forall (fun v => 0 < NTXent.norm v)%R tiny_embeddings
  ∧ (∃ l, simclr_loss 1 1 4 twin_labels tiny_embeddings = Ok l
          ∧ (NTXent.loss 1 1 twin_labels tiny_embeddings < l)%R)
  ∧ simclr_loss 1 1 4 twin_labels tiny_embeddings
    ≠ Ok (NTXent.loss 1 1 twin_labels tiny_embeddings).
Proof.
  assert (Hcode : simclr_loss 1 1 4 twin_labels tiny_embeddings
                  = Ok (Entrywise.loss 1 1 twin_labels tiny_embeddings)).
  { apply simclr_loss_spec; [done|apply twin_labels_valid]. }
  assert (Hlt : (NTXent.loss 1 1 twin_labels tiny_embeddings
                 < Entrywise.loss 1 1 twin_labels tiny_embeddings)%R).
  { pose proof code_loss_tiny. pose proof spec_loss_tiny. pose proof ln_6_bound.
    lra. }
  split; [apply twin_labels_valid|]. split.
  { unfold tiny_embeddings, NTXent.norm, tiny.
    repeat constructor; cbn [NTXent.inner]; apply sqrt_lt_R0; lra. }
  split; [eexists; split; [exact Hcode|exact Hlt]|].
  rewrite Hcode. intros [= Heq]. rewrite Heq in Hlt. lra.
Qed.
